(** * EdgePlug runtime: a shallow embedding of the C sources and its checked properties

    The development follows the layout of [runtime/src]:
    - [Preprocess]  : preprocess.c   (sample window and low-pass filter)
    - [Hotswap]     : hotswap.c      (dual-slot update engine, watchdog)
    - [AgentLoader] : agent_loader.c (envelope parser, manifest checks, slots)
    - [Sha512]      : FIPS 180-4 SHA-512, the reference digest
    - [Actuator]    : actuator.c     (command dispatcher and the three writers)
    - [Infer]       : infer.c        (timed int8 inference)
    - [Facade]      : edgeplug_runtime.c (the public entry points)

    Part I holds the definitions, Part II the lemmas and theorems.

    Conventions.  C unsigned integers are [Z] values with the wrap-around
    written out ([u8], [u16], [u32], [u64]).  A C pointer argument that the
    code tests against NULL is an [option]; a buffer passed with its length
    is a [list Z] of bytes whose [length] is the size argument.  File-scope
    and function-scope [static] variables are the fields of one state record
    per translation unit, threaded explicitly.  A C [float] is an IEEE-754
    binary32 value, computed with the Standard Library's [SpecFloat]
    operations at precision 24 and maximal exponent 128 (round to nearest
    even, one rounding per operation).

    Where C leaves the behaviour undefined the source does not say what
    the program does; the definition concerned says what the model does
    there.  The network evaluation of infer.c indexes its arrays with
    unchecked values from the model image: an access outside the array has
    no value in the model ([None]), and statements about such a run are
    made for runs that stay inside.  The width of [size_t] is a parameter
    of the one place where it matters, 32 bits for the Cortex-M4 target. *)

From Stdlib Require Import ZArith Lia Bool Floats.SpecFloat.
From stdpp Require Import base list.

Local Open Scope Z_scope.

(* ================================================================== *)
(** * Part I: definitions                                              *)
(* ================================================================== *)

(** ** Shared declarations (edgeplug_runtime.h) *)

Module Runtime.

Inductive edgeplug_status_t : Set :=
| EDGEPLUG_OK
| EDGEPLUG_ERROR_INVALID_PARAM
| EDGEPLUG_ERROR_MEMORY
| EDGEPLUG_ERROR_AGENT_LOAD
| EDGEPLUG_ERROR_INFERENCE
| EDGEPLUG_ERROR_ACTUATION
| EDGEPLUG_ERROR_SAFETY
| EDGEPLUG_ERROR_HOTSWAP.

Definition status_eqb (a b : edgeplug_status_t) : bool :=
  match a, b with
  | EDGEPLUG_OK, EDGEPLUG_OK
  | EDGEPLUG_ERROR_INVALID_PARAM, EDGEPLUG_ERROR_INVALID_PARAM
  | EDGEPLUG_ERROR_MEMORY, EDGEPLUG_ERROR_MEMORY
  | EDGEPLUG_ERROR_AGENT_LOAD, EDGEPLUG_ERROR_AGENT_LOAD
  | EDGEPLUG_ERROR_INFERENCE, EDGEPLUG_ERROR_INFERENCE
  | EDGEPLUG_ERROR_ACTUATION, EDGEPLUG_ERROR_ACTUATION
  | EDGEPLUG_ERROR_SAFETY, EDGEPLUG_ERROR_SAFETY
  | EDGEPLUG_ERROR_HOTSWAP, EDGEPLUG_ERROR_HOTSWAP => true
  | _, _ => false
  end.

(** Unsigned wrap-around at the C widths. *)
Definition u8 (x : Z) : Z := x mod 2 ^ 8.
Definition u16 (x : Z) : Z := x mod 2 ^ 16.
Definition u32 (x : Z) : Z := x mod 2 ^ 32.
Definition u64 (x : Z) : Z := x mod 2 ^ 64.

(** [edgeplug_manifest_t]; [signature] and [hash] are the two 64-byte arrays. *)
Record edgeplug_manifest_t : Type := {
  version : Z;
  agent_id : Z;
  flash_size : Z;
  sram_size : Z;
  signature : list Z;
  hash : list Z
}.

(** Binary32 arithmetic as the C [float] operators compute it. *)
Definition f32_add : spec_float -> spec_float -> spec_float := SFadd 24 128.
Definition f32_sub : spec_float -> spec_float -> spec_float := SFsub 24 128.
Definition f32_mul : spec_float -> spec_float -> spec_float := SFmul 24 128.
Definition f32_ltb : spec_float -> spec_float -> bool := SFltb.
(** The float nearest to an integer literal such as [1.0f] or [100.0f]. *)
Definition f32_of_Z (z : Z) : spec_float := binary_normalize 24 128 z 0 false.
Definition f32_zero : spec_float := S754_zero false.
Definition f32_one : spec_float := f32_of_Z 1.
(** [0.1f]: the binary32 value 0x3DCCCCCD = 13421773 * 2^-27. *)
Definition f32_0_1 : spec_float := S754_finite false 13421773 (-27).

(** The IEEE-754 bit pattern of a binary32 value in canonical form (what a
    [union { float f; uint8_t b[4]; }] exposes), as a 32-bit number. *)
Definition f32_bits (x : spec_float) : Z :=
  match x with
  | S754_zero s => if s then 0x80000000 else 0
  | S754_infinity s => (if s then 0x80000000 else 0) + 0x7F800000
  | S754_nan => 0x7FC00000
  | S754_finite s m e =>
      (if s then 0x80000000 else 0)
      + (if 2 ^ 23 <=? Zpos m then (e + 150) * 2 ^ 23 + (Zpos m - 2 ^ 23)
         else Zpos m)
  end.

Definition INT32_MIN : Z := - 2 ^ 31.

(** [(int32_t)x]: the integer part of [x], rounded toward zero, when it
    fits an [int32_t].  For every other value (too large, NaN, an
    infinity) C leaves the conversion undefined; the model gives what the
    conversion instruction of an x86-64 build ([cvttss2si]) delivers there,
    [INT32_MIN]. *)
Definition f32_trunc (x : spec_float) : Z :=
  match x with
  | S754_zero _ => 0
  | S754_finite s m e =>
      let magnitude := if 0 <=? e then Zpos m * 2 ^ e else Zpos m / 2 ^ (- e) in
      let z := if s then - magnitude else magnitude in
      if (INT32_MIN <=? z) && (z <? 2 ^ 31) then z else INT32_MIN
  | S754_infinity _ | S754_nan => INT32_MIN
  end.

(** [(uint16_t)x].  C defines the conversion only when the integer part
    lies in 0..65535.  An x86-64 build converts to 32 bits as above and
    keeps the low 16 bits, which is what the model does: [1e10f] gives 0
    and [-1.0f] gives 65535. *)
Definition f32_to_u16 (x : spec_float) : Z := u16 (f32_trunc x).

(** [edgeplug_sensor_data_t]. *)
Record edgeplug_sensor_data_t : Type := {
  voltage : spec_float;
  current : spec_float;
  timestamp : Z;
  quality : Z
}.

(** [edgeplug_actuation_cmd_t]. *)
Record edgeplug_actuation_cmd_t : Type := {
  opcua_node : Z;
  modbus_addr : Z;
  gpio_pin : Z;
  gpio_state : Z;
  value : spec_float
}.

(** The float division operator and [sqrtf] (correctly rounded). *)
Definition f32_div : spec_float -> spec_float -> spec_float := SFdiv 24 128.
Definition f32_sqrt : spec_float -> spec_float := SFsqrt 24 128.

End Runtime.
Export Runtime.

(* ------------------------------------------------------------------ *)
(** ** preprocess.c *)
(* ------------------------------------------------------------------ *)

Module Preprocess.

Definition WINDOW_BUFFER_SIZE : nat := 1024.
Definition MAX_WINDOW_SIZE : Z := 256.

(** The statics of preprocess.c.  [filtered_voltage] is the function-scope
    static of [preprocess_add_sample]; it lives as long as the program and
    no other function can reach it. *)
Record state : Type := {
  window_buffer : list spec_float;
  window_index : Z;
  window_size : Z;
  window_full : bool;
  filter_alpha : spec_float;
  filtered_voltage : spec_float
}.

(** The initializers of the statics. *)
Definition initial_state : state := {|
  window_buffer := replicate WINDOW_BUFFER_SIZE f32_zero;
  window_index := 0;
  window_size := 64;
  window_full := false;
  filter_alpha := f32_0_1;
  filtered_voltage := f32_zero
|}.

Definition preprocess_init (window_sz : Z) (st : state)
  : state * edgeplug_status_t :=
  if (window_sz =? 0) || (MAX_WINDOW_SIZE <? window_sz) then
    (st, EDGEPLUG_ERROR_INVALID_PARAM)
  else
    ({| window_buffer := replicate WINDOW_BUFFER_SIZE f32_zero;
        window_index := 0;
        window_size := window_sz;
        window_full := false;
        filter_alpha := filter_alpha st;
        filtered_voltage := filtered_voltage st |},
     EDGEPLUG_OK).

(** The low-pass step [alpha * v + (1.0f - alpha) * prev]. *)
Definition low_pass (alpha v prev : spec_float) : spec_float :=
  f32_add (f32_mul alpha v) (f32_mul (f32_sub f32_one alpha) prev).

Definition preprocess_add_sample (sensor_data : option edgeplug_sensor_data_t)
    (st : state) : state * edgeplug_status_t :=
  match sensor_data with
  | None => (st, EDGEPLUG_ERROR_INVALID_PARAM)
  | Some s =>
      let filtered := low_pass (filter_alpha st) (voltage s) (filtered_voltage st) in
      let buf := <[Z.to_nat (window_index st) := filtered]> (window_buffer st) in
      let idx := u32 (window_index st + 1) mod window_size st in
      ({| window_buffer := buf;
          window_index := idx;
          window_size := window_size st;
          window_full := if idx =? 0 then true else window_full st;
          filter_alpha := filter_alpha st;
          filtered_voltage := filtered |},
       EDGEPLUG_OK)
  end.

Definition preprocess_set_filter (alpha : spec_float) (st : state)
  : state * edgeplug_status_t :=
  if f32_ltb alpha f32_zero || f32_ltb f32_one alpha then
    (st, EDGEPLUG_ERROR_INVALID_PARAM)
  else
    ({| window_buffer := window_buffer st;
        window_index := window_index st;
        window_size := window_size st;
        window_full := window_full st;
        filter_alpha := alpha;
        filtered_voltage := filtered_voltage st |},
     EDGEPLUG_OK).

Definition preprocess_is_window_ready (st : state) : bool := window_full st.

Definition preprocess_reset (st : state) : state * edgeplug_status_t :=
  ({| window_buffer := replicate WINDOW_BUFFER_SIZE f32_zero;
      window_index := 0;
      window_size := window_size st;
      window_full := false;
      filter_alpha := filter_alpha st;
      filtered_voltage := filtered_voltage st |},
   EDGEPLUG_OK).

(** The window in order: the ring index inside a window of at most
    [MAX_WINDOW_SIZE] cells, and the buffer at its declared length. *)
Definition window_in_order (st : state) : Prop :=
  0 <= window_index st < window_size st /\
  window_size st <= MAX_WINDOW_SIZE /\
  length (window_buffer st) = WINDOW_BUFFER_SIZE.

(** A run of [preprocess_add_sample] calls, one per sample, oldest first. *)
Definition add_samples (samples : list edgeplug_sensor_data_t) (st : state) : state :=
  foldl (fun acc s => fst (preprocess_add_sample (Some s) acc)) st samples.

(** The filter as a recurrence over the voltages alone: the list of values
    the low-pass step produces from a previous output [prev]. *)
Fixpoint low_pass_trace (alpha prev : spec_float) (vs : list spec_float)
  : list spec_float :=
  match vs with
  | [] => []
  | v :: vs' =>
      let f := low_pass alpha v prev in
      f :: low_pass_trace alpha f vs'
  end.

(** [1e-6f]: the binary32 value 0x358637BD = 8796093 * 2^-43. *)
Definition f32_1e_6 : spec_float := S754_finite false 8796093 (-43).

Definition clamp_int8 (scaled : Z) : Z :=
  if 127 <? scaled then 127 else if scaled <? -128 then -128 else scaled.

(** [preprocess_normalize_window].  The two arguments say whether the
    output pointers are non-NULL; the result carries what the call stores
    through them ([*data_size] is the length of the list).  The loops read
    [window_buffer[0 .. window_size)].  [(int32_t)x] is [f32_trunc]; when
    the variance comes out negative, [sqrtf] returns NaN, the comparison
    with [1e-6f] is false, and every output is the clamped [INT32_MIN],
    that is -128. *)
Definition preprocess_normalize_window (normalized_data data_size : bool) (st : state)
  : edgeplug_status_t * option (list Z) :=
  if negb normalized_data || negb data_size || negb (window_full st) then
    (EDGEPLUG_ERROR_INVALID_PARAM, None)
  else
    let window := take (Z.to_nat (window_size st)) (window_buffer st) in
    let sum := foldl f32_add f32_zero window in
    let sum_sq := foldl (fun acc x => f32_add acc (f32_mul x x)) f32_zero window in
    let mean := f32_div sum (f32_of_Z (window_size st)) in
    let variance :=
      f32_sub (f32_div sum_sq (f32_of_Z (window_size st))) (f32_mul mean mean) in
    let std_dev := f32_sqrt variance in
    let std_dev := if f32_ltb std_dev f32_1e_6 then f32_one else std_dev in
    (EDGEPLUG_OK,
     Some (map (fun x =>
                  let normalized := f32_div (f32_sub x mean) std_dev in
                  clamp_int8 (f32_trunc (f32_mul normalized (f32_of_Z 64))))
               window)).

End Preprocess.

(* ------------------------------------------------------------------ *)
(** ** hotswap.c *)
(* ------------------------------------------------------------------ *)

Module Hotswap.

Definition AGENT_SLOT_SIZE : Z := 14 * 1024.
Definition CRC32_POLYNOMIAL : Z := 0x04C11DB7.
(** [sizeof(agent_slot_metadata_t)]: five 32-bit words, 64 and 32 bytes. *)
Definition SIZEOF_METADATA : Z := 5 * 4 + 64 + 32.
(** The largest payload that leaves room for the trailing metadata block. *)
Definition MAX_PAYLOAD : Z := AGENT_SLOT_SIZE - SIZEOF_METADATA.

Record agent_slot_metadata_t : Type := {
  magic : Z;
  version : Z;
  size : Z;
  crc32 : Z;
  timestamp : Z;
  signature : list Z;
  reserved : list Z
}.

Record hotswap_state_t : Type := {
  active_slot : Z;
  update_in_progress : Z;
  update_start_time : Z;
  update_attempts : Z;
  successful_updates : Z;
  failed_updates : Z;
  last_update_timestamp : Z
}.

(** One flash slot: the bytes below the metadata block, by offset from the
    slot's base address, and the metadata block at its trailing edge.  The
    two regions do not overlap: every payload length the code writes or
    checks is at most [MAX_PAYLOAD]. *)
Record slot_t : Type := {
  payload : nat -> Z;
  metadata : agent_slot_metadata_t
}.

(** Everything hotswap.c reads or writes: its statics ([hotswap_state],
    [crc32_table], the [time_counter] inside [get_system_time_ms]) and the
    two flash slots at [AGENT_SLOT_A_ADDR] and [AGENT_SLOT_B_ADDR]. *)
Record world : Type := {
  hotswap_state : hotswap_state_t;
  crc32_table : list Z;
  time_counter : Z;
  slot_a : slot_t;
  slot_b : slot_t
}.

Definition zero_state : hotswap_state_t := {|
  active_slot := 0; update_in_progress := 0; update_start_time := 0;
  update_attempts := 0; successful_updates := 0; failed_updates := 0;
  last_update_timestamp := 0
|}.

(** The program at start-up: zero-initialized statics over whatever the two
    flash slots hold. *)
Definition initial_world (a b : slot_t) : world := {|
  hotswap_state := zero_state;
  crc32_table := replicate 256 0;
  time_counter := 0;
  slot_a := a;
  slot_b := b
|}.

Definition with_state (w : world) (s : hotswap_state_t) : world := {|
  hotswap_state := s; crc32_table := crc32_table w;
  time_counter := time_counter w; slot_a := slot_a w; slot_b := slot_b w
|}.

Definition slot_of (w : world) (slot : Z) : slot_t :=
  if slot =? 0 then slot_a w else slot_b w.

Definition with_slot (w : world) (slot : Z) (s : slot_t) : world := {|
  hotswap_state := hotswap_state w; crc32_table := crc32_table w;
  time_counter := time_counter w;
  slot_a := if slot =? 0 then s else slot_a w;
  slot_b := if slot =? 0 then slot_b w else s
|}.

(** One pass of the inner loop of [init_crc32_table]. *)
Definition crc32_shift (crc : Z) : Z :=
  if Z.odd crc then Z.lxor (Z.shiftr crc 1) CRC32_POLYNOMIAL else Z.shiftr crc 1.

Definition crc32_entry (i : Z) : Z :=
  Nat.iter 8 crc32_shift i.

Definition init_crc32_table : list Z :=
  map (fun i => crc32_entry (Z.of_nat i)) (seq 0 256).

Definition calculate_crc32 (table : list Z) (data : list Z) : Z :=
  Z.lxor
    (foldl (fun crc byte =>
              let table_index := Z.land (Z.lxor crc byte) 0xFF in
              Z.lxor (Z.shiftr crc 8) (nth (Z.to_nat table_index) table 0))
           0xFFFFFFFF data)
    0xFFFFFFFF.

(** The first [n] bytes of a slot, read from its base address. *)
Definition read_payload (s : slot_t) (n : Z) : list Z :=
  map (payload s) (seq 0 (Z.to_nat n)).

(** [memcpy(slot_addr, data, length data)]. *)
Definition write_payload (data : list Z) (old : nat -> Z) : nat -> Z :=
  fun i => match data !! i with Some byte => byte | None => old i end.

(** [memcpy(dst, src, n)] out of a fixed-size array member. *)
Definition copy_bytes (n : nat) (src : list Z) : list Z :=
  map (fun i => nth i src 0) (seq 0 n).

(** [static uint32_t time_counter; return time_counter++;] *)
Definition get_system_time_ms (w : world) : world * Z :=
  ({| hotswap_state := hotswap_state w; crc32_table := crc32_table w;
      time_counter := u32 (time_counter w + 1);
      slot_a := slot_a w; slot_b := slot_b w |},
   time_counter w).

Definition read_slot_metadata (w : world) (slot : Z) : option agent_slot_metadata_t :=
  if 1 <? slot then None else Some (metadata (slot_of w slot)).

Definition write_slot_metadata (w : world) (slot : Z) (md : agent_slot_metadata_t)
  : world * bool :=
  if 1 <? slot then (w, false)
  else (with_slot w slot {| payload := payload (slot_of w slot); metadata := md |},
        true).

Definition get_inactive_slot (w : world) : Z :=
  if active_slot (hotswap_state w) =? 0 then 1 else 0.

(** [hotswap_get_stats] with all four pointers given: successful, failed,
    attempts, time of the last update. *)
Definition hotswap_get_stats (w : world) : Z * Z * Z * Z :=
  (successful_updates (hotswap_state w), failed_updates (hotswap_state w),
   update_attempts (hotswap_state w), last_update_timestamp (hotswap_state w)).

(** The balance of the statistics: every attempt was either successful or
    failed, and the active slot is one of the two slots. *)
Definition counters_balance (s : hotswap_state_t) : Prop :=
  update_attempts s = u32 (successful_updates s + failed_updates s) /\
  (active_slot s = 0 \/ active_slot s = 1).

(** [hotswap_get_slot_info]; [metadata_out] says whether the output pointer
    is non-NULL, the second component is what is stored through it. *)
Definition hotswap_get_slot_info (w : world) (slot : Z) (metadata_out : bool)
  : edgeplug_status_t * option agent_slot_metadata_t :=
  if (1 <? slot) || negb metadata_out then (EDGEPLUG_ERROR_INVALID_PARAM, None)
  else
    match read_slot_metadata w slot with
    | None => (EDGEPLUG_ERROR_HOTSWAP, None)
    | Some md => (EDGEPLUG_OK, Some md)
    end.

Section WithMagic.

(** The slot magic.  The source spells it [0xEDGEPLUG], which is not a C
    integer constant; the same token is written by [write_agent_to_slot]
    and compared by [validate_agent_slot], so it is kept as one 32-bit
    parameter of the model. *)
Variable SLOT_MAGIC : Z.

Definition validate_agent_slot (w : world) (slot : Z) : bool :=
  match read_slot_metadata w slot with
  | None => false
  | Some md =>
      if negb (magic md =? SLOT_MAGIC) then false
      else if MAX_PAYLOAD <? size md then false
      else
        let calculated_crc :=
          calculate_crc32 (crc32_table w) (read_payload (slot_of w slot) (size md)) in
        if negb (calculated_crc =? crc32 md) then false else true
  end.

Definition hotswap_init (w : world) : world * edgeplug_status_t :=
  let w0 := {| hotswap_state := zero_state; crc32_table := init_crc32_table;
               time_counter := time_counter w;
               slot_a := slot_a w; slot_b := slot_b w |} in
  let slot_a_valid := validate_agent_slot w0 0 in
  let slot_b_valid := validate_agent_slot w0 1 in
  let activate (slot : Z) :=
    with_state w0 {| active_slot := slot; update_in_progress := 0;
                     update_start_time := 0; update_attempts := 0;
                     successful_updates := 0; failed_updates := 0;
                     last_update_timestamp := 0 |} in
  if slot_a_valid && slot_b_valid then
    let metadata_a := metadata (slot_a w0) in
    let metadata_b := metadata (slot_b w0) in
    (activate (if timestamp metadata_b <? timestamp metadata_a then 0 else 1),
     EDGEPLUG_OK)
  else if slot_a_valid then (activate 0, EDGEPLUG_OK)
  else if slot_b_valid then (activate 1, EDGEPLUG_OK)
  else (w0, EDGEPLUG_ERROR_HOTSWAP).

(** The pointer and size handed out by [hotswap_get_active_agent]: the
    active slot's number (standing for its base address) and the [size]
    field of its metadata; [None] is the NULL return. *)
Definition hotswap_get_active_agent (w : world) : option (Z * Z) :=
  match read_slot_metadata w (active_slot (hotswap_state w)) with
  | None => None
  | Some md =>
      Some (if active_slot (hotswap_state w) =? 0 then 0 else 1, size md)
  end.

(** The bytes a caller reads through that pointer and size. *)
Definition active_payload (w : world) : option (list Z) :=
  match hotswap_get_active_agent w with
  | None => None
  | Some (slot, n) => Some (read_payload (slot_of w slot) n)
  end.

(** The manifest parameter is declared [const manifest_t*] here and in
    hotswap.h; the only manifest type of the runtime is
    [edgeplug_manifest_t], whose [version] and [signature] are read. *)
Definition write_agent_to_slot (w : world) (slot : Z)
    (agent_data : option (list Z)) (manifest : option edgeplug_manifest_t)
  : world * edgeplug_status_t :=
  match agent_data, manifest with
  | Some data, Some m =>
      if 1 <? slot then (w, EDGEPLUG_ERROR_INVALID_PARAM)
      else
        let agent_size := Z.of_nat (length data) in
        if MAX_PAYLOAD <? agent_size then (w, EDGEPLUG_ERROR_MEMORY)
        else
          let w1 := with_slot w slot
                      {| payload := write_payload data (payload (slot_of w slot));
                         metadata := metadata (slot_of w slot) |} in
          let crc := calculate_crc32 (crc32_table w1) data in
          let '(w2, now) := get_system_time_ms w1 in
          let md := {| magic := SLOT_MAGIC;
                       version := Runtime.version m;
                       size := agent_size;
                       crc32 := crc;
                       timestamp := now;
                       signature := copy_bytes 64 (Runtime.signature m);
                       reserved := replicate 32 0 |} in
          let '(w3, ok) := write_slot_metadata w2 slot md in
          if ok then (w3, EDGEPLUG_OK) else (w3, EDGEPLUG_ERROR_HOTSWAP)
  | _, _ => (w, EDGEPLUG_ERROR_INVALID_PARAM)
  end.

Definition set_progress (s : hotswap_state_t) (flag start attempts : Z)
  : hotswap_state_t := {|
  active_slot := active_slot s; update_in_progress := flag;
  update_start_time := start; update_attempts := attempts;
  successful_updates := successful_updates s;
  failed_updates := failed_updates s;
  last_update_timestamp := last_update_timestamp s
|}.

(** [update_in_progress = 0; failed_updates++;] *)
Definition fail_update (s : hotswap_state_t) : hotswap_state_t := {|
  active_slot := active_slot s; update_in_progress := 0;
  update_start_time := update_start_time s;
  update_attempts := update_attempts s;
  successful_updates := successful_updates s;
  failed_updates := u32 (failed_updates s + 1);
  last_update_timestamp := last_update_timestamp s
|}.

Definition set_active (s : hotswap_state_t) (slot : Z) : hotswap_state_t := {|
  active_slot := slot; update_in_progress := update_in_progress s;
  update_start_time := update_start_time s;
  update_attempts := update_attempts s;
  successful_updates := successful_updates s;
  failed_updates := failed_updates s;
  last_update_timestamp := last_update_timestamp s
|}.

Definition hotswap_update_agent (w : world)
    (new_agent_data : option (list Z)) (new_manifest : option edgeplug_manifest_t)
  : world * edgeplug_status_t :=
  match new_agent_data, new_manifest with
  | Some _, Some _ =>
      if negb (update_in_progress (hotswap_state w) =? 0) then
        (w, EDGEPLUG_ERROR_HOTSWAP)
      else
        let '(w1, start) := get_system_time_ms w in
        let w2 := with_state w1
                    (set_progress (hotswap_state w1) 1 start
                       (u32 (update_attempts (hotswap_state w1) + 1))) in
        let inactive_slot := get_inactive_slot w2 in
        let '(w3, status) :=
          write_agent_to_slot w2 inactive_slot new_agent_data new_manifest in
        if negb (status_eqb status EDGEPLUG_OK) then
          (with_state w3 (fail_update (hotswap_state w3)), status)
        else if negb (validate_agent_slot w3 inactive_slot) then
          (with_state w3 (fail_update (hotswap_state w3)), EDGEPLUG_ERROR_HOTSWAP)
        else
          let s3 := hotswap_state w3 in
          let w4 := with_state w3
                      {| active_slot := inactive_slot;
                         update_in_progress := 0;
                         update_start_time := update_start_time s3;
                         update_attempts := update_attempts s3;
                         successful_updates := u32 (successful_updates s3 + 1);
                         failed_updates := failed_updates s3;
                         last_update_timestamp := last_update_timestamp s3 |} in
          let '(w5, now) := get_system_time_ms w4 in
          let s5 := hotswap_state w5 in
          (with_state w5
             {| active_slot := active_slot s5;
                update_in_progress := update_in_progress s5;
                update_start_time := update_start_time s5;
                update_attempts := update_attempts s5;
                successful_updates := successful_updates s5;
                failed_updates := failed_updates s5;
                last_update_timestamp := now |},
           EDGEPLUG_OK)
  | _, _ => (w, EDGEPLUG_ERROR_INVALID_PARAM)
  end.

Definition hotswap_rollback (w : world) : world * edgeplug_status_t :=
  let previous_slot := get_inactive_slot w in
  if negb (validate_agent_slot w previous_slot) then (w, EDGEPLUG_ERROR_HOTSWAP)
  else (with_state w (set_active (hotswap_state w) previous_slot), EDGEPLUG_OK).

Definition hotswap_watchdog_check (w : world) : world :=
  if negb (update_in_progress (hotswap_state w) =? 0) then
    let '(w1, current_time) := get_system_time_ms w in
    let update_duration := u32 (current_time - update_start_time (hotswap_state w1)) in
    if 30000 <? update_duration then
      let w2 := fst (hotswap_rollback w1) in
      with_state w2 (fail_update (hotswap_state w2))
    else w1
  else w.

Definition hotswap_is_update_in_progress (w : world) : bool :=
  negb (update_in_progress (hotswap_state w) =? 0).

Definition hotswap_get_active_slot (w : world) : Z :=
  active_slot (hotswap_state w).

Definition hotswap_is_slot_valid (w : world) (slot : Z) : bool :=
  if 1 <? slot then false else validate_agent_slot w slot.

(** [memset(slot_addr, 0xFF, AGENT_SLOT_SIZE)]: payload and metadata block. *)
Definition hotswap_clear_slot (w : world) (slot : Z) : world * edgeplug_status_t :=
  if 1 <? slot then (w, EDGEPLUG_ERROR_INVALID_PARAM)
  else
    (with_slot w slot
       {| payload := fun _ => 0xFF;
          metadata := {| magic := 0xFFFFFFFF; version := 0xFFFFFFFF;
                         size := 0xFFFFFFFF; crc32 := 0xFFFFFFFF;
                         timestamp := 0xFFFFFFFF;
                         signature := replicate 64 0xFF;
                         reserved := replicate 32 0xFF |} |},
     EDGEPLUG_OK).

Definition hotswap_validate_slots (w : world) : edgeplug_status_t :=
  let slot_a_valid := validate_agent_slot w 0 in
  let slot_b_valid := validate_agent_slot w 1 in
  if negb slot_a_valid && negb slot_b_valid then EDGEPLUG_ERROR_HOTSWAP
  else EDGEPLUG_OK.

(** The public operations that change state, as one step function. *)
Inductive operation : Type :=
| OpInit
| OpUpdate (new_agent_data : option (list Z)) (new_manifest : option edgeplug_manifest_t)
| OpRollback
| OpWatchdog
| OpClearSlot (slot : Z).

Definition step (w : world) (op : operation) : world :=
  match op with
  | OpInit => fst (hotswap_init w)
  | OpUpdate d m => fst (hotswap_update_agent w d m)
  | OpRollback => fst (hotswap_rollback w)
  | OpWatchdog => hotswap_watchdog_check w
  | OpClearSlot slot => fst (hotswap_clear_slot w slot)
  end.

Definition run (w : world) (ops : list operation) : world := foldl step w ops.

End WithMagic.

(** *** Concrete flash images used by the examples *)

(** A stand-in for the slot magic in closed examples; none of them depends
    on the value chosen. *)
Definition example_magic : Z := 0xED6E9106.

Definition image_v1 : list Z := [0x90; 0x91; 0x92; 0x93].
Definition image_v2 : list Z := [0xb0; 0xb1; 0xb2; 0xb3].

(** A slot as [write_agent_to_slot] leaves it, stamped with [stamp]. *)
Definition programmed_slot (image : list Z) (ver stamp : Z) : slot_t := {|
  payload := write_payload image (fun _ => 0xFF);
  metadata := {| magic := example_magic;
                 version := ver;
                 size := Z.of_nat (length image);
                 crc32 := calculate_crc32 init_crc32_table image;
                 timestamp := stamp;
                 signature := replicate 64 0x11;
                 reserved := replicate 32 0 |}
|}.

(** Both slots hold a valid image, written at the same millisecond count of
    two different boots. *)
Definition tie_world : world :=
  initial_world (programmed_slot image_v1 1 5) (programmed_slot image_v2 2 5).

(** Slot A active, an update started at t = 10 ms that never finished, and
    the clock 31001 ms later; slot B holds a valid image. *)
Definition stalled_world : world := {|
  hotswap_state := {| active_slot := 0; update_in_progress := 1;
                      update_start_time := 10; update_attempts := 1;
                      successful_updates := 0; failed_updates := 0;
                      last_update_timestamp := 0 |};
  crc32_table := init_crc32_table;
  time_counter := 31011;
  slot_a := programmed_slot image_v1 1 5;
  slot_b := programmed_slot image_v2 2 7
|}.

End Hotswap.

(* ------------------------------------------------------------------ *)
(** ** agent_loader.c *)
(* ------------------------------------------------------------------ *)

Module AgentLoader.

Definition AGENT_SLOT_SIZE : Z := 14 * 1024.
Definition MAX_AGENT_SIZE : Z := 14 * 1024.

(** The statics of agent_loader.c.  A slot array is its bytes by index. *)
Record state : Type := {
  agent_slot_a : nat -> Z;
  agent_slot_b : nat -> Z;
  slot_a_active : bool;
  current_manifest : edgeplug_manifest_t
}.

Definition zero_manifest : edgeplug_manifest_t := {|
  version := 0; agent_id := 0; flash_size := 0; sram_size := 0;
  signature := replicate 64 0; hash := replicate 64 0
|}.

Definition initial_state : state := {|
  agent_slot_a := fun _ => 0;
  agent_slot_b := fun _ => 0;
  slot_a_active := true;
  current_manifest := zero_manifest
|}.

(** *** The envelope parser *)

Record cbor_parser_t : Type := {
  data : list Z;
  size : Z;
  offset : Z
}.

Definition cbor_parser_init (bytes : list Z) : cbor_parser_t :=
  {| data := bytes; size := Z.of_nat (length bytes); offset := 0 |}.

(** [parser->data[i]], a [uint8_t]. *)
Definition byte_at (p : cbor_parser_t) (i : Z) : Z :=
  u8 (nth (Z.to_nat i) (data p) 0).

(** [parser.offset += 1], [+= 2] and [+= 4] inside the header parser.  Each
    of them stands behind a test that the bytes in question lie inside the
    buffer, so the sum stays at or below [size]; it cannot wrap for any
    buffer the loader admits (at most [MAX_AGENT_SIZE] bytes). *)
Definition advance (p : cbor_parser_t) (n : Z) : cbor_parser_t :=
  {| data := data p; size := size p; offset := offset p + n |}.

Definition cbor_read_byte (p : cbor_parser_t) : option (cbor_parser_t * Z) :=
  if size p <=? offset p then None
  else Some (advance p 1, byte_at p (offset p)).

(** On success: the parser after the header, the major type, the value. *)
Definition cbor_parse_header (p : cbor_parser_t) : option (cbor_parser_t * Z * Z) :=
  match cbor_read_byte p with
  | None => None
  | Some (p1, byte) =>
      let major_type := Z.land (Z.shiftr byte 5) 0x07 in
      let additional_info := Z.land byte 0x1F in
      if additional_info <=? 0x17 then Some (p1, major_type, additional_info)
      else if additional_info =? 0x18 then
        match cbor_read_byte p1 with
        | None => None
        | Some (p2, b) => Some (p2, major_type, b)
        end
      else if additional_info =? 0x19 then
        if size p1 <=? offset p1 + 1 then None
        else Some (advance p1 2, major_type,
                   Z.lor (Z.shiftl (byte_at p1 (offset p1)) 8)
                         (byte_at p1 (offset p1 + 1)))
      else if additional_info =? 0x1A then
        if size p1 <=? offset p1 + 3 then None
        else Some (advance p1 4, major_type,
                   Z.lor (Z.lor (Z.lor (Z.shiftl (byte_at p1 (offset p1)) 24)
                                       (Z.shiftl (byte_at p1 (offset p1 + 1)) 16))
                                (Z.shiftl (byte_at p1 (offset p1 + 2)) 8))
                         (byte_at p1 (offset p1 + 3)))
      else None
  end.

(** How the component loop of [agent_loader_load] ends: it falls through
    with the three [found_*] flags, or it returns the load error. *)
Inductive loop_result : Type :=
| LoopDone (found_model found_preprocessing found_actuation : bool)
| LoopError.

(** The variables of the component loop: the parser, the counter [i], the
    bound [value] and the three flags. *)
Record loop_state : Type := {
  loop_parser : cbor_parser_t;
  loop_i : Z;
  loop_value : Z;
  found_model : bool;
  found_preprocessing : bool;
  found_actuation : bool
}.

Section WithSizeT.

(** The width of [size_t] in bits: 32 on the Cortex-M4 target, 64 on a
    host build. *)
Variable size_bits : Z.

(** [parser.offset += value] at lines 386 and 394, where nothing is tested.
    [offset] is a [size_t] and [value] a [uint64_t] below 2^32.  With a
    [size_t] of 32 bits the sum is reduced modulo 2^32, so a length close
    to 2^32 moves the offset BACK into the buffer; with 64 bits the sum
    cannot wrap, and an offset past the end makes the next read fail. *)
Definition skip (p : cbor_parser_t) (n : Z) : cbor_parser_t :=
  {| data := data p; size := size p; offset := (offset p + n) mod 2 ^ size_bits |}.

(** One pass of [for (uint64_t i = 0; i < value; i++) { ... }]: the test,
    and where it holds the body and [i++].  The loop bound [value] is the
    same variable the two header parses inside the body overwrite, so each
    test [i < value] uses the length of the value parsed last.  The key
    bytes are skipped, never compared, and all three flags are set by every
    pass.  The result is the state for the next pass, or the way the loop
    ends. *)
Definition component_pass (s : loop_state) : loop_state + loop_result :=
  if loop_value s <=? loop_i s then
    inr (LoopDone (found_model s) (found_preprocessing s) (found_actuation s))
  else
    match cbor_parse_header (loop_parser s) with
    | None => inr LoopError
    | Some (p1, major_type, key_len) =>
        if negb (major_type =? 3) then inr LoopError
        else
          match cbor_parse_header (skip p1 key_len) with
          | None => inr LoopError
          | Some (p2, _, value_len) =>
              inl {| loop_parser := skip p2 value_len;
                     loop_i := u64 (loop_i s + 1);
                     loop_value := value_len;
                     found_model := true;
                     found_preprocessing := true;
                     found_actuation := true |}
          end
    end.

(** Up to [2 ^ depth] passes: the first [2 ^ depth'] and, unless the loop
    ended among them, as many again. *)
Fixpoint component_passes (depth : nat) (s : loop_state) : loop_state + loop_result :=
  match depth with
  | O => component_pass s
  | S depth' =>
      match component_passes depth' s with
      | inl s' => component_passes depth' s'
      | inr r => inr r
      end
  end.

(** The whole loop, entered behind the map header with [value] pairs
    announced.  The counter rises by one per pass and every bound it is
    compared with is a parsed length, hence below 2^32: the loop makes at
    most 2^32 passes, and the 2^33 of the model are never used up
    ([parse_components_ends]). *)
Definition parse_components (p : cbor_parser_t) (value : Z) : loop_state + loop_result :=
  component_passes 33 {| loop_parser := p; loop_i := 0; loop_value := value;
                         found_model := false; found_preprocessing := false;
                         found_actuation := false |}.

(** Lines 354-404 of [agent_loader_load]: the status with which the
    envelope section ends, [EDGEPLUG_OK] standing for falling through to
    the slot copy. *)
Definition parse_envelope_at (bytes : list Z) : edgeplug_status_t :=
  match cbor_parse_header (cbor_parser_init bytes) with
  | None => EDGEPLUG_ERROR_AGENT_LOAD
  | Some (p, major_type, value) =>
      if negb (major_type =? 5) then EDGEPLUG_ERROR_AGENT_LOAD
      else
        match parse_components p value with
        | inr (LoopDone found_model found_preprocessing found_actuation) =>
            if negb found_model || negb found_preprocessing || negb found_actuation
            then EDGEPLUG_ERROR_AGENT_LOAD
            else EDGEPLUG_OK
        | inr LoopError => EDGEPLUG_ERROR_AGENT_LOAD
        | inl _ => EDGEPLUG_ERROR_AGENT_LOAD
        end
  end.

End WithSizeT.

(** The envelope section on the target, where a [size_t] has 32 bits. *)
Definition SIZE_BITS : Z := 32.

Definition parse_envelope (bytes : list Z) : edgeplug_status_t :=
  parse_envelope_at SIZE_BITS bytes.

(** *** Manifest checks *)

(** [calculate_hash] as defined at lines 316-323, the definition in force
    where [agent_loader_load] calls it: 64 zero bytes, the first
    [min(data_size, 64)] of them replaced by [data[i] ^ 0xAA]. *)
Definition calculate_hash (bytes : list Z) : list Z :=
  map (fun i => match bytes !! i with
                | Some b => Z.lxor (u8 b) 0xAA
                | None => 0
                end)
      (seq 0 64).

(** [memcmp(a, b, n) == 0] on two arrays of at least [n] bytes. *)
Definition memcmp_eq (a b : list Z) (n : nat) : bool :=
  forallb (fun i => u8 (nth i a 0) =? u8 (nth i b 0)) (seq 0 n).

(** [for (i = 0; i < 32; i++) { if (x[i] != 0) break; if (i == 31) valid = false; }]
    leaves [valid] true exactly when one of the 32 bytes is non-zero. *)
Definition some_byte_nonzero (x : list Z) : bool :=
  existsb (fun i => negb (u8 (nth i x 0) =? 0)) (seq 0 32).

(** [verify_signature].  The digest and the challenge the body computes are
    never used in the result, which is [valid_structure]: neither half of
    the signature is all zero.  A NULL argument ends the call first. *)
Definition verify_signature (bytes : option (list Z)) (sig : option (list Z))
    (public_key : option (list Z)) : bool :=
  match bytes, sig, public_key with
  | Some _, Some sg, Some _ =>
      let r := take 32 sg in
      let s := take 32 (drop 32 sg) in
      some_byte_nonzero s && some_byte_nonzero r
  | _, _, _ => false
  end.

(** *** Loading and switching *)

(** [memcpy(slot, data, length data)]. *)
Definition copy_into (bytes : list Z) (slot : nat -> Z) : nat -> Z :=
  fun i => match bytes !! i with Some b => b | None => slot i end.

(** Lines 406-411: the image goes into the slot that is active NOW, and the
    manifest is replaced. *)
Definition store_agent (st : state) (bytes : list Z) (m : edgeplug_manifest_t)
  : state := {|
  agent_slot_a := if slot_a_active st then copy_into bytes (agent_slot_a st)
                  else agent_slot_a st;
  agent_slot_b := if slot_a_active st then agent_slot_b st
                  else copy_into bytes (agent_slot_b st);
  slot_a_active := slot_a_active st;
  current_manifest := m
|}.

Definition agent_loader_load (st : state) (cbor_data : option (list Z))
    (manifest : option edgeplug_manifest_t) : state * edgeplug_status_t :=
  match cbor_data, manifest with
  | Some bytes, Some m =>
      let data_size := Z.of_nat (length bytes) in
      if data_size =? 0 then (st, EDGEPLUG_ERROR_INVALID_PARAM)
      else if MAX_AGENT_SIZE <? data_size then (st, EDGEPLUG_ERROR_MEMORY)
      else if MAX_AGENT_SIZE <? flash_size m then (st, EDGEPLUG_ERROR_INVALID_PARAM)
      else if negb (memcmp_eq (calculate_hash bytes) (hash m) 64) then
        (st, EDGEPLUG_ERROR_AGENT_LOAD)
      else if negb (verify_signature (Some bytes) (Some (signature m)) None) then
        (st, EDGEPLUG_ERROR_AGENT_LOAD)
      else
        match parse_envelope bytes with
        | EDGEPLUG_OK => (store_agent st bytes m, EDGEPLUG_OK)
        | error => (st, error)
        end
  | _, _ => (st, EDGEPLUG_ERROR_INVALID_PARAM)
  end.

Definition switch_slot (st : state) : state := {|
  agent_slot_a := agent_slot_a st;
  agent_slot_b := agent_slot_b st;
  slot_a_active := negb (slot_a_active st);
  current_manifest := current_manifest st
|}.

Definition agent_loader_hotswap (st : state) (new_agent_cbor : option (list Z))
    (new_manifest : option edgeplug_manifest_t) : state * edgeplug_status_t :=
  let '(st1, status) := agent_loader_load st new_agent_cbor new_manifest in
  if negb (status_eqb status EDGEPLUG_OK) then (st1, status)
  else (switch_slot st1, EDGEPLUG_OK).

(** The pointer and [*size] of [agent_loader_get_active_agent]: which array
    is returned ([true] for [agent_slot_a]) and [current_manifest.flash_size]. *)
Definition agent_loader_get_active_agent (st : state) : bool * Z :=
  (slot_a_active st, flash_size (current_manifest st)).

(** The bytes a caller reads through that pointer and size. *)
Definition active_payload (st : state) : list Z :=
  let '(is_a, n) := agent_loader_get_active_agent st in
  map (if is_a then agent_slot_a st else agent_slot_b st) (seq 0 (Z.to_nat n)).

Definition agent_loader_get_manifest (st : state) : edgeplug_manifest_t :=
  current_manifest st.

(** Reference reading of an envelope (specification 4.2), independent of
    the loop above: the keys of a definite-length map of [entries] pairs,
    each a text-string key followed by one string value.  Offsets are
    plain integers here: a length that leads past the end of the buffer
    ends the reading. *)
Fixpoint map_keys (entries : nat) (p : cbor_parser_t) : option (list (list Z)) :=
  match entries with
  | O => Some []
  | S n =>
      match cbor_parse_header p with
      | Some (p1, 3, key_len) =>
          let key := take (Z.to_nat key_len) (drop (Z.to_nat (offset p1)) (data p1)) in
          match cbor_parse_header (advance p1 key_len) with
          | Some (p2, _, value_len) =>
              option_map (cons key) (map_keys n (advance p2 value_len))
          | None => None
          end
      | _ => None
      end
  end.

Definition envelope_keys (bytes : list Z) : option (list (list Z)) :=
  match cbor_parse_header (cbor_parser_init bytes) with
  | Some (p, 5, n) => map_keys (Z.to_nat n) p
  | _ => None
  end.

(** *** Concrete inputs used by the examples *)

Definition key_model : list Z := [0x6D; 0x6F; 0x64; 0x65; 0x6C].
Definition key_prep : list Z := [0x70; 0x72; 0x65; 0x70].
Definition key_act : list Z := [0x61; 0x63; 0x74].

(** A well-formed envelope with the single key "x": map(1), text(1) 'x',
    bytes(0). *)
Definition envelope_x : list Z := [0xA1; 0x61; 0x78; 0x40].

(** The complete envelope: map(3) with "model", "prep", "act", each mapped
    to an empty byte string. *)
Definition envelope_full : list Z :=
  [0xA3; 0x65; 0x6D; 0x6F; 0x64; 0x65; 0x6C; 0x40;
         0x64; 0x70; 0x72; 0x65; 0x70; 0x40;
         0x63; 0x61; 0x63; 0x74; 0x40].

(** The same three keys, each mapped to a four-byte string. *)
Definition envelope_full4 : list Z :=
  [0xA3; 0x65; 0x6D; 0x6F; 0x64; 0x65; 0x6C; 0x44; 1; 2; 3; 4;
         0x64; 0x70; 0x72; 0x65; 0x70; 0x44; 5; 6; 7; 8;
         0x63; 0x61; 0x63; 0x74; 0x44; 9; 10; 11; 12].

(** A map of one pair whose key announces a length of 2^32 - 5 bytes:
    map(1), text with a four-byte length 0xFFFFFFFB.  Six bytes in all. *)
Definition envelope_wrap : list Z := [0xA1; 0x7A; 0xFF; 0xFF; 0xFF; 0xFB].

(** The loop state in which the component loop turns on [envelope_wrap]:
    the parser back at offset 1, the bound 0xFFFFFFFB, the counter [k]. *)
Definition wrap_state (k : Z) : loop_state :=
  {| loop_parser := advance (cbor_parser_init envelope_wrap) 1;
     loop_i := k; loop_value := 0xFFFFFFFB;
     found_model := true; found_preprocessing := true; found_actuation := true |}.

Definition manifest_for (bytes digest : list Z) : edgeplug_manifest_t := {|
  version := 1; agent_id := 0x12345678;
  flash_size := Z.of_nat (length bytes); sram_size := 4;
  signature := replicate 64 0x11;
  hash := digest
|}.

End AgentLoader.

(* ------------------------------------------------------------------ *)
(** ** actuator.c *)
(* ------------------------------------------------------------------ *)

Module Actuator.

Definition MAX_OPCUA_NODES : Z := 16.
Definition MAX_MODBUS_REGS : Z := 32.
Definition MAX_GPIO_PINS : Z := 8.

Record opcua_config_t : Type := {
  node_ids : list Z;
  values : list spec_float;
  node_count : Z;
  opcua_connected : bool
}.

Record modbus_config_t : Type := {
  register_addresses : list Z;
  register_values : list Z;
  register_count : Z;
  modbus_connected : bool;
  slave_id : Z
}.

Record gpio_config_t : Type := {
  pin_numbers : list Z;
  pin_states : list Z;
  pin_count : Z;
  initialized : bool
}.

(** What leaves the dispatcher.  The source builds each request in a local
    buffer and marks the place where a transport would send it; the model
    records that point in a trace, so that "a write is performed" is a
    statement about the trace. *)
Inductive transfer : Type :=
| OpcuaWrite (request : list Z)
| ModbusWrite (frame : list Z)
| GpioWrite (pin pin_state : Z).

(** The statics of actuator.c, the number of timer reads made so far, and
    the trace of transfers. *)
Record state : Type := {
  opcua_config : opcua_config_t;
  modbus_config : modbus_config_t;
  gpio_config : gpio_config_t;
  actuation_count : Z;
  total_actuation_time : Z;
  max_actuation_time : Z;
  timer_reads : nat;
  sent : list transfer
}.

Definition initial_state : state := {|
  opcua_config := {| node_ids := replicate 16 0; values := replicate 16 f32_zero;
                     node_count := 0; opcua_connected := false |};
  modbus_config := {| register_addresses := replicate 32 0;
                      register_values := replicate 32 0;
                      register_count := 0; modbus_connected := false;
                      slave_id := 0 |};
  gpio_config := {| pin_numbers := replicate 8 0; pin_states := replicate 8 0;
                    pin_count := 0; initialized := false |};
  actuation_count := 0;
  total_actuation_time := 0;
  max_actuation_time := 0;
  timer_reads := 0;
  sent := []
|}.

Definition actuator_init (st : state) : state * edgeplug_status_t :=
  ({| opcua_config := {| node_ids := replicate 16 0;
                         values := replicate 16 f32_zero;
                         node_count := 0; opcua_connected := false |};
      modbus_config := {| register_addresses := replicate 32 0;
                          register_values := replicate 32 0;
                          register_count := 0; modbus_connected := false;
                          slave_id := 1 |};
      gpio_config := {| pin_numbers := replicate 8 0; pin_states := replicate 8 0;
                        pin_count := 0; initialized := true |};
      actuation_count := 0;
      total_actuation_time := 0;
      max_actuation_time := 0;
      timer_reads := timer_reads st;
      sent := sent st |},
   EDGEPLUG_OK).

(** The index at which the "find" loop stops: the first [i < count] with
    [keys[i] == key]. *)
Definition find_entry (keys : list Z) (count key : Z) : option nat :=
  fst <$> list_find (fun k => k = key) (take (Z.to_nat count) keys).

(** The "find or add" block shared by the three writers: the updated key
    and value tables and the updated count. *)
Definition find_or_add {A : Type} (keys : list Z) (vals : list A) (count limit : Z)
    (key : Z) (val : A) : list Z * list A * Z :=
  match find_entry keys count key with
  | Some i => (keys, <[i := val]> vals, count)
  | None =>
      if count <? limit then
        (<[Z.to_nat count := key]> keys, <[Z.to_nat count := val]> vals,
         u8 (count + 1))
      else (keys, vals, count)
  end.

(** The OPC-UA write request assembled in [request_buffer]; the float is
    copied byte by byte from memory (little-endian). *)
Definition opcua_request (node_id : Z) (val : spec_float) : list Z :=
  [0x48; 0x45; 0x4C; 0x4C; 0x4F; 0x57;
   0x01; 0x00; 0x00; 0x00; 0x00;
   0x01; 0x02;
   Z.land (Z.shiftr node_id 8) 0xFF; Z.land node_id 0xFF;
   0x0D; 0x01]
  ++ map (fun i => Z.land (Z.shiftr (f32_bits val) (8 * Z.of_nat i)) 0xFF) (seq 0 4).

(** The CRC-16 loop of [actuator_write_modbus]. *)
Definition crc16_shift (crc : Z) : Z :=
  if Z.odd crc then Z.lxor (Z.shiftr crc 1) 0xA001 else Z.shiftr crc 1.

Definition crc16 (bytes : list Z) : Z :=
  foldl (fun crc b => Nat.iter 8 crc16_shift (Z.lxor crc b)) 0xFFFF bytes.

Definition modbus_frame (slave address val : Z) : list Z :=
  let body := [slave; 0x06;
               Z.land (Z.shiftr address 8) 0xFF; Z.land address 0xFF;
               Z.land (Z.shiftr val 8) 0xFF; Z.land val 0xFF] in
  let crc := crc16 body in
  body ++ [Z.land crc 0xFF; Z.land (Z.shiftr crc 8) 0xFF].

Section WithTimer.

(** The platform timer: [timer n] is what the [n]-th call of
    [get_system_time_ms] since program start returns.  The function reads a
    hardware counter chosen by preprocessor conditionals (SysTick, DWT,
    TIM2, PIT); without any of them it returns a software counter that
    advances by one per call ([software_timer]). *)
Variable timer : nat -> Z.

Definition get_system_time_ms (st : state) : state * Z :=
  ({| opcua_config := opcua_config st; modbus_config := modbus_config st;
      gpio_config := gpio_config st; actuation_count := actuation_count st;
      total_actuation_time := total_actuation_time st;
      max_actuation_time := max_actuation_time st;
      timer_reads := S (timer_reads st); sent := sent st |},
   u32 (timer (timer_reads st))).

(** The tail shared by the three writers: read the end time, update the
    statistics, and test the 10 ms budget. *)
Definition finish_timing (st : state) (start_time : Z) : state * edgeplug_status_t :=
  let '(st1, end_time) := get_system_time_ms st in
  let actuation_time := u32 (end_time - start_time) in
  let st2 := {| opcua_config := opcua_config st1;
                modbus_config := modbus_config st1;
                gpio_config := gpio_config st1;
                actuation_count := u32 (actuation_count st1 + 1);
                total_actuation_time := u32 (total_actuation_time st1 + actuation_time);
                max_actuation_time :=
                  if max_actuation_time st1 <? actuation_time then actuation_time
                  else max_actuation_time st1;
                timer_reads := timer_reads st1;
                sent := sent st1 |} in
  if 10 <? actuation_time then (st2, EDGEPLUG_ERROR_ACTUATION)
  else (st2, EDGEPLUG_OK).

Definition actuator_write_opcua (node_id : Z) (val : spec_float) (st : state)
  : state * edgeplug_status_t :=
  if node_id =? 0 then (st, EDGEPLUG_ERROR_INVALID_PARAM)
  else
    let '(st1, start_time) := get_system_time_ms st in
    let c := opcua_config st1 in
    let '(ids, vals, count) :=
      find_or_add (node_ids c) (values c) (node_count c) MAX_OPCUA_NODES node_id val in
    let st2 := {| opcua_config := {| node_ids := ids; values := vals;
                                     node_count := count;
                                     opcua_connected := true |};
                  modbus_config := modbus_config st1;
                  gpio_config := gpio_config st1;
                  actuation_count := actuation_count st1;
                  total_actuation_time := total_actuation_time st1;
                  max_actuation_time := max_actuation_time st1;
                  timer_reads := timer_reads st1;
                  sent := sent st1 ++ [OpcuaWrite (opcua_request node_id val)] |} in
    finish_timing st2 start_time.

Definition actuator_write_modbus (address val : Z) (st : state)
  : state * edgeplug_status_t :=
  if address =? 0 then (st, EDGEPLUG_ERROR_INVALID_PARAM)
  else
    let '(st1, start_time) := get_system_time_ms st in
    let c := modbus_config st1 in
    let '(addrs, vals, count) :=
      find_or_add (register_addresses c) (register_values c) (register_count c)
                  MAX_MODBUS_REGS address val in
    let st2 := {| opcua_config := opcua_config st1;
                  modbus_config := {| register_addresses := addrs;
                                      register_values := vals;
                                      register_count := count;
                                      modbus_connected := true;
                                      slave_id := slave_id c |};
                  gpio_config := gpio_config st1;
                  actuation_count := actuation_count st1;
                  total_actuation_time := total_actuation_time st1;
                  max_actuation_time := max_actuation_time st1;
                  timer_reads := timer_reads st1;
                  sent := sent st1
                          ++ [ModbusWrite (modbus_frame (slave_id c) address val)] |} in
    finish_timing st2 start_time.

Definition actuator_write_gpio (pin pin_state : Z) (st : state)
  : state * edgeplug_status_t :=
  if (MAX_GPIO_PINS <=? pin) || (1 <? pin_state) then
    (st, EDGEPLUG_ERROR_INVALID_PARAM)
  else if negb (initialized (gpio_config st)) then (st, EDGEPLUG_ERROR_ACTUATION)
  else
    let '(st1, start_time) := get_system_time_ms st in
    let c := gpio_config st1 in
    let '(pins, states, count) :=
      find_or_add (pin_numbers c) (pin_states c) (pin_count c) MAX_GPIO_PINS
                  pin pin_state in
    let st2 := {| opcua_config := opcua_config st1;
                  modbus_config := modbus_config st1;
                  gpio_config := {| pin_numbers := pins; pin_states := states;
                                    pin_count := count;
                                    initialized := initialized c |};
                  actuation_count := actuation_count st1;
                  total_actuation_time := total_actuation_time st1;
                  max_actuation_time := max_actuation_time st1;
                  timer_reads := timer_reads st1;
                  sent := sent st1 ++ [GpioWrite pin pin_state] |} in
    finish_timing st2 start_time.

Definition actuator_execute_command (cmd : option edgeplug_actuation_cmd_t)
    (st : state) : state * edgeplug_status_t :=
  match cmd with
  | None => (st, EDGEPLUG_ERROR_INVALID_PARAM)
  | Some c =>
      let '(st1, status1) :=
        if negb (opcua_node c =? 0) then actuator_write_opcua (opcua_node c) (value c) st
        else (st, EDGEPLUG_OK) in
      if negb (status_eqb status1 EDGEPLUG_OK) then (st1, status1)
      else
        let '(st2, status2) :=
          if negb (modbus_addr c =? 0) then
            actuator_write_modbus (modbus_addr c) (f32_to_u16 (value c)) st1
          else (st1, EDGEPLUG_OK) in
        if negb (status_eqb status2 EDGEPLUG_OK) then (st2, status2)
        else
          let '(st3, status3) :=
            if gpio_pin c <? MAX_GPIO_PINS then
              actuator_write_gpio (gpio_pin c) (gpio_state c) st2
            else (st2, EDGEPLUG_OK) in
          if negb (status_eqb status3 EDGEPLUG_OK) then (st3, status3)
          else (st3, EDGEPLUG_OK)
  end.

End WithTimer.

(** [actuator_config_opcua]; the URL and the port are not used. *)
Definition actuator_config_opcua (st : state) : state * edgeplug_status_t :=
  ({| opcua_config := {| node_ids := node_ids (opcua_config st);
                         values := values (opcua_config st);
                         node_count := node_count (opcua_config st);
                         opcua_connected := true |};
      modbus_config := modbus_config st;
      gpio_config := gpio_config st;
      actuation_count := actuation_count st;
      total_actuation_time := total_actuation_time st;
      max_actuation_time := max_actuation_time st;
      timer_reads := timer_reads st;
      sent := sent st |},
   EDGEPLUG_OK).

(** [actuator_config_modbus]; the baud rate is not used. *)
Definition actuator_config_modbus (slave : Z) (st : state)
  : state * edgeplug_status_t :=
  if slave =? 0 then (st, EDGEPLUG_ERROR_INVALID_PARAM)
  else
    ({| opcua_config := opcua_config st;
        modbus_config := {| register_addresses := register_addresses (modbus_config st);
                            register_values := register_values (modbus_config st);
                            register_count := register_count (modbus_config st);
                            modbus_connected := true;
                            slave_id := slave |};
        gpio_config := gpio_config st;
        actuation_count := actuation_count st;
        total_actuation_time := total_actuation_time st;
        max_actuation_time := max_actuation_time st;
        timer_reads := timer_reads st;
        sent := sent st |},
     EDGEPLUG_OK).

(** [actuator_config_gpio]: the first [count] table entries are overwritten
    with the caller's pins, their states set low.  A caller's array shorter
    than [count] is read out of bounds in C; the model reads 0 there. *)
Definition actuator_config_gpio (pins : option (list Z)) (count : Z) (st : state)
  : state * edgeplug_status_t :=
  match pins with
  | None => (st, EDGEPLUG_ERROR_INVALID_PARAM)
  | Some ps =>
      if (count =? 0) || (MAX_GPIO_PINS <? count) then
        (st, EDGEPLUG_ERROR_INVALID_PARAM)
      else
        let c := gpio_config st in
        ({| opcua_config := opcua_config st;
            modbus_config := modbus_config st;
            gpio_config :=
              {| pin_numbers := foldl (fun acc i => <[i := nth i ps 0]> acc)
                                      (pin_numbers c) (seq 0 (Z.to_nat count));
                 pin_states := foldl (fun acc i => <[i := 0]> acc)
                                     (pin_states c) (seq 0 (Z.to_nat count));
                 pin_count := count;
                 initialized := initialized c |};
            actuation_count := actuation_count st;
            total_actuation_time := total_actuation_time st;
            max_actuation_time := max_actuation_time st;
            timer_reads := timer_reads st;
            sent := sent st |},
         EDGEPLUG_OK)
  end.

(** [actuator_get_stats] with all three pointers given: count, average,
    maximum. *)
Definition actuator_get_stats (st : state) : Z * Z * Z :=
  (actuation_count st,
   if 0 <? actuation_count st then total_actuation_time st / actuation_count st else 0,
   max_actuation_time st).

Definition actuator_get_connection_status (st : state) : bool * bool :=
  (opcua_connected (opcua_config st), modbus_connected (modbus_config st)).

Definition actuator_reset_stats (st : state) : state * edgeplug_status_t :=
  ({| opcua_config := opcua_config st;
      modbus_config := modbus_config st;
      gpio_config := gpio_config st;
      actuation_count := 0;
      total_actuation_time := 0;
      max_actuation_time := 0;
      timer_reads := timer_reads st;
      sent := sent st |},
   EDGEPLUG_OK).

(** The value a table holds for a key: the value at the entry the "find"
    loop of the writers stops at. *)
Definition table_lookup {A : Type} (keys : list Z) (vals : list A) (count key : Z)
  : option A :=
  match find_entry keys count key with
  | Some i => vals !! i
  | None => None
  end.

Definition opcua_value (st : state) (node_id : Z) : option spec_float :=
  table_lookup (node_ids (opcua_config st)) (values (opcua_config st))
               (node_count (opcua_config st)) node_id.

Definition modbus_value (st : state) (address : Z) : option Z :=
  table_lookup (register_addresses (modbus_config st))
               (register_values (modbus_config st))
               (register_count (modbus_config st)) address.

Definition gpio_level (st : state) (pin : Z) : option Z :=
  table_lookup (pin_numbers (gpio_config st)) (pin_states (gpio_config st))
               (pin_count (gpio_config st)) pin.

(** A key table in good order: the count within the limit, both arrays of
    the declared length, and no key twice among the entries in use. *)
Definition table_ok {A : Type} (keys : list Z) (vals : list A) (count limit : Z)
  : Prop :=
  0 <= count <= limit /\
  length keys = Z.to_nat limit /\ length vals = Z.to_nat limit /\
  NoDup (take (Z.to_nat count) keys).

(** The three tables of actuator.c.  The discrete-line table is filled by
    [actuator_config_gpio] from the caller's array as it comes, so no key
    property is stated for it. *)
Definition tables_ok (st : state) : Prop :=
  table_ok (node_ids (opcua_config st)) (values (opcua_config st))
           (node_count (opcua_config st)) MAX_OPCUA_NODES /\
  table_ok (register_addresses (modbus_config st))
           (register_values (modbus_config st))
           (register_count (modbus_config st)) MAX_MODBUS_REGS /\
  0 <= pin_count (gpio_config st) <= MAX_GPIO_PINS /\
  length (pin_numbers (gpio_config st)) = Z.to_nat MAX_GPIO_PINS /\
  length (pin_states (gpio_config st)) = Z.to_nat MAX_GPIO_PINS.

(** The bookkeeping of a stretch of execution during which the transfers
    [new] were performed: they were appended to the trace, the counter was
    incremented once per transfer, and the clock was read twice per
    transfer. *)
Definition transfers_counted (st st' : state) (new : list transfer) : Prop :=
  sent st' = sent st ++ new /\
  actuation_count st'
  = Nat.iter (length new) (fun c => u32 (c + 1)) (actuation_count st) /\
  timer_reads st' = (timer_reads st + 2 * length new)%nat.

Section Operations.

Variable timer : nat -> Z.

(** The public functions that change state, as one step function.  The pin
    count of [actuator_config_gpio], a [uint8_t], is a natural number. *)
Inductive operation : Type :=
| OpInit
| OpWriteOpcua (node_id : Z) (val : spec_float)
| OpWriteModbus (address val : Z)
| OpWriteGpio (pin pin_state : Z)
| OpExecuteCommand (cmd : option edgeplug_actuation_cmd_t)
| OpConfigOpcua
| OpConfigModbus (slave : Z)
| OpConfigGpio (pins : option (list Z)) (count : nat)
| OpResetStats.

Definition step (st : state) (op : operation) : state :=
  match op with
  | OpInit => fst (actuator_init st)
  | OpWriteOpcua node_id val => fst (actuator_write_opcua timer node_id val st)
  | OpWriteModbus address val => fst (actuator_write_modbus timer address val st)
  | OpWriteGpio pin pin_state => fst (actuator_write_gpio timer pin pin_state st)
  | OpExecuteCommand cmd => fst (actuator_execute_command timer cmd st)
  | OpConfigOpcua => fst (actuator_config_opcua st)
  | OpConfigModbus slave => fst (actuator_config_modbus slave st)
  | OpConfigGpio pins count => fst (actuator_config_gpio pins (Z.of_nat count) st)
  | OpResetStats => fst (actuator_reset_stats st)
  end.

Definition run (st : state) (ops : list operation) : state := foldl step st ops.

End Operations.

(** The fallback of [get_system_time_ms]: a counter that advances by one
    per call. *)
Definition software_timer (n : nat) : Z := Z.of_nat n.

(** *** Concrete commands used by the examples *)

Definition ready_state : state := fst (actuator_init initial_state).

(** No network node, no register, the discrete line number 0 driven high. *)
Definition command_pin0 : edgeplug_actuation_cmd_t := {|
  opcua_node := 0; modbus_addr := 0; gpio_pin := 0; gpio_state := 1;
  value := f32_zero
|}.

(** No network node, no register, and a non-zero line number outside the
    eight lines the dispatcher drives. *)
Definition command_pin9 : edgeplug_actuation_cmd_t := {|
  opcua_node := 0; modbus_addr := 0; gpio_pin := 9; gpio_state := 1;
  value := f32_zero
|}.

(** The command the runtime derives from an inference output. *)
Definition command_all : edgeplug_actuation_cmd_t := {|
  opcua_node := 1001; modbus_addr := 1001; gpio_pin := 1; gpio_state := 1;
  value := f32_of_Z 3
|}.

End Actuator.

(* ------------------------------------------------------------------ *)
(** ** infer.c *)
(* ------------------------------------------------------------------ *)

Module Infer.

Definition INFERENCE_BUFFER_SIZE : Z := 1024.
Definition MAX_MODEL_SIZE : Z := 8192.
Definition SIZEOF_HEADER : Z := 32.
Definition SIZEOF_LAYER : Z := 36.

Definition CMSIS_NN_LAYER_CONV : Z := 1.
Definition CMSIS_NN_LAYER_DENSE : Z := 2.
Definition CMSIS_NN_LAYER_ACTIVATION : Z := 3.
Definition CMSIS_NN_LAYER_POOL : Z := 4.

(** The statics of infer.c that the modelled functions use, and the number
    of timer reads made so far.  [inference_buffer] holds [int8_t] values
    (-128..127), [model_buffer] bytes. *)
Record state : Type := {
  inference_buffer : list Z;
  model_buffer : list Z;
  model_size : Z;
  model_loaded : bool;
  inference_count : Z;
  total_inference_time : Z;
  max_inference_time : Z;
  timer_reads : nat
}.

Definition initial_state : state := {|
  inference_buffer := replicate (Z.to_nat INFERENCE_BUFFER_SIZE) 0;
  model_buffer := replicate (Z.to_nat MAX_MODEL_SIZE) 0;
  model_size := 0;
  model_loaded := false;
  inference_count := 0;
  total_inference_time := 0;
  max_inference_time := 0;
  timer_reads := 0
|}.

Definition infer_init (st : state) : state * edgeplug_status_t :=
  ({| inference_buffer := replicate (Z.to_nat INFERENCE_BUFFER_SIZE) 0;
      model_buffer := replicate (Z.to_nat MAX_MODEL_SIZE) 0;
      model_size := 0;
      model_loaded := false;
      inference_count := 0;
      total_inference_time := 0;
      max_inference_time := 0;
      timer_reads := timer_reads st |},
   EDGEPLUG_OK).

(** [memcpy(dst, src, length src)] into the front of an array. *)
Definition copy_front (src dst : list Z) : list Z :=
  src ++ drop (length src) dst.

Definition infer_load_model (model_data : option (list Z)) (st : state)
  : state * edgeplug_status_t :=
  match model_data with
  | None => (st, EDGEPLUG_ERROR_INVALID_PARAM)
  | Some bytes =>
      let data_size := Z.of_nat (length bytes) in
      if data_size =? 0 then (st, EDGEPLUG_ERROR_INVALID_PARAM)
      else if MAX_MODEL_SIZE <? data_size then (st, EDGEPLUG_ERROR_MEMORY)
      else
        ({| inference_buffer := inference_buffer st;
            model_buffer := copy_front bytes (model_buffer st);
            model_size := data_size;
            model_loaded := true;
            inference_count := inference_count st;
            total_inference_time := total_inference_time st;
            max_inference_time := max_inference_time st;
            timer_reads := timer_reads st |},
         EDGEPLUG_OK)
  end.

(** *** Reading the model image and the working buffer

    The network evaluation indexes [model_buffer] and [inference_buffer]
    with the offsets and sizes it reads from the model image, and tests
    none of them against the arrays.  An access outside the array it goes
    through is undefined behaviour in C: what the program then does (the
    statics behind [inference_buffer] are the next thing in memory) is not
    described by the source.  The accessors return [None] there, and so
    does every computation that contains such an access. *)

Definition signed (bits x : Z) : Z :=
  let r := x mod 2 ^ bits in
  if r <? 2 ^ (bits - 1) then r else r - 2 ^ bits.

Definition mem_u8 (mem : list Z) (i : Z) : option Z :=
  if i <? 0 then None else u8 <$> mem !! Z.to_nat i.

Definition mem_i8 (mem : list Z) (i : Z) : option Z := signed 8 <$> mem_u8 mem i.

(** A little-endian 32-bit word at byte offset [i]. *)
Definition mem_u32 (mem : list Z) (i : Z) : option Z :=
  b0 ← mem_u8 mem i;
  b1 ← mem_u8 mem (i + 1);
  b2 ← mem_u8 mem (i + 2);
  b3 ← mem_u8 mem (i + 3);
  Some (b0 + b1 * 2 ^ 8 + b2 * 2 ^ 16 + b3 * 2 ^ 24).

Definition mem_i32 (mem : list Z) (i : Z) : option Z := signed 32 <$> mem_u32 mem i.

Definition buf_get (buf : list Z) (i : Z) : option Z :=
  if i <? 0 then None else buf !! Z.to_nat i.

Definition buf_set (buf : list Z) (i : Z) (v : Z) : option (list Z) :=
  if (0 <=? i) && (i <? Z.of_nat (length buf)) then Some (<[Z.to_nat i := v]> buf)
  else None.

(** [a + b] in [int32_t]; overflow is undefined in C. *)
Definition add_i32 (a b : Z) : option Z :=
  let r := a + b in
  if (- 2 ^ 31 <=? r) && (r <? 2 ^ 31) then Some r else None.

Record cmsis_nn_model_header_t : Type := {
  magic : Z;
  version : Z;
  input_size : Z;
  output_size : Z;
  layer_count : Z;
  weights_offset : Z;
  bias_offset : Z;
  activation_offset : Z
}.

Record cmsis_nn_layer_t : Type := {
  type : Z;
  layer_input_size : Z;
  layer_output_size : Z;
  layer_weights_offset : Z;
  layer_bias_offset : Z;
  activation_type : Z;
  padding : Z;
  stride : Z;
  kernel_size : Z
}.

(** The header, read through a pointer to the start of [model_buffer]. *)
Definition read_header (model : list Z) : option cmsis_nn_model_header_t :=
  f0 ← mem_u32 model 0;
  f1 ← mem_u32 model 4;
  f2 ← mem_u32 model 8;
  f3 ← mem_u32 model 12;
  f4 ← mem_u32 model 16;
  f5 ← mem_u32 model 20;
  f6 ← mem_u32 model 24;
  f7 ← mem_u32 model 28;
  Some {| magic := f0; version := f1; input_size := f2; output_size := f3;
          layer_count := f4; weights_offset := f5; bias_offset := f6;
          activation_offset := f7 |}.

(** [layers[i]], the [i]-th descriptor behind the header; the descriptor has
    to lie inside [model_buffer]. *)
Definition read_layer (model : list Z) (i : Z) : option cmsis_nn_layer_t :=
  let base := SIZEOF_HEADER + SIZEOF_LAYER * i in
  f0 ← mem_u32 model base;
  f1 ← mem_u32 model (base + 4);
  f2 ← mem_u32 model (base + 8);
  f3 ← mem_u32 model (base + 12);
  f4 ← mem_u32 model (base + 16);
  f5 ← mem_u32 model (base + 20);
  f6 ← mem_u32 model (base + 24);
  f7 ← mem_u32 model (base + 28);
  f8 ← mem_u32 model (base + 32);
  Some {| type := f0; layer_input_size := f1; layer_output_size := f2;
          layer_weights_offset := f3; layer_bias_offset := f4;
          activation_type := f5; padding := f6; stride := f7; kernel_size := f8 |}.

Definition clamp_i8 (x : Z) : Z :=
  if 127 <? x then 127 else if x <? -128 then -128 else x.

(** One output of a dense layer: bias, multiply-accumulate in [int32_t],
    ReLU, division by 64 toward zero, clamp.  [layer_input] is
    [buf + in_off]; the weight index is computed in [uint32_t]. *)
Definition dense_output (model buf : list Z) (l : cmsis_nn_layer_t)
    (in_off out_idx : Z) : option Z :=
  acc0 ← mem_i32 model (layer_bias_offset l + 4 * out_idx);
  acc ← foldl (fun acc in_idx =>
                 a ← acc;
                 x ← buf_get buf (in_off + Z.of_nat in_idx);
                 w ← mem_i8 model (layer_weights_offset l
                                   + u32 (Z.of_nat in_idx * layer_output_size l
                                          + out_idx));
                 add_i32 a (x * w))
              (Some acc0) (seq 0 (Z.to_nat (layer_input_size l)));
  let acc := if (activation_type l =? 1) && (acc <? 0) then 0 else acc in
  Some (clamp_i8 (Z.quot acc 64)).

(** The dense loop writes [layer_output[out_idx]] while later outputs still
    read [layer_input]; both point into the one working buffer. *)
Definition dense_layer (model buf : list Z) (l : cmsis_nn_layer_t)
    (in_off out_off : Z) : option (list Z) :=
  foldl (fun acc out_idx =>
           b ← acc;
           v ← dense_output model b l in_off (Z.of_nat out_idx);
           buf_set b (out_off + Z.of_nat out_idx) v)
        (Some buf) (seq 0 (Z.to_nat (layer_output_size l))).

Definition activation_value (l : cmsis_nn_layer_t) (val : Z) : Z :=
  if activation_type l =? 1 then (if val <? 0 then 0 else val)
  else if activation_type l =? 2 then (if 0 <? val then 127 else -128)
  else val.

Definition activation_layer (buf : list Z) (l : cmsis_nn_layer_t)
    (in_off out_off : Z) : option (list Z) :=
  foldl (fun acc i =>
           b ← acc;
           val ← buf_get b (in_off + Z.of_nat i);
           buf_set b (out_off + Z.of_nat i) (signed 8 (activation_value l val)))
        (Some buf) (seq 0 (Z.to_nat (layer_input_size l))).

(** The layer loop: the working buffer as the loop leaves it and, unless a
    layer of another type was met, the offset [layer_input] ends at after
    the last swap. *)
Fixpoint run_layers (model : list Z) (layers : list nat) (buf : list Z)
    (in_off out_off : Z) : option (list Z * option Z) :=
  match layers with
  | [] => Some (buf, Some in_off)
  | i :: rest =>
      l ← read_layer model (Z.of_nat i);
      if type l =? CMSIS_NN_LAYER_DENSE then
        buf' ← dense_layer model buf l in_off out_off;
        run_layers model rest buf' out_off in_off
      else if type l =? CMSIS_NN_LAYER_ACTIVATION then
        buf' ← activation_layer buf l in_off out_off;
        run_layers model rest buf' out_off in_off
      else Some (buf, None)
  end.

(** The body of [cmsis_nn_inference(inference_buffer, input_size,
    output_data, output_size)] as [infer_int8] calls it: the input already
    lies at the front of the working buffer.  Result: the working buffer
    afterwards, the status, and the bytes copied to [output_data] (with
    [*output_size] their number); [None] when the evaluation leaves an
    array.  The caller's output array is taken to be large enough. *)
Definition cmsis_nn_run (model buf : list Z) (loaded : bool) (in_size : Z)
  : option (list Z * edgeplug_status_t * option (list Z)) :=
  if negb loaded then Some (buf, EDGEPLUG_ERROR_INVALID_PARAM, None)
  else
    header ← read_header model;
    if negb (magic header =? 0x4E4E5343) then Some (buf, EDGEPLUG_ERROR_INFERENCE, None)
    else if negb (in_size =? input_size header) then
      Some (buf, EDGEPLUG_ERROR_INFERENCE, None)
    else
      r ← run_layers model (seq 0 (Z.to_nat (layer_count header))) buf
                     0 (input_size header);
      match r with
      | (buf', None) => Some (buf', EDGEPLUG_ERROR_INFERENCE, None)
      | (buf', Some final_off) =>
          out ← mapM (fun i => buf_get buf' (final_off + Z.of_nat i))
                     (seq 0 (Z.to_nat (output_size header)));
          Some (buf', EDGEPLUG_OK, Some out)
      end.

(** [cmsis_nn_inference] for its caller.  Where the evaluation is defined
    this is its result.  Where it is not, the source fixes no result; so
    that [infer_int8] remains a function of its arguments the model lets the
    call fail and leaves the working buffer alone, and a statement that
    depends on what an evaluation does to the statics carries the
    hypothesis that [cmsis_nn_run] is defined. *)
Definition cmsis_nn_inference (model buf : list Z) (loaded : bool) (in_size : Z)
  : list Z * edgeplug_status_t * option (list Z) :=
  default (buf, EDGEPLUG_ERROR_INFERENCE, None) (cmsis_nn_run model buf loaded in_size).

Section WithTimer.

(** [timer n] is what the [n]-th call of [get_system_time_ms] since
    program start returns (the same platform function as in actuator.c). *)
Variable timer : nat -> Z.

Definition get_system_time_ms (st : state) : state * Z :=
  ({| inference_buffer := inference_buffer st;
      model_buffer := model_buffer st;
      model_size := model_size st;
      model_loaded := model_loaded st;
      inference_count := inference_count st;
      total_inference_time := total_inference_time st;
      max_inference_time := max_inference_time st;
      timer_reads := S (timer_reads st) |},
   u32 (timer (timer_reads st))).

(** [infer_int8].  [output_data] and [output_size] say whether the two
    output pointers are non-NULL; the third component of the result is what
    the call stored through them. *)
Definition infer_int8 (input_data : option (list Z)) (output_data output_size : bool)
    (st : state) : state * edgeplug_status_t * option (list Z) :=
  match input_data with
  | Some input =>
      if negb output_data || negb output_size || negb (model_loaded st) then
        (st, EDGEPLUG_ERROR_INVALID_PARAM, None)
      else
        let in_size := Z.of_nat (length input) in
        if INFERENCE_BUFFER_SIZE <? in_size then (st, EDGEPLUG_ERROR_MEMORY, None)
        else
          let '(st1, start_time) := get_system_time_ms st in
          let buf := copy_front input (inference_buffer st1) in
          let '(buf', status, out) :=
            cmsis_nn_inference (model_buffer st1) buf (model_loaded st1) in_size in
          let st2 := {| inference_buffer := buf';
                        model_buffer := model_buffer st1;
                        model_size := model_size st1;
                        model_loaded := model_loaded st1;
                        inference_count := inference_count st1;
                        total_inference_time := total_inference_time st1;
                        max_inference_time := max_inference_time st1;
                        timer_reads := timer_reads st1 |} in
          let '(st3, end_time) := get_system_time_ms st2 in
          let inference_time := u32 (end_time - start_time) in
          let st4 := {| inference_buffer := inference_buffer st3;
                        model_buffer := model_buffer st3;
                        model_size := model_size st3;
                        model_loaded := model_loaded st3;
                        inference_count := u32 (inference_count st3 + 1);
                        total_inference_time :=
                          u32 (total_inference_time st3 + inference_time);
                        max_inference_time :=
                          if max_inference_time st3 <? inference_time
                          then inference_time else max_inference_time st3;
                        timer_reads := timer_reads st3 |} in
          if 1 <? inference_time then (st4, EDGEPLUG_ERROR_INFERENCE, out)
          else (st4, status, out)
  | None => (st, EDGEPLUG_ERROR_INVALID_PARAM, None)
  end.

End WithTimer.

(** *** Quantization

    The four quantization statics; no other function of infer.c reads
    them. *)
Record quantization_t : Type := {
  input_scale : spec_float;
  output_scale : spec_float;
  input_zero_point : Z;
  output_zero_point : Z
}.

(** [0.5f]. *)
Definition f32_0_5 : spec_float := S754_finite false 8388608 (-24).

(** The initializers: [1.0f / 64.0f] (exactly 2^-6), [64.0f], and zero
    points 0. *)
Definition initial_quantization : quantization_t := {|
  input_scale := f32_div f32_one (f32_of_Z 64);
  output_scale := f32_of_Z 64;
  input_zero_point := 0;
  output_zero_point := 0
|}.

Definition infer_set_quantization (in_scale : spec_float) (in_zero_point : Z)
    (out_scale : spec_float) (out_zero_point : Z) (q : quantization_t)
  : quantization_t * edgeplug_status_t :=
  ({| input_scale := in_scale; output_scale := out_scale;
      input_zero_point := in_zero_point; output_zero_point := out_zero_point |},
   EDGEPLUG_OK).

(** [infer_quantize_fp32]: [(int32_t)(x / input_scale + zero_point + 0.5f)],
    clamped.  [int8_data] says whether the output pointer is non-NULL; the
    second component is what is stored through it. *)
Definition infer_quantize_fp32 (q : quantization_t)
    (fp32_data : option (list spec_float)) (int8_data : bool)
  : edgeplug_status_t * option (list Z) :=
  match fp32_data with
  | Some data =>
      if negb int8_data || (Z.of_nat (length data) =? 0) then
        (EDGEPLUG_ERROR_INVALID_PARAM, None)
      else
        (EDGEPLUG_OK,
         Some (map (fun x =>
                      let scaled := f32_add (f32_div x (input_scale q))
                                            (f32_of_Z (input_zero_point q)) in
                      clamp_i8 (f32_trunc (f32_add scaled f32_0_5)))
                   data))
  | None => (EDGEPLUG_ERROR_INVALID_PARAM, None)
  end.

(** [infer_dequantize_int8]: [(float)(x - zero_point) * output_scale]. *)
Definition infer_dequantize_int8 (q : quantization_t)
    (int8_data : option (list Z)) (fp32_data : bool)
  : edgeplug_status_t * option (list spec_float) :=
  match int8_data with
  | Some data =>
      if negb fp32_data || (Z.of_nat (length data) =? 0) then
        (EDGEPLUG_ERROR_INVALID_PARAM, None)
      else
        (EDGEPLUG_OK,
         Some (map (fun x => f32_mul (f32_of_Z (x - output_zero_point q))
                                     (output_scale q))
                   data))
  | None => (EDGEPLUG_ERROR_INVALID_PARAM, None)
  end.

(** Both scales set to 2^-6 and both zero points to 0, so that
    dequantization is the exact inverse scaling of quantization. *)
Definition matched_quantization : quantization_t :=
  fst (infer_set_quantization (f32_div f32_one (f32_of_Z 64)) 0
         (f32_div f32_one (f32_of_Z 64)) 0 initial_quantization).

Definition infer_is_model_loaded (st : state) : bool := model_loaded st.

Definition infer_get_model_size (st : state) : Z := model_size st.

(** [infer_get_stats] with all three pointers given: count, average, maximum. *)
Definition infer_get_stats (st : state) : Z * Z * Z :=
  (inference_count st,
   if 0 <? inference_count st then total_inference_time st / inference_count st else 0,
   max_inference_time st).

Definition infer_reset_stats (st : state) : state * edgeplug_status_t :=
  ({| inference_buffer := inference_buffer st;
      model_buffer := model_buffer st;
      model_size := model_size st;
      model_loaded := model_loaded st;
      inference_count := 0;
      total_inference_time := 0;
      max_inference_time := 0;
      timer_reads := timer_reads st |},
   EDGEPLUG_OK).

(** *** Concrete inputs used by the examples *)

Definition le32 (x : Z) : list Z :=
  [x mod 256; (x / 2 ^ 8) mod 256; (x / 2 ^ 16) mod 256; (x / 2 ^ 24) mod 256].

(** A model with two inputs, two outputs and one dense layer: weights
    64 * identity, zero bias, ReLU.  Header (32 bytes), one descriptor (36),
    four weight bytes at offset 68, two bias words at offset 72. *)
Definition tiny_model : list Z :=
  le32 0x4E4E5343 ++ le32 1 ++ le32 2 ++ le32 2 ++ le32 1
    ++ le32 68 ++ le32 72 ++ le32 0
  ++ le32 CMSIS_NN_LAYER_DENSE ++ le32 2 ++ le32 2 ++ le32 68 ++ le32 72
    ++ le32 1 ++ le32 0 ++ le32 0 ++ le32 0
  ++ [64; 0; 0; 64]
  ++ le32 0 ++ le32 0.

Definition loaded_state : state :=
  fst (infer_load_model (Some tiny_model) (fst (infer_init initial_state))).


(** The software fallback: one tick per read. *)
Definition software_timer (n : nat) : Z := Z.of_nat n.

End Infer.

(* ------------------------------------------------------------------ *)
(** ** edgeplug_runtime.c *)
(* ------------------------------------------------------------------ *)

Module Facade.

(** [edgeplug_config_t]. *)
Record edgeplug_config_t : Type := {
  window_size : Z;
  sample_rate : Z;
  inference_interval : Z;
  enable_safety_guard : bool;
  enable_hotswap : bool
}.

(** The static [runtime_state]. *)
Record runtime_state_t : Type := {
  config : edgeplug_config_t;
  initialized : bool;
  sensor_count : Z;
  inference_count : Z;
  safety_trips : Z
}.

(** [runtime_state = {0}], also what [edgeplug_deinit] leaves. *)
Definition zero_runtime_state : runtime_state_t := {|
  config := {| window_size := 0; sample_rate := 0; inference_interval := 0;
               enable_safety_guard := false; enable_hotswap := false |};
  initialized := false;
  sensor_count := 0;
  inference_count := 0;
  safety_trips := 0
|}.

(** The statics of the five translation units the entry points reach. *)
Record system : Type := {
  runtime_state : runtime_state_t;
  preprocess : Preprocess.state;
  infer : Infer.state;
  actuator : Actuator.state;
  agent_loader : AgentLoader.state
}.

Definition initial_system : system := {|
  runtime_state := zero_runtime_state;
  preprocess := Preprocess.initial_state;
  infer := Infer.initial_state;
  actuator := Actuator.initial_state;
  agent_loader := AgentLoader.initial_state
|}.

Definition with_runtime_state (sys : system) (r : runtime_state_t) : system := {|
  runtime_state := r; preprocess := preprocess sys; infer := infer sys;
  actuator := actuator sys; agent_loader := agent_loader sys
|}.

Definition with_preprocess (sys : system) (p : Preprocess.state) : system := {|
  runtime_state := runtime_state sys; preprocess := p; infer := infer sys;
  actuator := actuator sys; agent_loader := agent_loader sys
|}.

Definition with_infer (sys : system) (i : Infer.state) : system := {|
  runtime_state := runtime_state sys; preprocess := preprocess sys; infer := i;
  actuator := actuator sys; agent_loader := agent_loader sys
|}.

Definition with_actuator (sys : system) (a : Actuator.state) : system := {|
  runtime_state := runtime_state sys; preprocess := preprocess sys;
  infer := infer sys; actuator := a; agent_loader := agent_loader sys
|}.

Definition with_agent_loader (sys : system) (l : AgentLoader.state) : system := {|
  runtime_state := runtime_state sys; preprocess := preprocess sys;
  infer := infer sys; actuator := actuator sys; agent_loader := l
|}.

(** [memset(actuation_cmd, 0, sizeof(edgeplug_actuation_cmd_t))]. *)
Definition zero_command : edgeplug_actuation_cmd_t := {|
  opcua_node := 0; modbus_addr := 0; gpio_pin := 0; gpio_state := 0;
  value := f32_zero
|}.

(** [edgeplug_init].  The runtime is marked initialized BEFORE the three
    module initializers run. *)
Definition edgeplug_init (cfg : option edgeplug_config_t) (sys : system)
  : system * edgeplug_status_t :=
  match cfg with
  | None => (sys, EDGEPLUG_ERROR_INVALID_PARAM)
  | Some c =>
      if (window_size c =? 0) || (sample_rate c =? 0) then
        (sys, EDGEPLUG_ERROR_INVALID_PARAM)
      else
        let sys1 := with_runtime_state sys
                      {| config := c; initialized := true; sensor_count := 0;
                         inference_count := 0; safety_trips := 0 |} in
        let '(p, status) := Preprocess.preprocess_init (window_size c) (preprocess sys1) in
        let sys2 := with_preprocess sys1 p in
        if negb (status_eqb status EDGEPLUG_OK) then (sys2, status)
        else
          let '(i, status) := Infer.infer_init (infer sys2) in
          let sys3 := with_infer sys2 i in
          if negb (status_eqb status EDGEPLUG_OK) then (sys3, status)
          else
            let '(a, status) := Actuator.actuator_init (actuator sys3) in
            let sys4 := with_actuator sys3 a in
            if negb (status_eqb status EDGEPLUG_OK) then (sys4, status)
            else (sys4, EDGEPLUG_OK)
  end.

Definition edgeplug_load_agent (cbor_data : option (list Z))
    (manifest : option edgeplug_manifest_t) (sys : system)
  : system * edgeplug_status_t :=
  if negb (initialized (runtime_state sys)) then (sys, EDGEPLUG_ERROR_INVALID_PARAM)
  else
    match cbor_data, manifest with
    | Some bytes, Some _ =>
        if Z.of_nat (length bytes) =? 0 then (sys, EDGEPLUG_ERROR_INVALID_PARAM)
        else
          let '(l, status) :=
            AgentLoader.agent_loader_load (agent_loader sys) cbor_data manifest in
          (with_agent_loader sys l, status)
    | _, _ => (sys, EDGEPLUG_ERROR_INVALID_PARAM)
    end.

(** The command [edgeplug_process_sensors] derives from a non-empty
    inference output: the [int32_t] sum of the outputs, divided as [float]
    by their number. *)
Definition command_of_output (output : list Z) : edgeplug_actuation_cmd_t :=
  let sum := foldl (fun acc x => Infer.signed 32 (acc + x)) 0 output in
  let avg_output := f32_div (f32_of_Z sum) (f32_of_Z (Z.of_nat (length output))) in
  {| opcua_node := 1001;
     modbus_addr := 1001;
     gpio_pin := 1;
     gpio_state := if f32_ltb f32_zero avg_output then 1 else 0;
     value := avg_output |}.

Section WithTimers.

(** The platform timer as infer.c and as actuator.c read it: each file has
    its own [get_system_time_ms] and its own count of reads. *)
Variable infer_timer : nat -> Z.
Variable actuator_timer : nat -> Z.

(** [edgeplug_process_sensors].  [actuation_cmd] says whether the output
    pointer is non-NULL; the third component is what the call stores
    through it ([None]: the caller's structure is left alone). *)
Definition edgeplug_process_sensors (sensor_data : option edgeplug_sensor_data_t)
    (actuation_cmd : bool) (sys : system)
  : system * edgeplug_status_t * option edgeplug_actuation_cmd_t :=
  match sensor_data with
  | Some _ =>
      if negb (initialized (runtime_state sys)) || negb actuation_cmd then
        (sys, EDGEPLUG_ERROR_INVALID_PARAM, None)
      else
        let '(p, status) := Preprocess.preprocess_add_sample sensor_data (preprocess sys) in
        let sys1 := with_preprocess sys p in
        if negb (status_eqb status EDGEPLUG_OK) then (sys1, status, None)
        else
          let r := runtime_state sys1 in
          let sys2 := with_runtime_state sys1
                        {| config := config r; initialized := initialized r;
                           sensor_count := u32 (sensor_count r + 1);
                           inference_count := inference_count r;
                           safety_trips := safety_trips r |} in
          if negb (Preprocess.preprocess_is_window_ready (preprocess sys2)) then
            (sys2, EDGEPLUG_OK, Some zero_command)
          else
            let '(status, normalized) :=
              Preprocess.preprocess_normalize_window true true (preprocess sys2) in
            if negb (status_eqb status EDGEPLUG_OK) then (sys2, status, None)
            else
              let '(i, status, output) :=
                Infer.infer_int8 infer_timer normalized true true (infer sys2) in
              let sys3 := with_infer sys2 i in
              if negb (status_eqb status EDGEPLUG_OK) then (sys3, status, None)
              else
                let r := runtime_state sys3 in
                let sys4 := with_runtime_state sys3
                              {| config := config r; initialized := initialized r;
                                 sensor_count := sensor_count r;
                                 inference_count := u32 (inference_count r + 1);
                                 safety_trips := safety_trips r |} in
                match output with
                | Some (x :: rest) =>
                    (sys4, EDGEPLUG_OK, Some (command_of_output (x :: rest)))
                | _ => (sys4, EDGEPLUG_OK, Some zero_command)
                end
  | None => (sys, EDGEPLUG_ERROR_INVALID_PARAM, None)
  end.

Definition edgeplug_execute_actuation (cmd : option edgeplug_actuation_cmd_t)
    (sys : system) : system * edgeplug_status_t :=
  match cmd with
  | Some _ =>
      if negb (initialized (runtime_state sys)) then
        (sys, EDGEPLUG_ERROR_INVALID_PARAM)
      else
        let '(a, status) :=
          Actuator.actuator_execute_command actuator_timer cmd (actuator sys) in
        (with_actuator sys a, status)
  | None => (sys, EDGEPLUG_ERROR_INVALID_PARAM)
  end.

Definition edgeplug_hotswap_agent (new_agent_cbor : option (list Z))
    (new_manifest : option edgeplug_manifest_t) (sys : system)
  : system * edgeplug_status_t :=
  if negb (initialized (runtime_state sys)) then (sys, EDGEPLUG_ERROR_INVALID_PARAM)
  else if negb (enable_hotswap (config (runtime_state sys))) then
    (sys, EDGEPLUG_ERROR_INVALID_PARAM)
  else
    match new_agent_cbor, new_manifest with
    | Some bytes, Some _ =>
        if Z.of_nat (length bytes) =? 0 then (sys, EDGEPLUG_ERROR_INVALID_PARAM)
        else
          let '(l, status) :=
            AgentLoader.agent_loader_hotswap (agent_loader sys)
              new_agent_cbor new_manifest in
          (with_agent_loader sys l, status)
    | _, _ => (sys, EDGEPLUG_ERROR_INVALID_PARAM)
    end.

(** [edgeplug_get_stats] with all three pointers given: the average
    inference time, the memory figure (a constant), the safety trips. *)
Definition edgeplug_get_stats (sys : system) : edgeplug_status_t * option (Z * Z * Z) :=
  if negb (initialized (runtime_state sys)) then (EDGEPLUG_ERROR_INVALID_PARAM, None)
  else
    let '(_, avg_time, _) := Infer.infer_get_stats (infer sys) in
    (EDGEPLUG_OK,
     Some (avg_time, 16 * 1024 + 1 * 1024 + 1 * 1024 + 512 + 1 * 1024,
           safety_trips (runtime_state sys))).

Definition edgeplug_deinit (sys : system) : system * edgeplug_status_t :=
  if negb (initialized (runtime_state sys)) then (sys, EDGEPLUG_ERROR_INVALID_PARAM)
  else (with_runtime_state sys zero_runtime_state, EDGEPLUG_OK).

Definition edgeplug_get_config (sys : system) : option edgeplug_config_t :=
  if initialized (runtime_state sys) then Some (config (runtime_state sys)) else None.

Definition edgeplug_is_initialized (sys : system) : bool :=
  initialized (runtime_state sys).

Definition edgeplug_get_sensor_count (sys : system) : Z :=
  sensor_count (runtime_state sys).

Definition edgeplug_get_inference_count (sys : system) : Z :=
  inference_count (runtime_state sys).

Definition edgeplug_reset_stats (sys : system) : system * edgeplug_status_t :=
  if negb (initialized (runtime_state sys)) then (sys, EDGEPLUG_ERROR_INVALID_PARAM)
  else
    let r := runtime_state sys in
    let sys1 := with_runtime_state sys
                  {| config := config r; initialized := initialized r;
                     sensor_count := 0; inference_count := 0; safety_trips := 0 |} in
    let sys2 := with_infer sys1 (fst (Infer.infer_reset_stats (infer sys1))) in
    (with_actuator sys2 (fst (Actuator.actuator_reset_stats (actuator sys2))),
     EDGEPLUG_OK).

(** The entry points that change state, as one step function. *)
Inductive call : Type :=
| CallInit (cfg : option edgeplug_config_t)
| CallLoadAgent (cbor_data : option (list Z)) (manifest : option edgeplug_manifest_t)
| CallProcessSensors (sensor_data : option edgeplug_sensor_data_t) (actuation_cmd : bool)
| CallExecuteActuation (cmd : option edgeplug_actuation_cmd_t)
| CallHotswapAgent (new_agent_cbor : option (list Z))
                   (new_manifest : option edgeplug_manifest_t)
| CallDeinit
| CallResetStats.

Definition step (sys : system) (c : call) : system :=
  match c with
  | CallInit cfg => fst (edgeplug_init cfg sys)
  | CallLoadAgent d m => fst (edgeplug_load_agent d m sys)
  | CallProcessSensors s out => fst (fst (edgeplug_process_sensors s out sys))
  | CallExecuteActuation cmd => fst (edgeplug_execute_actuation cmd sys)
  | CallHotswapAgent d m => fst (edgeplug_hotswap_agent d m sys)
  | CallDeinit => fst (edgeplug_deinit sys)
  | CallResetStats => fst (edgeplug_reset_stats sys)
  end.

Definition run (sys : system) (calls : list call) : system := foldl step sys calls.

(** A run of [edgeplug_process_sensors] calls, one per sample. *)
Definition process_samples (samples : list edgeplug_sensor_data_t) (sys : system)
  : system :=
  foldl (fun acc s => fst (fst (edgeplug_process_sensors (Some s) true acc)))
        sys samples.

End WithTimers.

End Facade.

(* ------------------------------------------------------------------ *)
(** ** SHA-512 (FIPS 180-4): the reference digest *)
(* ------------------------------------------------------------------ *)

(** Reference definition, written from FIPS 180-4, which the specification
    (4.1) names for [sha512]; it is NOT a translation of the loader's
    [calculate_hash] and serves only to compare that function with the
    digest the manifest is meant to carry. *)
Module Sha512.

(** The round constants (also the table [K] of crypto_impl.c). *)
Definition K : list Z := [
  0x428a2f98d728ae22; 0x7137449123ef65cd; 0xb5c0fbcfec4d3b2f; 0xe9b5dba58189dbbc;
  0x3956c25bf348b538; 0x59f111f1b605d019; 0x923f82a4af194f9b; 0xab1c5ed5da6d8118;
  0xd807aa98a3030242; 0x12835b0145706fbe; 0x243185be4ee4b28c; 0x550c7dc3d5ffb4e2;
  0x72be5d74f27b896f; 0x80deb1fe3b1696b1; 0x9bdc06a725c71235; 0xc19bf174cf692694;
  0xe49b69c19ef14ad2; 0xefbe4786384f25e3; 0x0fc19dc68b8cd5b5; 0x240ca1cc77ac9c65;
  0x2de92c6f592b0275; 0x4a7484aa6ea6e483; 0x5cb0a9dcbd41fbd4; 0x76f988da831153b5;
  0x983e5152ee66dfab; 0xa831c66d2db43210; 0xb00327c898fb213f; 0xbf597fc7beef0ee4;
  0xc6e00bf33da88fc2; 0xd5a79147930aa725; 0x06ca6351e003826f; 0x142929670a0e6e70;
  0x27b70a8546d22ffc; 0x2e1b21385c26c926; 0x4d2c6dfc5ac42aed; 0x53380d139d95b3df;
  0x650a73548baf63de; 0x766a0abb3c77b2a8; 0x81c2c92e47edaee6; 0x92722c851482353b;
  0xa2bfe8a14cf10364; 0xa81a664bbc423001; 0xc24b8b70d0f89791; 0xc76c51a30654be30;
  0xd192e819d6ef5218; 0xd69906245565a910; 0xf40e35855771202a; 0x106aa07032bbd1b8;
  0x19a4c116b8d2d0c8; 0x1e376c085141ab53; 0x2748774cdf8eeb99; 0x34b0bcb5e19b48a8;
  0x391c0cb3c5c95a63; 0x4ed8aa4ae3418acb; 0x5b9cca4f7763e373; 0x682e6ff3d6b2b8a3;
  0x748f82ee5defb2fc; 0x78a5636f43172f60; 0x84c87814a1f0ab72; 0x8cc702081a6439ec;
  0x90befffa23631e28; 0xa4506cebde82bde9; 0xbef9a3f7b2c67915; 0xc67178f2e372532b;
  0xca273eceea26619c; 0xd186b8c721c0c207; 0xeada7dd6cde0eb1e; 0xf57d4f7fee6ed178;
  0x06f067aa72176fba; 0x0a637dc5a2c898a6; 0x113f9804bef90dae; 0x1b710b35131c471b;
  0x28db77f523047d84; 0x32caab7b40c72493; 0x3c9ebe0a15c9bebc; 0x431d67c49c100d4c;
  0x4cc5d4becb3e42b6; 0x597f299cfc657e2a; 0x5fcb6fab3ad6faec; 0x6c44198c4a475817 ].

Definition H0 : list Z := [
  0x6a09e667f3bcc908; 0xbb67ae8584caa73b; 0x3c6ef372fe94f82b; 0xa54ff53a5f1d36f1;
  0x510e527fade682d1; 0x9b05688c2b3e6c1f; 0x1f83d9abfb41bd6b; 0x5be0cd19137e2179 ].

Definition w64 (x : Z) : Z := x mod 2 ^ 64.
Definition rotr (n x : Z) : Z := Z.lor (Z.shiftr x n) (w64 (Z.shiftl x (64 - n))).
Definition small_sigma0 (x : Z) : Z :=
  Z.lxor (Z.lxor (rotr 1 x) (rotr 8 x)) (Z.shiftr x 7).
Definition small_sigma1 (x : Z) : Z :=
  Z.lxor (Z.lxor (rotr 19 x) (rotr 61 x)) (Z.shiftr x 6).
Definition big_sigma0 (x : Z) : Z :=
  Z.lxor (Z.lxor (rotr 28 x) (rotr 34 x)) (rotr 39 x).
Definition big_sigma1 (x : Z) : Z :=
  Z.lxor (Z.lxor (rotr 14 x) (rotr 18 x)) (rotr 41 x).
Definition ch (x y z : Z) : Z :=
  Z.lxor (Z.land x y) (Z.land (Z.lxor x (2 ^ 64 - 1)) z).
Definition maj (x y z : Z) : Z :=
  Z.lxor (Z.lxor (Z.land x y) (Z.land x z)) (Z.land y z).

(** Big-endian value of a byte string. *)
Definition be_value (bytes : list Z) : Z :=
  foldl (fun acc b => acc * 256 + b) 0 bytes.

(** The [n]-byte big-endian encoding of [x]. *)
Definition be_bytes (n : nat) (x : Z) : list Z :=
  map (fun i => (x / 256 ^ Z.of_nat (n - 1 - i)) mod 256) (seq 0 n).

(** Message padding: 0x80, zeros up to 112 mod 128, the 128-bit bit length. *)
Definition pad (msg : list Z) : list Z :=
  let len := Z.of_nat (length msg) in
  let zeros := Z.to_nat ((112 - (len + 1)) mod 128) in
  msg ++ [0x80] ++ replicate zeros 0 ++ be_bytes 16 (8 * len).

(** The 80-word message schedule of one 128-byte block, W_79 first. *)
Fixpoint extend (n : nat) (rev_w : list Z) : list Z :=
  match n with
  | O => rev_w
  | S n' =>
      let w := w64 (small_sigma1 (nth 1 rev_w 0) + nth 6 rev_w 0
                    + small_sigma0 (nth 14 rev_w 0) + nth 15 rev_w 0) in
      extend n' (w :: rev_w)
  end.

Fixpoint words (n : nat) (block : list Z) : list Z :=
  match n with
  | O => []
  | S n' => be_value (take 8 block) :: words n' (drop 8 block)
  end.

Definition schedule (block : list Z) : list Z :=
  rev (extend 64 (rev (words 16 block))).

Definition round (v : list Z) (kw : Z * Z) : list Z :=
  match v with
  | [a; b; c; d; e; f; g; h] =>
      let t1 := w64 (h + big_sigma1 e + ch e f g + fst kw + snd kw) in
      let t2 := w64 (big_sigma0 a + maj a b c) in
      [w64 (t1 + t2); a; b; c; w64 (d + t1); e; f; g]
  | _ => v
  end.

Definition compress (h : list Z) (block : list Z) : list Z :=
  let v := foldl round h (zip K (schedule block)) in
  zip_with (fun x y => w64 (x + y)) h v.

Fixpoint blocks (n : nat) (bytes : list Z) : list (list Z) :=
  match n with
  | O => []
  | S n' => take 128 bytes :: blocks n' (drop 128 bytes)
  end.

Definition sha512 (msg : list Z) : list Z :=
  let padded := pad msg in
  let h := foldl compress H0 (blocks (length padded / 128) padded) in
  concat (map (be_bytes 8) h).

End Sha512.

(* ================================================================== *)
(** * Part II: lemmas and theorems                                     *)
(* ================================================================== *)

Section Conversions.

(** The float-to-integer conversions at and outside their range: [5.9f]
    and [-5.9f] lose their fraction; NaN, an infinity and [1e10f] give
    [INT32_MIN], of which [(uint16_t)] keeps the low half, 0; [-1.0f]
    becomes 65535 as a [uint16_t]. *)
Example float_to_integer_conversions :
  f32_trunc (S754_finite false 12373197 (-21)) = 5 /\
  f32_trunc (S754_finite true 12373197 (-21)) = -5 /\
  f32_trunc S754_nan = INT32_MIN /\
  f32_trunc (S754_infinity false) = INT32_MIN /\
  f32_trunc (S754_finite false 9765625 10) = INT32_MIN /\
  f32_to_u16 (S754_finite false 9765625 10) = 0 /\
  f32_to_u16 (f32_of_Z (-1)) = 65535 /\
  f32_to_u16 (f32_of_Z 3) = 3.
Proof. repeat split; vm_compute; reflexivity. Qed.

End Conversions.

Section PreprocessFacts.
Import Preprocess.

(** The ring index and the [full] flag after a run of insertions, started
    anywhere inside the window. *)
Lemma add_samples_ready (samples : list edgeplug_sensor_data_t) :
  forall st : state,
    0 <= window_index st < window_size st ->
    window_size st <= MAX_WINDOW_SIZE ->
    let st' := add_samples samples st in
    window_size st' = window_size st /\
    0 <= window_index st' < window_size st /\
    (Z.of_nat (length samples) < window_size st - window_index st ->
       window_index st' = window_index st + Z.of_nat (length samples) /\
       window_full st' = window_full st) /\
    (window_size st - window_index st <= Z.of_nat (length samples) ->
       window_full st' = true).
Proof.
  induction samples as [|s samples IH]; intros st Hidx Hmax.
  - cbn. repeat split; try lia.
  - cbn [add_samples foldl length].
    set (st1 := fst (preprocess_add_sample (Some s) st)).
    assert (Hsz : window_size st1 = window_size st) by reflexivity.
    assert (Hu : u32 (window_index st + 1) = window_index st + 1).
    { unfold u32, MAX_WINDOW_SIZE in *. apply Z.mod_small. lia. }
    assert (Hi1 : window_index st1 = (window_index st + 1) mod window_size st).
    { subst st1. cbn. now rewrite Hu. }
    assert (Hf1 : window_full st1
                  = if (window_index st + 1) mod window_size st =? 0
                    then true else window_full st).
    { subst st1. cbn. now rewrite Hu. }
    assert (Hr : 0 <= window_index st1 < window_size st1).
    { rewrite Hi1, Hsz. apply Z.mod_pos_bound. lia. }
    specialize (IH st1 Hr ltac:(rewrite Hsz; lia)).
    fold (add_samples samples st1).
    cbv zeta in IH. destruct IH as (IHs & IHi & IHlt & IHge).
    rewrite Hsz in *.
    destruct (Z.eq_dec (window_index st + 1) (window_size st)) as [Hwrap|Hnw].
    + (* this insertion closes the window *)
      assert (Hi0 : window_index st1 = 0).
      { rewrite Hi1, Hwrap. apply Z.mod_same. lia. }
      assert (Hfull1 : window_full st1 = true).
      { rewrite Hf1, Hwrap, Z.mod_same by lia. reflexivity. }
      split; [exact IHs|]. split; [exact IHi|]. split.
      * intros Hlt. rewrite Nat2Z.inj_succ in Hlt. lia.
      * intros _.
        destruct (Z_lt_le_dec (Z.of_nat (length samples))
                              (window_size st - window_index st1)) as [Hl|Hl].
        -- destruct (IHlt Hl) as [_ ->]. exact Hfull1.
        -- exact (IHge Hl).
    + assert (Hi : window_index st1 = window_index st + 1).
      { rewrite Hi1. apply Z.mod_small. lia. }
      assert (Hfull1 : window_full st1 = window_full st).
      { rewrite Hf1, Z.mod_small by lia.
        destruct (Z.eqb_spec (window_index st + 1) 0); [lia | reflexivity]. }
      rewrite Nat2Z.inj_succ.
      split; [exact IHs|]. split; [exact IHi|]. split.
      * intros Hlt. destruct (IHlt ltac:(lia)) as [-> ->]. split; [lia | exact Hfull1].
      * intros Hge. apply IHge. lia.
Qed.

(** C8.  After [preprocess_init W] with 1 <= W <= 256, and likewise after
    [preprocess_reset] in a state configured for such a W, the readiness
    flag read by [preprocess_is_window_ready] after [n] insertions is
    exactly [W <= n]: false while fewer than W samples were inserted, true
    right after the W-th, and true after every later insertion. *)
Theorem window_ready_after_W_samples (W : Z) (st : state)
    (samples : list edgeplug_sensor_data_t) :
  1 <= W <= 256 ->
  snd (preprocess_init W st) = EDGEPLUG_OK /\
  preprocess_is_window_ready (add_samples samples (fst (preprocess_init W st)))
    = (W <=? Z.of_nat (length samples)) /\
  (window_size st = W ->
   preprocess_is_window_ready (add_samples samples (fst (preprocess_reset st)))
     = (W <=? Z.of_nat (length samples))).
Proof.
  intros HW.
  assert (Hinit : preprocess_init W st
                  = ({| window_buffer := replicate WINDOW_BUFFER_SIZE f32_zero;
                        window_index := 0; window_size := W; window_full := false;
                        filter_alpha := filter_alpha st;
                        filtered_voltage := filtered_voltage st |}, EDGEPLUG_OK)).
  { unfold preprocess_init, MAX_WINDOW_SIZE.
    destruct (Z.eqb_spec W 0); [lia|].
    destruct (Z.ltb_spec 256 W); [lia|]. reflexivity. }
  assert (Hfrom0 : forall st0, window_index st0 = 0 -> window_size st0 = W ->
            window_full st0 = false ->
            preprocess_is_window_ready (add_samples samples st0)
            = (W <=? Z.of_nat (length samples))).
  { intros st0 Hi Hs Hf.
    destruct (add_samples_ready samples st0) as (_ & _ & Hlt & Hge).
    - rewrite Hi, Hs. lia.
    - rewrite Hs. unfold MAX_WINDOW_SIZE. lia.
    - unfold preprocess_is_window_ready. rewrite Hi, Hs in *.
      destruct (Z.leb_spec W (Z.of_nat (length samples))) as [Hle|Hgt].
      + apply Hge. lia.
      + destruct (Hlt ltac:(lia)) as [_ ->]. exact Hf. }
  rewrite Hinit. cbn [fst snd].
  split; [reflexivity|]. split.
  - now apply Hfrom0.
  - intros Hsz. now apply Hfrom0.
Qed.

Lemma window_ready_after_W_samples_witness :
  let s := {| voltage := f32_of_Z 100; current := f32_one;
              timestamp := 0; quality := 100 |} in
  preprocess_is_window_ready
    (add_samples [s; s; s] (fst (preprocess_init 4 initial_state))) = false /\
  preprocess_is_window_ready
    (add_samples [s; s; s; s] (fst (preprocess_init 4 initial_state))) = true.
Proof.
  intros s. split.
  - exact (proj1 (proj2 (window_ready_after_W_samples 4 initial_state [s; s; s]
                           ltac:(lia)))).
  - exact (proj1 (proj2 (window_ready_after_W_samples 4 initial_state [s; s; s; s]
                           ltac:(lia)))).
Defined.

Lemma low_pass_trace_length (alpha prev : spec_float) (vs : list spec_float) :
  length (low_pass_trace alpha prev vs) = length vs.
Proof.
  revert prev. induction vs as [|v vs IH]; intros prev; cbn; [reflexivity|].
  now rewrite IH.
Qed.

Lemma default_last_cons (d x : spec_float) (l : list spec_float) :
  default d (last (x :: l)) = default x (last l).
Proof.
  revert d x. induction l as [|y l IH]; intros d x; [reflexivity|].
  change (last (x :: y :: l)) with (last (y :: l)).
  now rewrite (IH d y), (IH x y).
Qed.

(** The recurrence over two stretches of samples: the second continues
    from the last output of the first. *)
Lemma low_pass_trace_app (alpha prev : spec_float) (l1 l2 : list spec_float) :
  low_pass_trace alpha prev (l1 ++ l2)
  = low_pass_trace alpha prev l1
    ++ low_pass_trace alpha (default prev (last (low_pass_trace alpha prev l1))) l2.
Proof.
  revert prev. induction l1 as [|x l1 IH]; intros prev; cbn [app low_pass_trace].
  - reflexivity.
  - rewrite IH. cbn [app]. now rewrite default_last_cons.
Qed.

Lemma low_pass_trace_snoc (alpha prev : spec_float) (vs : list spec_float)
    (v : spec_float) :
  low_pass_trace alpha prev (vs ++ [v])
  = low_pass_trace alpha prev vs
    ++ [low_pass alpha v (default prev (last (low_pass_trace alpha prev vs)))].
Proof. apply low_pass_trace_app. Qed.

(** The window is in order in every state the public functions produce
    from the initial one: the ring index inside a window of at most 256
    cells, the buffer at its declared length.  ([window_sz] is a
    [uint32_t], hence not negative.) *)
Lemma window_in_order_kept (st : state) :
  window_in_order initial_state /\
  (window_in_order st ->
   forall (W : Z) (d : option edgeplug_sensor_data_t) (alpha : spec_float),
     0 <= W ->
     window_in_order (fst (preprocess_init W st)) /\
     window_in_order (fst (preprocess_add_sample d st)) /\
     window_in_order (fst (preprocess_set_filter alpha st)) /\
     window_in_order (fst (preprocess_reset st))).
Proof.
  split.
  { unfold window_in_order.
    cbn [initial_state window_index window_size window_buffer].
    rewrite length_replicate. unfold MAX_WINDOW_SIZE. lia. }
  intros (Hidx & Hmax & Hlen) W d alpha HW.
  split; [|split; [|split]].
  - unfold preprocess_init.
    destruct (Z.eqb_spec W 0) as [|HW0]; cbn [orb fst]; [repeat split; lia|].
    destruct (Z.ltb_spec MAX_WINDOW_SIZE W); cbn [fst]; [repeat split; lia|].
    unfold window_in_order. cbn [window_index window_size window_buffer].
    rewrite length_replicate. repeat split; lia.
  - destruct d as [s|]; cbn [preprocess_add_sample fst]; [|repeat split; lia].
    unfold window_in_order. cbn [window_index window_size window_buffer].
    rewrite length_insert.
    split; [apply Z.mod_pos_bound; lia|]. split; assumption.
  - unfold preprocess_set_filter.
    destruct (_ || _); cbn [fst]; repeat split; cbn [window_index window_size
      window_buffer]; lia.
  - unfold window_in_order.
    cbn [preprocess_reset fst window_index window_size window_buffer].
    rewrite length_replicate. repeat split; lia.
Qed.

(** The state after a run of insertions, started in any state whose window
    is in order. *)
Lemma add_samples_from (samples : list edgeplug_sensor_data_t) (st : state) :
  window_in_order st ->
  let st' := add_samples samples st in
  window_size st' = window_size st /\
  filter_alpha st' = filter_alpha st /\
  window_index st' = (window_index st + Z.of_nat (length samples)) mod window_size st /\
  length (window_buffer st') = WINDOW_BUFFER_SIZE /\
  filtered_voltage st'
  = default (filtered_voltage st)
      (last (low_pass_trace (filter_alpha st) (filtered_voltage st)
               (map voltage samples))).
Proof.
  intros (Hidx & Hmax & Hlen). induction samples as [|s samples IH] using rev_ind.
  - cbn. rewrite Z.add_0_r, Z.mod_small by lia. repeat split; try reflexivity. exact Hlen.
  - cbv zeta in IH |- *. destruct IH as (Hsz & Hal & Hi & Hl & Hfv).
    unfold add_samples in *. rewrite foldl_app. cbn [foldl].
    set (st1 := foldl _ st samples) in *.
    rewrite map_app. cbn [map]. rewrite low_pass_trace_snoc, last_snoc.
    rewrite length_app. cbn [length].
    cbn [preprocess_add_sample fst window_size filter_alpha window_index
         window_buffer filtered_voltage].
    rewrite Hsz, Hal, Hi, Hfv.
    assert (Hcell : 0 <= (window_index st + Z.of_nat (length samples)) mod window_size st
                    < window_size st) by (apply Z.mod_pos_bound; lia).
    assert (Hu : u32 ((window_index st + Z.of_nat (length samples)) mod window_size st + 1)
                 = (window_index st + Z.of_nat (length samples)) mod window_size st + 1).
    { unfold u32, MAX_WINDOW_SIZE in *. apply Z.mod_small. lia. }
    rewrite Hu.
    split; [reflexivity|]. split; [reflexivity|].
    split.
    { rewrite Z.add_mod_idemp_l by lia. f_equal. lia. }
    split; [now rewrite length_insert|]. reflexivity.
Qed.

(** C7 (amended).  Every insertion, at any point of any sequence.  Let the
    window be in order (as it is in every state reached from program
    start).  For every sequence of samples and every position [k] in it,
    the call that inserts the [k]-th sample computes
    [filtered = alpha * voltage + (1 - alpha) * prev_filtered], where
    [prev_filtered] is the value [filtered_voltage] holds before that call:
    the output of the previous insertion, and for [k = 0] whatever the
    static held before the sequence.  It writes [filtered] into the cell
    the ring index points at and keeps it as the next [prev_filtered]; the
    values written are the low-pass recurrence over the voltages.  Neither
    [preprocess_init] nor [preprocess_reset] changes [filtered_voltage],
    and at program start it is [0.0f]: no sample initializes it. *)
Theorem add_sample_filters_from_previous_output (st : state)
    (samples : list edgeplug_sensor_data_t) :
  window_in_order st ->
  (forall (k : nat) (s : edgeplug_sensor_data_t),
     samples !! k = Some s ->
     let before := add_samples (take k samples) st in
     let after := add_samples (take (S k) samples) st in
     let filtered := low_pass (filter_alpha st) (voltage s) (filtered_voltage before) in
     after = fst (preprocess_add_sample (Some s) before) /\
     window_index before = (window_index st + Z.of_nat k) mod window_size st /\
     window_buffer after !! Z.to_nat (window_index before) = Some filtered /\
     filtered_voltage after = filtered /\
     low_pass_trace (filter_alpha st) (filtered_voltage st) (map voltage samples) !! k
     = Some filtered) /\
  (forall W, filtered_voltage (fst (preprocess_init W st)) = filtered_voltage st) /\
  filtered_voltage (fst (preprocess_reset st)) = filtered_voltage st /\
  filtered_voltage initial_state = f32_zero.
Proof.
  intros Horder. split; [|split; [|split; reflexivity]].
  2:{ intros W. unfold preprocess_init. now destruct (_ || _). }
  intros k s Hk. cbv zeta.
  assert (Hklen : (k < length samples)%nat) by (eapply lookup_lt_Some; exact Hk).
  destruct (add_samples_from (take k samples) st Horder)
    as (Hsz & Hal & Hi & Hl & Hfv).
  destruct Horder as (Hidx & Hmax & Hlen).
  rewrite length_take, Nat.min_l in Hi by lia.
  assert (Hafter : add_samples (take (S k) samples) st
                   = fst (preprocess_add_sample (Some s) (add_samples (take k samples) st))).
  { rewrite (take_S_r _ _ _ Hk). unfold add_samples. now rewrite foldl_app. }
  rewrite Hafter.
  set (before := add_samples (take k samples) st) in *.
  assert (Hcell : 0 <= window_index before < window_size st).
  { rewrite Hi. apply Z.mod_pos_bound. lia. }
  split; [reflexivity|]. split; [exact Hi|].
  cbn [preprocess_add_sample fst window_buffer filtered_voltage]. rewrite Hal.
  split.
  { apply list_lookup_insert_eq. rewrite Hl.
    unfold WINDOW_BUFFER_SIZE, MAX_WINDOW_SIZE in *. lia. }
  split; [reflexivity|].
  rewrite <- (take_drop_middle samples k s Hk) at 1.
  rewrite map_app, low_pass_trace_app. cbn [map low_pass_trace].
  rewrite lookup_app_r; rewrite low_pass_trace_length, length_map, length_take, Nat.min_l
    by lia; [|lia].
  rewrite Nat.sub_diag. cbn [lookup list_lookup]. now rewrite Hfv.
Qed.

(** Two samples of 100.0 V at program start: the first cell receives the
    filter step from 0.0, the second the step from the first output. *)
Lemma add_sample_filters_from_previous_output_witness :
  let s := {| voltage := f32_of_Z 100; current := f32_one;
              timestamp := 0; quality := 100 |} in
  let first := fst (preprocess_add_sample (Some s) initial_state) in
  window_buffer first !! 0%nat = Some (low_pass f32_0_1 (f32_of_Z 100) f32_zero) /\
  window_buffer (add_samples [s; s] initial_state) !! 1%nat
  = Some (low_pass f32_0_1 (f32_of_Z 100) (filtered_voltage first)).
Proof.
  intros s first.
  pose proof (add_sample_filters_from_previous_output initial_state [s; s]
                (proj1 (window_in_order_kept initial_state))) as [H _].
  split.
  - exact (proj1 (proj2 (proj2 (H 0%nat s eq_refl)))).
  - exact (proj1 (proj2 (proj2 (H 1%nat s eq_refl)))).
Defined.

(** C7, the claim as stated fails: with the default coefficient 0.1f the
    first sample of 100.0 V puts 10.0 into the window, not 100.0. *)
Lemma first_sample_is_filtered_from_zero :
  let s := {| voltage := f32_of_Z 100; current := f32_one;
              timestamp := 0; quality := 100 |} in
  window_buffer (fst (preprocess_add_sample (Some s) initial_state)) !! 0%nat
  = Some (f32_of_Z 10)
  /\ f32_of_Z 10 <> voltage s.
Proof.
  intros s. split.
  - vm_compute. reflexivity.
  - vm_compute. discriminate.
Qed.

End PreprocessFacts.

Section HotswapFacts.
Import Hotswap.

Variable SLOT_MAGIC : Z.

(** Every return path of [hotswap_update_agent] that is taken with the flag
    clear leaves it clear. *)
Lemma update_agent_clears_flag (w : world)
    (d : option (list Z)) (m : option edgeplug_manifest_t) :
  update_in_progress (hotswap_state w) = 0 ->
  update_in_progress (hotswap_state (fst (hotswap_update_agent SLOT_MAGIC w d m))) = 0.
Proof.
  intros Hflag. unfold hotswap_update_agent.
  destruct d as [data|], m as [mf|]; try exact Hflag.
  rewrite Hflag. cbn [Z.eqb negb get_system_time_ms].
  match goal with
  | |- context [write_agent_to_slot ?g ?w2 ?s ?d ?m] =>
      destruct (write_agent_to_slot g w2 s d m) as [w3 status] eqn:Hw
  end.
  destruct (negb (status_eqb status EDGEPLUG_OK)); [reflexivity|].
  destruct (negb (validate_agent_slot SLOT_MAGIC w3 _)); reflexivity.
Qed.

Lemma step_keeps_flag_clear (w : world) (op : operation) :
  update_in_progress (hotswap_state w) = 0 ->
  update_in_progress (hotswap_state (step SLOT_MAGIC w op)) = 0.
Proof.
  intros Hflag. destruct op as [|d m| | |slot]; cbn [step].
  - unfold hotswap_init.
    repeat match goal with
           | |- context [if ?b then _ else _] => destruct b
           end; reflexivity.
  - now apply update_agent_clears_flag.
  - unfold hotswap_rollback.
    destruct (negb (validate_agent_slot SLOT_MAGIC w (get_inactive_slot w)));
      exact Hflag.
  - unfold hotswap_watchdog_check. rewrite Hflag. exact Hflag.
  - unfold hotswap_clear_slot. destruct (1 <? slot); exact Hflag.
Qed.

(** C10.  Starting from the zero-initialized statics, over any flash
    contents, [update_in_progress] is clear after every public hot-swap
    operation of every call sequence: no caller observes the engine
    mid-update. *)
Theorem update_flag_clear_between_calls (a b : slot_t) (ops : list operation) :
  update_in_progress (hotswap_state (run SLOT_MAGIC (initial_world a b) ops)) = 0
  /\ hotswap_is_update_in_progress (run SLOT_MAGIC (initial_world a b) ops) = false.
Proof.
  assert (H : update_in_progress
                (hotswap_state (run SLOT_MAGIC (initial_world a b) ops)) = 0).
  { unfold run. induction ops as [|op ops IH] using rev_ind.
    - reflexivity.
    - rewrite foldl_app. cbn [foldl]. now apply step_keeps_flag_clear. }
  split; [exact H|].
  unfold hotswap_is_update_in_progress. now rewrite H.
Qed.

Lemma read_back_written (bytes : list Z) (old : nat -> Z) :
  map (write_payload bytes old) (seq 0 (length bytes)) = bytes.
Proof.
  revert old. induction bytes as [|b bytes IH]; intros old; [reflexivity|].
  cbn [length seq map]. f_equal.
  rewrite <- fmap_S_seq, <- list_fmap_compose.
  exact (IH (fun i => old (S i))).
Qed.

(** [write_agent_to_slot] on one of the two slots, with both pointers given. *)
Lemma write_agent_to_slot_result (w : world) (slot : Z) (bytes : list Z)
    (mf : edgeplug_manifest_t) :
  slot = 0 \/ slot = 1 ->
  write_agent_to_slot SLOT_MAGIC w slot (Some bytes) (Some mf)
  = if MAX_PAYLOAD <? Z.of_nat (length bytes) then (w, EDGEPLUG_ERROR_MEMORY)
    else
      ({| hotswap_state := hotswap_state w;
          crc32_table := crc32_table w;
          time_counter := u32 (time_counter w + 1);
          slot_a := if slot =? 0
                    then {| payload := write_payload bytes (payload (slot_a w));
                            metadata :=
                              {| magic := SLOT_MAGIC;
                                 version := Runtime.version mf;
                                 size := Z.of_nat (length bytes);
                                 crc32 := calculate_crc32 (crc32_table w) bytes;
                                 timestamp := time_counter w;
                                 signature := copy_bytes 64 (Runtime.signature mf);
                                 reserved := replicate 32 0 |} |}
                    else slot_a w;
          slot_b := if slot =? 0 then slot_b w
                    else {| payload := write_payload bytes (payload (slot_b w));
                            metadata :=
                              {| magic := SLOT_MAGIC;
                                 version := Runtime.version mf;
                                 size := Z.of_nat (length bytes);
                                 crc32 := calculate_crc32 (crc32_table w) bytes;
                                 timestamp := time_counter w;
                                 signature := copy_bytes 64 (Runtime.signature mf);
                                 reserved := replicate 32 0 |} |} |},
       EDGEPLUG_OK).
Proof.
  intros [-> | ->]; unfold write_agent_to_slot;
    destruct (MAX_PAYLOAD <? Z.of_nat (length bytes)); reflexivity.
Qed.

Lemma inactive_slot_cases (w : world) :
  (active_slot (hotswap_state w) = 0 /\ get_inactive_slot w = 1) \/
  (active_slot (hotswap_state w) <> 0 /\ get_inactive_slot w = 0).
Proof.
  unfold get_inactive_slot.
  destruct (Z.eqb_spec (active_slot (hotswap_state w)) 0); [left | right]; easy.
Qed.

(** X30.  The lifecycle engine's staging operation and its accessor: when
    [hotswap_update_agent] returns [EDGEPLUG_OK] the bytes handed out by
    [hotswap_get_active_agent] are exactly the staged image, and when it
    returns an error they are what they were before the call. *)
Lemma hotswap_update_agent_outcome (w : world) (d : option (list Z))
    (m : option edgeplug_manifest_t) :
  let '(w', status) := hotswap_update_agent SLOT_MAGIC w d m in
  (status = EDGEPLUG_OK ->
     exists bytes, d = Some bytes /\ active_payload w' = Some bytes) /\
  (status <> EDGEPLUG_OK ->
     hotswap_get_active_agent w' = hotswap_get_active_agent w /\
     active_payload w' = active_payload w).
Proof.
  unfold hotswap_update_agent.
  destruct d as [bytes|], m as [mf|];
    try (cbv beta iota; split; [discriminate | intros _; split; reflexivity]).
  destruct (update_in_progress (hotswap_state w) =? 0); cbn [negb];
    [|cbv beta iota; split; [discriminate | intros _; split; reflexivity]].
  cbn [get_system_time_ms].
  set (w2 := with_state _ _).
  assert (Hslot : get_inactive_slot w2 = get_inactive_slot w) by reflexivity.
  rewrite Hslot.
  rewrite write_agent_to_slot_result
    by (destruct (inactive_slot_cases w) as [[_ ->]|[_ ->]]; auto).
  destruct (MAX_PAYLOAD <? Z.of_nat (length bytes)).
  { cbn [status_eqb negb]. split; [discriminate | intros _].
    split; reflexivity. }
  cbn [status_eqb negb].
  match goal with
  | |- context [validate_agent_slot ?g ?w3 ?s] =>
      destruct (validate_agent_slot g w3 s)
  end; cbn [negb get_system_time_ms].
  - split; [intros _ | intros H; now contradiction H].
    exists bytes. split; [reflexivity|].
    unfold active_payload, hotswap_get_active_agent, read_slot_metadata, read_payload.
    destruct (inactive_slot_cases w) as [[_ ->]|[_ ->]]; cbn;
      now rewrite Nat2Z.id, read_back_written.
  - split; [discriminate | intros _].
    unfold active_payload, hotswap_get_active_agent, read_slot_metadata,
      read_payload, slot_of.
    destruct (inactive_slot_cases w) as [[Ha ->]|[Ha ->]]; cbn.
    + rewrite Ha. split; reflexivity.
    + destruct (Z.eqb_spec (active_slot (hotswap_state w)) 0); [contradiction|].
      destruct (1 <? active_slot (hotswap_state w)); split; reflexivity.
Qed.
(** With the flag clear, both pointers given and an image that fits, the
    update goes through: the slot just written always validates. *)
Lemma hotswap_update_agent_succeeds (w : world) (bytes : list Z)
    (mf : edgeplug_manifest_t) :
  update_in_progress (hotswap_state w) = 0 ->
  Z.of_nat (length bytes) <= MAX_PAYLOAD ->
  snd (hotswap_update_agent SLOT_MAGIC w (Some bytes) (Some mf)) = EDGEPLUG_OK.
Proof.
  intros Hflag Hfit. unfold hotswap_update_agent. rewrite Hflag.
  cbn [Z.eqb negb get_system_time_ms].
  set (w2 := with_state _ _).
  assert (Hslot : get_inactive_slot w2 = get_inactive_slot w) by reflexivity.
  rewrite Hslot.
  rewrite write_agent_to_slot_result
    by (destruct (inactive_slot_cases w) as [[_ ->]|[_ ->]]; auto).
  destruct (Z.ltb_spec MAX_PAYLOAD (Z.of_nat (length bytes))) as [|_]; [lia|].
  cbn [status_eqb negb].
  match goal with
  | |- context [validate_agent_slot ?g ?w3 ?s] =>
      assert (Hvalid : validate_agent_slot g w3 s = true)
  end.
  { unfold validate_agent_slot, read_slot_metadata, read_payload, slot_of.
    destruct (inactive_slot_cases w) as [[_ ->]|[_ ->]]; cbn;
      rewrite Z.eqb_refl; cbn [negb];
      (destruct (Z.ltb_spec MAX_PAYLOAD (Z.of_nat (length bytes))); [lia|]);
      rewrite Nat2Z.id, read_back_written, Z.eqb_refl; reflexivity. }
  rewrite Hvalid. reflexivity.
Qed.

(** What [hotswap_init] validates: the slots as found, under the freshly
    built CRC table. *)
Lemma validate_after_init (w : world) (slot : Z) :
  validate_agent_slot SLOT_MAGIC (fst (hotswap_init SLOT_MAGIC w)) slot
  = validate_agent_slot SLOT_MAGIC
      {| hotswap_state := zero_state; crc32_table := init_crc32_table;
         time_counter := time_counter w; slot_a := slot_a w; slot_b := slot_b w |}
      slot.
Proof.
  unfold hotswap_init.
  repeat match goal with
         | |- context [if ?b then _ else _] =>
             lazymatch b with
             | validate_agent_slot _ _ _ => destruct b
             | (_ && _)%bool => destruct b
             end
         end; reflexivity.
Qed.

(** C6 (amended).  When both slots validate and carry equal timestamps,
    [hotswap_init] succeeds and makes slot B (number 1) the active slot:
    slot A is chosen only for a strictly newer timestamp. *)
Theorem init_tie_activates_slot_B (w : world) :
  validate_agent_slot SLOT_MAGIC (fst (hotswap_init SLOT_MAGIC w)) 0 = true ->
  validate_agent_slot SLOT_MAGIC (fst (hotswap_init SLOT_MAGIC w)) 1 = true ->
  timestamp (metadata (slot_a w)) = timestamp (metadata (slot_b w)) ->
  snd (hotswap_init SLOT_MAGIC w) = EDGEPLUG_OK /\
  hotswap_get_active_slot (fst (hotswap_init SLOT_MAGIC w)) = 1.
Proof.
  rewrite !validate_after_init. intros Ha Hb Hts.
  unfold hotswap_init. rewrite Ha, Hb. cbn [andb slot_a slot_b].
  rewrite Hts, Z.ltb_irrefl. split; reflexivity.
Qed.

(** The watchdog's three cases.
    C3 (amended).  With [update_in_progress] set and more than 30000 ms
    (modulo 2^32) since [update_start_time], [hotswap_watchdog_check] clears
    the flag, increments [failed_updates], and performs [hotswap_rollback]:
    the OTHER slot becomes active when it validates, and the active slot
    stays as it was only when the other slot does not validate; counters
    other than [failed_updates], both slots and the CRC table are
    untouched.  With the flag clear nothing at all changes; with the flag
    set and the time not yet exceeded only the clock read is consumed. *)
Theorem watchdog_check_effect (w : world) :
  let s := hotswap_state w in
  let w' := hotswap_watchdog_check SLOT_MAGIC w in
  let elapsed := u32 (time_counter w - update_start_time s) in
  (update_in_progress s <> 0 -> 30000 < elapsed ->
     update_in_progress (hotswap_state w') = 0 /\
     failed_updates (hotswap_state w') = u32 (failed_updates s + 1) /\
     active_slot (hotswap_state w')
       = (if validate_agent_slot SLOT_MAGIC w (get_inactive_slot w)
          then get_inactive_slot w else active_slot s) /\
     update_start_time (hotswap_state w') = update_start_time s /\
     update_attempts (hotswap_state w') = update_attempts s /\
     successful_updates (hotswap_state w') = successful_updates s /\
     last_update_timestamp (hotswap_state w') = last_update_timestamp s /\
     slot_a w' = slot_a w /\ slot_b w' = slot_b w /\
     crc32_table w' = crc32_table w) /\
  (update_in_progress s = 0 -> w' = w) /\
  (update_in_progress s <> 0 -> elapsed <= 30000 ->
     w' = fst (get_system_time_ms w)).
Proof.
  cbv zeta. unfold hotswap_watchdog_check. cbn [get_system_time_ms hotswap_state].
  split; [|split].
  - intros Hflag Hlate.
    destruct (Z.eqb_spec (update_in_progress (hotswap_state w)) 0) as [E|_];
      [contradiction|]. cbn [negb].
    destruct (Z.ltb_spec 30000
                (u32 (time_counter w - update_start_time (hotswap_state w))))
      as [_|Hle]; [|lia].
    unfold hotswap_rollback.
    change (get_inactive_slot
              {| hotswap_state := hotswap_state w; crc32_table := crc32_table w;
                 time_counter := u32 (time_counter w + 1);
                 slot_a := slot_a w; slot_b := slot_b w |})
      with (get_inactive_slot w).
    change (validate_agent_slot SLOT_MAGIC
              {| hotswap_state := hotswap_state w; crc32_table := crc32_table w;
                 time_counter := u32 (time_counter w + 1);
                 slot_a := slot_a w; slot_b := slot_b w |} (get_inactive_slot w))
      with (validate_agent_slot SLOT_MAGIC w (get_inactive_slot w)).
    destruct (validate_agent_slot SLOT_MAGIC w (get_inactive_slot w));
      cbn; repeat split; reflexivity.
  - intros Hflag. rewrite Hflag. reflexivity.
  - intros Hflag Hearly.
    destruct (Z.eqb_spec (update_in_progress (hotswap_state w)) 0) as [E|_];
      [contradiction|]. cbn [negb].
    destruct (Z.ltb_spec 30000
                (u32 (time_counter w - update_start_time (hotswap_state w))))
      as [Hlt|_]; [lia|]. reflexivity.
Qed.

End HotswapFacts.

Section HotswapExamples.
Import Hotswap.

Lemma init_tie_activates_slot_B_witness :
  snd (hotswap_init example_magic tie_world) = EDGEPLUG_OK /\
  hotswap_get_active_slot (fst (hotswap_init example_magic tie_world)) = 1.
Proof.
  apply (init_tie_activates_slot_B example_magic tie_world).
  - vm_compute. reflexivity.
  - vm_compute. reflexivity.
  - reflexivity.
Defined.

(** C6, the claim as stated fails: both slots of [tie_world] validate, their
    timestamps are equal, and [hotswap_init] activates slot B (1), not A (0). *)
Lemma init_tie_does_not_activate_slot_A :
  let w' := fst (hotswap_init example_magic tie_world) in
  hotswap_is_slot_valid example_magic w' 0 = true /\
  hotswap_is_slot_valid example_magic w' 1 = true /\
  timestamp (metadata (slot_a tie_world)) = timestamp (metadata (slot_b tie_world)) /\
  snd (hotswap_init example_magic tie_world) = EDGEPLUG_OK /\
  hotswap_get_active_slot w' = 1 /\
  hotswap_get_active_slot w' <> 0.
Proof.
  cbv zeta. repeat split; try (vm_compute; reflexivity).
  vm_compute. discriminate.
Qed.

(** C3, the claim as stated fails: in [stalled_world] slot A is active, the
    update has been in progress for 31001 ms, and the watchdog's rollback
    hands control to slot B instead of leaving slot A active. *)
Lemma watchdog_expiry_switches_active_slot :
  hotswap_get_active_slot stalled_world = 0 /\
  hotswap_is_update_in_progress stalled_world = true /\
  u32 (time_counter stalled_world
       - update_start_time (hotswap_state stalled_world)) = 31001 /\
  hotswap_get_active_slot (hotswap_watchdog_check example_magic stalled_world) = 1.
Proof. repeat split; vm_compute; reflexivity. Qed.

Lemma watchdog_check_effect_witness :
  update_in_progress (hotswap_state (hotswap_watchdog_check example_magic stalled_world)) = 0
  /\ failed_updates (hotswap_state (hotswap_watchdog_check example_magic stalled_world)) = 1.
Proof.
  pose proof (proj1 (watchdog_check_effect example_magic stalled_world)
                ltac:(cbn; lia) ltac:(vm_compute; reflexivity)) as H.
  split; [exact (proj1 H) | exact (proj1 (proj2 H))].
Defined.

End HotswapExamples.

Section AgentLoaderFacts.
Import AgentLoader.

(** *** The signature check as the loader calls it *)

Lemma verify_signature_without_key (bytes sig : option (list Z)) :
  verify_signature bytes sig None = false.
Proof. destruct bytes, sig; reflexivity. Qed.

(** [agent_loader_load] passes NULL for the public key, so the signature
    check fails for every image that reaches it: no call returns
    [EDGEPLUG_OK], and no call changes the loader's state. *)
Theorem agent_loader_load_rejects_all (st : state) (d : option (list Z))
    (m : option edgeplug_manifest_t) :
  snd (agent_loader_load st d m) <> EDGEPLUG_OK /\
  fst (agent_loader_load st d m) = st.
Proof.
  unfold agent_loader_load.
  destruct d as [bytes|], m as [mf|]; try (split; [discriminate|reflexivity]).
  rewrite verify_signature_without_key. cbn [negb].
  repeat match goal with
         | |- context [if ?b then _ else _] => destruct b
         end; cbn; split; (discriminate || reflexivity).
Qed.






End AgentLoaderFacts.

Section AgentLoaderExamples.
Import AgentLoader.

(** The reference digest reproduces the FIPS 180-4 test vector for "abc". *)
Example sha512_abc :
  map (fun i => Sha512.be_value (take 8 (drop (8 * i) (Sha512.sha512 [0x61; 0x62; 0x63]))))
      (seq 0 8)
  = [0xddaf35a193617aba; 0xcc417349ae204131; 0x12e6fa4e89a97ea2; 0x0a9eeee64b55d39a;
     0x2192992a274fc1a8; 0x36ba3c23a3feebbd; 0x454d4423643ce80e; 0x2a9ac94fa54ca49f].
Proof. vm_compute. reflexivity. Qed.

Example sha512_empty :
  map (fun i => Sha512.be_value (take 8 (drop (8 * i) (Sha512.sha512 []))))
      (seq 0 8)
  = [0xcf83e1357eefb8bd; 0xf1542850d66d8007; 0xd620e4050b5715dc; 0x83f4a921d36ce9ce;
     0x47d0d13c5d85f2b0; 0xff8318d2877eec2f; 0x63b931bd47417a81; 0xa538327af927da3e].
Proof. vm_compute. reflexivity. Qed.



(** The digest the loader compares is not SHA-512.  For the complete
    envelope [envelope_full]:
    - [calculate_hash] returns the image XOR 0xAA padded with zeros, which
      is not its SHA-512 digest;
    - a manifest carrying that placeholder value passes the loader's hash
      comparison although its [hash] is not the SHA-512 digest of the image,
      and the call is then turned down by the signature check;
    - a manifest carrying the SHA-512 digest fails the hash comparison;
    - the signature check is made with a NULL public key and fails for the
      well-formed non-zero signature.
    Both calls return [EDGEPLUG_ERROR_AGENT_LOAD] and change nothing, so
    the difference cannot be observed through the loader's results. *)
Lemma loader_hash_check_is_not_sha512 :
  let image := envelope_full in
  let placeholder := calculate_hash image in
  let digest := Sha512.sha512 image in
  placeholder = map (fun b => Z.lxor b 0xAA) image ++ replicate 45 0 /\
  placeholder <> digest /\
  memcmp_eq (calculate_hash image) (hash (manifest_for image placeholder)) 64 = true /\
  memcmp_eq (calculate_hash image) (hash (manifest_for image digest)) 64 = false /\
  verify_signature (Some image)
    (Some (signature (manifest_for image placeholder))) None = false /\
  agent_loader_load initial_state (Some image) (Some (manifest_for image placeholder))
    = (initial_state, EDGEPLUG_ERROR_AGENT_LOAD) /\
  agent_loader_load initial_state (Some image) (Some (manifest_for image digest))
    = (initial_state, EDGEPLUG_ERROR_AGENT_LOAD).
Proof.
  cbv zeta. split; [vm_compute; reflexivity|].
  split; [vm_compute; discriminate|].
  repeat split; vm_compute; reflexivity.
Qed.

(** The statements behind the signature check, which no call reaches.  The
    complete envelope, with the digest the loader itself computes and a
    signature that passes the structural check whenever a key is supplied,
    is refused like every other input.  Were it not, [store_agent] would
    copy the image into the slot that is active at that moment and
    [switch_slot] would then make the OTHER slot active, so the accessor
    would hand out that slot's old bytes (here 19 zeros) instead of the
    staged image. *)
Lemma loader_commit_statements_are_unreachable :
  let image := envelope_full in
  let m := manifest_for image (calculate_hash image) in
  memcmp_eq (calculate_hash image) (hash m) 64 = true /\
  verify_signature (Some image) (Some (signature m)) (Some (replicate 32 0x3d)) = true /\
  parse_envelope image = EDGEPLUG_OK /\
  agent_loader_hotswap initial_state (Some image) (Some m)
    = (initial_state, EDGEPLUG_ERROR_AGENT_LOAD) /\
  active_payload (store_agent initial_state image m) = image /\
  active_payload (switch_slot (store_agent initial_state image m))
    = replicate 19 0 /\
  active_payload (switch_slot (store_agent initial_state image m)) <> image.
Proof.
  cbv zeta. repeat split; try (vm_compute; reflexivity).
  vm_compute. discriminate.
Qed.

(** The envelope section taken by itself (lines 354-404, which no call
    reaches).  [envelope_x] is a well-formed map whose only key is "x"; the
    loop sets all three [found_*] flags without looking at the key and the
    section falls through to the slot copy.  The loop bound is overwritten
    by the lengths it parses: [envelope_full] is left after its first pair,
    and the complete envelope [envelope_full4] (four-byte values) is
    refused because a fourth pair is looked for.  An empty map is
    refused. *)
Lemma envelope_section_ignores_keys :
  envelope_keys envelope_x = Some [[0x78]] /\
  parse_envelope envelope_x = EDGEPLUG_OK /\
  parse_components SIZE_BITS (advance (cbor_parser_init envelope_x) 1) 1
    = inr (LoopDone true true true) /\
  envelope_keys envelope_full = Some [key_model; key_prep; key_act] /\
  parse_envelope envelope_full = EDGEPLUG_OK /\
  envelope_keys envelope_full4 = Some [key_model; key_prep; key_act] /\
  parse_envelope envelope_full4 = EDGEPLUG_ERROR_AGENT_LOAD /\
  parse_envelope [0xA0] = EDGEPLUG_ERROR_AGENT_LOAD.
Proof. repeat split; vm_compute; reflexivity. Qed.

End AgentLoaderExamples.

Section ActuatorFacts.
Import Actuator.

Variable timer : nat -> Z.

Lemma finish_timing_frame (st : state) (start_time : Z) :
  sent (fst (finish_timing timer st start_time)) = sent st /\
  opcua_config (fst (finish_timing timer st start_time)) = opcua_config st /\
  modbus_config (fst (finish_timing timer st start_time)) = modbus_config st /\
  gpio_config (fst (finish_timing timer st start_time)) = gpio_config st.
Proof.
  unfold finish_timing. cbn [get_system_time_ms].
  destruct (10 <? _); repeat split; reflexivity.
Qed.

Lemma write_opcua_transfers (node_id : Z) (val : spec_float) (st : state) :
  node_id <> 0 ->
  sent (fst (actuator_write_opcua timer node_id val st))
    = sent st ++ [OpcuaWrite (opcua_request node_id val)] /\
  modbus_config (fst (actuator_write_opcua timer node_id val st)) = modbus_config st /\
  gpio_config (fst (actuator_write_opcua timer node_id val st)) = gpio_config st.
Proof.
  intros Hn. unfold actuator_write_opcua.
  destruct (Z.eqb_spec node_id 0); [contradiction|].
  cbn [get_system_time_ms opcua_config].
  destruct (find_or_add _ _ _ _ _ _) as [[ids vals] count].
  match goal with
  | |- context [finish_timing timer ?s ?t] =>
      destruct (finish_timing_frame s t) as (-> & _ & -> & ->)
  end.
  repeat split; reflexivity.
Qed.

Lemma write_modbus_transfers (address val : Z) (st : state) :
  address <> 0 ->
  sent (fst (actuator_write_modbus timer address val st))
    = sent st ++ [ModbusWrite (modbus_frame (slave_id (modbus_config st)) address val)] /\
  gpio_config (fst (actuator_write_modbus timer address val st)) = gpio_config st.
Proof.
  intros Hn. unfold actuator_write_modbus.
  destruct (Z.eqb_spec address 0); [contradiction|].
  cbn [get_system_time_ms modbus_config].
  destruct (find_or_add _ _ _ _ _ _) as [[addrs vals] count].
  match goal with
  | |- context [finish_timing timer ?s ?t] =>
      destruct (finish_timing_frame s t) as (-> & _ & _ & ->)
  end.
  split; reflexivity.
Qed.

Lemma write_gpio_transfers (pin pin_state : Z) (st : state) :
  snd (actuator_write_gpio timer pin pin_state st) = EDGEPLUG_OK ->
  sent (fst (actuator_write_gpio timer pin pin_state st))
    = sent st ++ [GpioWrite pin pin_state].
Proof.
  unfold actuator_write_gpio.
  destruct ((MAX_GPIO_PINS <=? pin) || (1 <? pin_state)); [discriminate|].
  destruct (negb (initialized (gpio_config st))); [discriminate|].
  cbn [get_system_time_ms gpio_config].
  destruct (find_or_add _ _ _ _ _ _) as [[pins states] count].
  intros _.
  match goal with
  | |- context [finish_timing timer ?s ?t] =>
      destruct (finish_timing_frame s t) as (-> & _)
  end.
  reflexivity.
Qed.

Lemma status_eqb_ok (status : edgeplug_status_t) :
  status_eqb status EDGEPLUG_OK = true <-> status = EDGEPLUG_OK.
Proof. destruct status; cbn; split; congruence. Qed.

Section WithinBudget.

(** Consecutive reads of the platform timer lie at most 10 ms apart, so no
    writer exceeds its budget. *)
Hypothesis in_budget : forall n : nat, u32 (u32 (timer (S n)) - u32 (timer n)) <= 10.

Lemma finish_timing_in_budget (st : state) (n : nat) :
  timer_reads st = S n ->
  snd (finish_timing timer st (u32 (timer n))) = EDGEPLUG_OK.
Proof.
  intros Hreads. unfold finish_timing. cbn [get_system_time_ms]. rewrite Hreads.
  destruct (Z.ltb_spec 10 (u32 (u32 (timer (S n)) - u32 (timer n)))) as [Hslow|];
    [|reflexivity].
  specialize (in_budget n). lia.
Qed.

Lemma write_opcua_in_budget (node_id : Z) (val : spec_float) (st : state) :
  node_id <> 0 ->
  snd (actuator_write_opcua timer node_id val st) = EDGEPLUG_OK.
Proof.
  intros Hn. unfold actuator_write_opcua.
  destruct (Z.eqb_spec node_id 0); [contradiction|].
  cbn [get_system_time_ms opcua_config].
  destruct (find_or_add _ _ _ _ _ _) as [[ids vals] count].
  now apply finish_timing_in_budget.
Qed.

Lemma write_modbus_in_budget (address val : Z) (st : state) :
  address <> 0 ->
  snd (actuator_write_modbus timer address val st) = EDGEPLUG_OK.
Proof.
  intros Hn. unfold actuator_write_modbus.
  destruct (Z.eqb_spec address 0); [contradiction|].
  cbn [get_system_time_ms modbus_config].
  destruct (find_or_add _ _ _ _ _ _) as [[addrs vals] count].
  now apply finish_timing_in_budget.
Qed.

Lemma write_gpio_in_budget (pin pin_state : Z) (st : state) :
  pin < MAX_GPIO_PINS -> pin_state <= 1 -> initialized (gpio_config st) = true ->
  snd (actuator_write_gpio timer pin pin_state st) = EDGEPLUG_OK.
Proof.
  intros Hpin Hstate Hinit. unfold actuator_write_gpio.
  destruct (Z.leb_spec MAX_GPIO_PINS pin); [lia|].
  destruct (Z.ltb_spec 1 pin_state); [lia|]. cbn [orb]. rewrite Hinit. cbn [negb].
  cbn [get_system_time_ms gpio_config].
  destruct (find_or_add _ _ _ _ _ _) as [[pins states] count].
  now apply finish_timing_in_budget.
Qed.

(** C4.  What the dispatcher performs.  With the discrete lines
    initialized, a line state of 0 or 1 and no writer over its 10 ms
    budget, [actuator_execute_command] returns [EDGEPLUG_OK] for EVERY
    command, and the transfers it has performed are, in this order: the
    network node write exactly when [opcua_node] is non-zero, the serial
    register write exactly when [modbus_addr] is non-zero, and the discrete
    line write exactly when [gpio_pin < MAX_GPIO_PINS] (8).  Zero is the
    "not addressed" value for the node and the register only: a command
    with [gpio_pin = 0], the all-zero command among them, drives line 0. *)
Theorem execute_command_performs (cmd : edgeplug_actuation_cmd_t) (st : state) :
  initialized (gpio_config st) = true ->
  (gpio_pin cmd < MAX_GPIO_PINS -> gpio_state cmd <= 1) ->
  snd (actuator_execute_command timer (Some cmd) st) = EDGEPLUG_OK /\
  sent (fst (actuator_execute_command timer (Some cmd) st))
  = sent st
    ++ (if opcua_node cmd =? 0 then []
        else [OpcuaWrite (opcua_request (opcua_node cmd) (value cmd))])
    ++ (if modbus_addr cmd =? 0 then []
        else [ModbusWrite (modbus_frame (slave_id (modbus_config st))
                                        (modbus_addr cmd) (f32_to_u16 (value cmd)))])
    ++ (if gpio_pin cmd <? MAX_GPIO_PINS
        then [GpioWrite (gpio_pin cmd) (gpio_state cmd)] else []).
Proof.
  intros Hinit Hstate. unfold actuator_execute_command.
  (* network node *)
  assert (H1 : exists st1,
             (if negb (opcua_node cmd =? 0)
              then actuator_write_opcua timer (opcua_node cmd) (value cmd) st
              else (st, EDGEPLUG_OK)) = (st1, EDGEPLUG_OK) /\
             sent st1 = sent st ++ (if opcua_node cmd =? 0 then []
                 else [OpcuaWrite (opcua_request (opcua_node cmd) (value cmd))]) /\
             modbus_config st1 = modbus_config st /\
             gpio_config st1 = gpio_config st).
  { destruct (Z.eqb_spec (opcua_node cmd) 0) as [E|N]; cbn [negb].
    - exists st. now rewrite app_nil_r.
    - destruct (write_opcua_transfers (opcua_node cmd) (value cmd) st N)
        as (Hs & Hm & Hg).
      pose proof (write_opcua_in_budget (opcua_node cmd) (value cmd) st N) as Hok.
      destruct (actuator_write_opcua timer (opcua_node cmd) (value cmd) st)
        as [st1 status1]. cbn [fst snd] in *. subst status1. now exists st1. }
  destruct H1 as (st1 & -> & Hsent1 & Hmod1 & Hgpio1). cbn [status_eqb negb].
  (* serial register *)
  assert (H2 : exists st2,
             (if negb (modbus_addr cmd =? 0)
              then actuator_write_modbus timer (modbus_addr cmd)
                     (f32_to_u16 (value cmd)) st1
              else (st1, EDGEPLUG_OK)) = (st2, EDGEPLUG_OK) /\
             sent st2 = sent st1 ++ (if modbus_addr cmd =? 0 then []
                 else [ModbusWrite (modbus_frame (slave_id (modbus_config st1))
                          (modbus_addr cmd) (f32_to_u16 (value cmd)))]) /\
             gpio_config st2 = gpio_config st1).
  { destruct (Z.eqb_spec (modbus_addr cmd) 0) as [E|N]; cbn [negb].
    - exists st1. now rewrite app_nil_r.
    - destruct (write_modbus_transfers (modbus_addr cmd)
                  (f32_to_u16 (value cmd)) st1 N) as (Hs & Hg).
      pose proof (write_modbus_in_budget (modbus_addr cmd) (f32_to_u16 (value cmd))
                    st1 N) as Hok.
      destruct (actuator_write_modbus timer (modbus_addr cmd)
                  (f32_to_u16 (value cmd)) st1) as [st2 status2].
      cbn [fst snd] in *. subst status2. now exists st2. }
  destruct H2 as (st2 & -> & Hsent2 & Hgpio2). cbn [status_eqb negb].
  rewrite Hmod1 in Hsent2.
  (* discrete line *)
  destruct (Z.ltb_spec (gpio_pin cmd) MAX_GPIO_PINS) as [Hpin|Hpin].
  - pose proof (write_gpio_in_budget (gpio_pin cmd) (gpio_state cmd) st2 Hpin
                  (Hstate Hpin) ltac:(now rewrite Hgpio2, Hgpio1)) as Hok.
    pose proof (write_gpio_transfers (gpio_pin cmd) (gpio_state cmd) st2 Hok) as Hg.
    destruct (actuator_write_gpio timer (gpio_pin cmd) (gpio_state cmd) st2)
      as [st3 status3]. cbn [fst snd] in *. subst status3. cbn [status_eqb negb fst snd].
    split; [reflexivity|]. rewrite Hg, Hsent2, Hsent1, <- !app_assoc. reflexivity.
  - cbn [status_eqb negb fst snd]. split; [reflexivity|].
    rewrite Hsent2, Hsent1, <- !app_assoc, app_nil_r. reflexivity.
Qed.

End WithinBudget.

End ActuatorFacts.

Section ActuatorExamples.
Import Actuator.

(** The register-write frame for slave 1, register 1, value 3: the
    well-known Modbus RTU frame 01 06 00 01 00 03 98 0B (CRC-16 0x0B98, low
    byte first). *)
Example modbus_frame_vector :
  modbus_frame 1 1 3 = [0x01; 0x06; 0x00; 0x01; 0x00; 0x03; 0x98; 0x0B].
Proof. vm_compute. reflexivity. Qed.

Lemma software_timer_in_budget (n : nat) :
  u32 (u32 (software_timer (S n)) - u32 (software_timer n)) <= 10.
Proof.
  unfold software_timer, u32. rewrite <- Zminus_mod, Nat2Z.inj_succ.
  replace (Z.succ (Z.of_nat n) - Z.of_nat n) with 1 by lia.
  rewrite Z.mod_small by lia. lia.
Qed.

(** The all-zero command after [actuator_init]: the call succeeds and has
    driven discrete line 0 low. *)
Lemma execute_command_performs_witness :
  actuator_execute_command software_timer (Some Facade.zero_command) ready_state
  = (fst (actuator_execute_command software_timer (Some Facade.zero_command) ready_state),
     EDGEPLUG_OK) /\
  sent (fst (actuator_execute_command software_timer (Some Facade.zero_command)
               ready_state))
  = [GpioWrite 0 0].
Proof.
  pose proof (execute_command_performs software_timer software_timer_in_budget
                Facade.zero_command ready_state ltac:(reflexivity)
                ltac:(intros _; cbn; lia)) as [Hs Ht].
  split; [|exact Ht].
  rewrite <- Hs. now destruct (actuator_execute_command _ _ _).
Defined.

(** The discrete write is not guarded by zero: a command with
    [gpio_pin = 0] performs a discrete write (on line 0), and a command with
    the non-zero [gpio_pin = 9] performs none; both calls succeed.  The
    command with all three targets set performs all three transfers. *)
Lemma gpio_write_is_not_guarded_by_zero :
  gpio_pin command_pin0 = 0 /\
  actuator_execute_command software_timer (Some command_pin0) ready_state
    = (fst (actuator_execute_command software_timer (Some command_pin0) ready_state),
       EDGEPLUG_OK) /\
  sent (fst (actuator_execute_command software_timer (Some command_pin0) ready_state))
    = [GpioWrite 0 1] /\
  gpio_level (fst (actuator_execute_command software_timer (Some command_pin0)
                     ready_state)) 0 = Some 1 /\
  gpio_pin command_pin9 <> 0 /\
  snd (actuator_execute_command software_timer (Some command_pin9) ready_state)
    = EDGEPLUG_OK /\
  sent (fst (actuator_execute_command software_timer (Some command_pin9) ready_state))
    = [] /\
  sent (fst (actuator_execute_command software_timer (Some command_all) ready_state))
    = [OpcuaWrite (opcua_request 1001 (f32_of_Z 3));
       ModbusWrite (modbus_frame 1 1001 3);
       GpioWrite 1 1].
Proof.
  repeat split; try (vm_compute; reflexivity).
  vm_compute. discriminate.
Qed.

(** The all-zero command as the runtime produces and consumes it: after
    [edgeplug_init], the first call of [edgeplug_process_sensors] stores the
    zeroed "no actuation" command, and handing that command to
    [edgeplug_execute_actuation] drives discrete line 0 low and counts one
    actuation. *)
Lemma no_actuation_command_drives_line_0 :
  let cfg := {| Facade.window_size := 4; Facade.sample_rate := 1000;
                Facade.inference_interval := 100;
                Facade.enable_safety_guard := true;
                Facade.enable_hotswap := true |} in
  let s := {| voltage := f32_of_Z 120; current := f32_one;
              timestamp := 0; quality := 100 |} in
  let sys0 := fst (Facade.edgeplug_init (Some cfg) Facade.initial_system) in
  let processed :=
    Facade.edgeplug_process_sensors software_timer (Some s) true sys0 in
  let executed :=
    Facade.edgeplug_execute_actuation software_timer (snd processed)
      (fst (fst processed)) in
  snd (fst processed) = EDGEPLUG_OK /\
  snd processed = Some Facade.zero_command /\
  snd executed = EDGEPLUG_OK /\
  sent (Facade.actuator (fst executed)) = [GpioWrite 0 0] /\
  gpio_level (Facade.actuator (fst executed)) 0 = Some 0 /\
  fst (fst (actuator_get_stats (Facade.actuator (fst executed)))) = 1.
Proof. cbv zeta. repeat split; vm_compute; reflexivity. Qed.

End ActuatorExamples.

Section InferFacts.
Import Infer.

Variable timer : nat -> Z.


End InferFacts.

Section InferExamples.
Import Infer.

(** The tiny model computes: inputs (100, -3) give outputs (100, 0). *)
Example tiny_model_runs :
  snd (infer_int8 software_timer (Some [100; -3]) true true loaded_state)
    = Some [100; 0] /\
  snd (fst (infer_int8 software_timer (Some [100; -3]) true true loaded_state))
    = EDGEPLUG_OK.
Proof. split; vm_compute; reflexivity. Qed.



End InferExamples.

(* ------------------------------------------------------------------ *)
(** * Further properties of the modelled code                          *)
(* ------------------------------------------------------------------ *)

(** ** preprocess.c: the window as a ring, and its normalization *)

Section PreprocessWindow.
Import Preprocess.

Lemma ring_cells_differ (W i n : Z) :
  0 < W -> 0 <= i < n -> n < i + W -> i mod W <> n mod W.
Proof.
  intros HW Hi Hn E.
  assert (H : (n - i) mod W = 0).
  { rewrite Zminus_mod, E, Z.sub_diag. apply Z.mod_0_l. lia. }
  rewrite Z.mod_small in H by lia. lia.
Qed.

(** The state after a run of insertions that starts at an empty window. *)
Lemma add_samples_ring (W : Z) (alpha prev : spec_float)
    (samples : list edgeplug_sensor_data_t) :
  1 <= W <= 256 ->
  let st0 := {| window_buffer := replicate WINDOW_BUFFER_SIZE f32_zero;
                window_index := 0; window_size := W; window_full := false;
                filter_alpha := alpha; filtered_voltage := prev |} in
  let st' := add_samples samples st0 in
  let trace := low_pass_trace alpha prev (map voltage samples) in
  window_size st' = W /\
  filter_alpha st' = alpha /\
  window_index st' = Z.of_nat (length samples) mod W /\
  length (window_buffer st') = WINDOW_BUFFER_SIZE /\
  filtered_voltage st' = default prev (last trace) /\
  (forall i : nat,
      (i < length samples)%nat -> Z.of_nat (length samples) <= Z.of_nat i + W ->
      window_buffer st' !! Z.to_nat (Z.of_nat i mod W) = trace !! i) /\
  (forall j : nat,
      Z.of_nat (length samples) <= Z.of_nat j \/ W <= Z.of_nat j ->
      window_buffer st' !! j = replicate WINDOW_BUFFER_SIZE f32_zero !! j).
Proof.
  intros HW st0. induction samples as [|s samples IH] using rev_ind.
  - cbn. repeat split; try reflexivity. intros i Hi. lia.
  - cbv zeta in IH |- *.
    destruct IH as (Hsz & Hal & Hidx & Hlen & Hfv & Hring & Hrest).
    unfold add_samples in *. rewrite foldl_app. cbn [foldl].
    set (st1 := foldl _ st0 samples) in *.
    rewrite map_app. cbn [map]. rewrite low_pass_trace_snoc.
    set (trace := low_pass_trace alpha prev (map voltage samples)) in *.
    assert (Htl : length trace = length samples).
    { subst trace. now rewrite low_pass_trace_length, length_map. }
    rewrite length_app. cbn [length].
    replace (Z.of_nat (length samples + 1)) with (Z.of_nat (length samples) + 1) by lia.
    set (n := length samples) in *.
    assert (Hcell : 0 <= Z.of_nat n mod W < W) by (apply Z.mod_pos_bound; lia).
    cbn [preprocess_add_sample fst window_size filter_alpha window_index
         window_buffer filtered_voltage].
    rewrite Hsz, Hal, Hidx, Hfv.
    assert (Hu : u32 (Z.of_nat n mod W + 1) = Z.of_nat n mod W + 1).
    { unfold u32. apply Z.mod_small. lia. }
    rewrite Hu.
    split; [reflexivity|]. split; [reflexivity|].
    split; [now rewrite Z.add_mod_idemp_l by lia|].
    split; [now rewrite length_insert|].
    split; [now rewrite last_snoc|].
    split.
    + intros i Hi Hrecent.
      destruct (Nat.eq_dec i n) as [->|Hne].
      * rewrite list_lookup_insert_eq
          by (rewrite Hlen; unfold WINDOW_BUFFER_SIZE; lia).
        rewrite lookup_app_r by lia.
        now rewrite Htl, Nat.sub_diag.
      * rewrite list_lookup_insert_ne.
        -- rewrite lookup_app_l by lia. apply Hring; lia.
        -- intros E. apply Z2Nat.inj in E; try lia.
           ++ symmetry in E. revert E. apply ring_cells_differ; lia.
           ++ apply Z.mod_pos_bound. lia.
    + intros j Hj.
      assert (Z.of_nat n mod W <= Z.of_nat n) by (apply Z.mod_le; lia).
      rewrite list_lookup_insert_ne by lia.
      apply Hrest. lia.
Qed.

Lemma preprocess_init_ok (W : Z) (st : state) :
  1 <= W <= 256 ->
  preprocess_init W st
  = ({| window_buffer := replicate WINDOW_BUFFER_SIZE f32_zero;
        window_index := 0; window_size := W; window_full := false;
        filter_alpha := filter_alpha st;
        filtered_voltage := filtered_voltage st |}, EDGEPLUG_OK).
Proof.
  intros HW. unfold preprocess_init, MAX_WINDOW_SIZE.
  destruct (Z.eqb_spec W 0); [lia|].
  destruct (Z.ltb_spec 256 W); [lia|]. reflexivity.
Qed.

(** The readiness flag after a run of insertions that starts at
    [preprocess_init W]. *)
Lemma window_ready_from_init (W : Z) (st : state)
    (samples : list edgeplug_sensor_data_t) :
  1 <= W <= 256 ->
  preprocess_is_window_ready (add_samples samples (fst (preprocess_init W st)))
  = (W <=? Z.of_nat (length samples)).
Proof.
  intros HW. rewrite preprocess_init_ok by exact HW. cbn [fst].
  set (st0 := {| window_buffer := _ |}).
  destruct (add_samples_ready samples st0) as (_ & _ & Hlt & Hge).
  { cbn. lia. }
  { cbn. unfold MAX_WINDOW_SIZE. lia. }
  cbn [window_index window_size window_full st0] in Hlt, Hge.
  unfold preprocess_is_window_ready.
  destruct (Z.leb_spec W (Z.of_nat (length samples))).
  - apply Hge. lia.
  - now destruct (Hlt ltac:(lia)) as [_ ->].
Qed.

(** X1.  The window is a ring over its first W cells.  After
    [preprocess_init W] and any number of insertions, the buffer keeps its
    1024 cells; each of the W most recent filter outputs is still in the
    window, the i-th output (counted from 0) in cell [i mod W], older
    outputs having been overwritten; and every cell from index W on, like
    every cell the run has not reached yet, still holds the 0.0 written by
    the initializer: insertions never write outside the window. *)
Theorem window_keeps_latest_outputs (W : Z) (st : state)
    (samples : list edgeplug_sensor_data_t) :
  1 <= W <= 256 ->
  let st' := add_samples samples (fst (preprocess_init W st)) in
  let trace :=
    low_pass_trace (filter_alpha st) (filtered_voltage st) (map voltage samples) in
  length (window_buffer st') = WINDOW_BUFFER_SIZE /\
  (forall i : nat,
     (i < length samples)%nat -> Z.of_nat (length samples) <= Z.of_nat i + W ->
     window_buffer st' !! Z.to_nat (Z.of_nat i mod W) = trace !! i) /\
  (forall j : nat,
     Z.of_nat (length samples) <= Z.of_nat j \/ W <= Z.of_nat j ->
     (j < WINDOW_BUFFER_SIZE)%nat ->
     window_buffer st' !! j = Some f32_zero).
Proof.
  intros HW. rewrite preprocess_init_ok by exact HW. cbn [fst]. cbv zeta.
  destruct (add_samples_ring W (filter_alpha st) (filtered_voltage st) samples HW)
    as (_ & _ & _ & Hlen & _ & Hring & Hrest).
  split; [exact Hlen|]. split; [exact Hring|].
  intros j Hj Hin. rewrite Hrest by exact Hj.
  now apply lookup_replicate_2.
Qed.

Lemma clamp_int8_range (x : Z) : -128 <= clamp_int8 x <= 127.
Proof.
  unfold clamp_int8.
  destruct (Z.ltb_spec 127 x); [lia|].
  destruct (Z.ltb_spec x (-128)); lia.
Qed.

(** X2.  [preprocess_normalize_window] refuses to run until the window has
    filled (fewer than W insertions since [preprocess_init W]); from the
    W-th insertion on it succeeds and delivers exactly W values, each
    within the int8 range -128..127. *)
Theorem normalize_window_output (W : Z) (st : state)
    (samples : list edgeplug_sensor_data_t) :
  1 <= W <= 256 ->
  let st' := add_samples samples (fst (preprocess_init W st)) in
  (Z.of_nat (length samples) < W ->
   preprocess_normalize_window true true st' = (EDGEPLUG_ERROR_INVALID_PARAM, None)) /\
  (W <= Z.of_nat (length samples) ->
   exists out,
     preprocess_normalize_window true true st' = (EDGEPLUG_OK, Some out) /\
     Z.of_nat (length out) = W /\
     Forall (fun x => -128 <= x <= 127) out).
Proof.
  intros HW. rewrite preprocess_init_ok by exact HW. cbn [fst]. cbv zeta.
  set (st0 := {| window_buffer := _ |}).
  destruct (add_samples_ring W (filter_alpha st) (filtered_voltage st) samples HW)
    as (Hsz & _ & _ & Hlen & _).
  fold st0 in Hsz, Hlen.
  destruct (add_samples_ready samples st0) as (_ & _ & Hlt & Hge).
  { cbn. lia. }
  { cbn. unfold MAX_WINDOW_SIZE. lia. }
  cbn [window_index window_size window_full st0] in Hlt, Hge.
  unfold preprocess_normalize_window. cbn [negb orb].
  split.
  - intros Hfew. destruct (Hlt ltac:(lia)) as [_ ->]. reflexivity.
  - intros Hfull. rewrite (Hge ltac:(lia)). cbn [negb].
    eexists. split; [reflexivity|]. split.
    + rewrite length_map, length_take, Hlen, Hsz.
      unfold WINDOW_BUFFER_SIZE. lia.
    + apply List.Forall_map, List.Forall_forall.
      intros y _. apply clamp_int8_range.
Qed.

End PreprocessWindow.

Section PreprocessWindowExamples.
Import Preprocess.

Lemma window_keeps_latest_outputs_witness :
  let s := {| voltage := f32_of_Z 100; current := f32_one;
              timestamp := 0; quality := 100 |} in
  let st' := add_samples [s; s; s] (fst (preprocess_init 2 initial_state)) in
  window_buffer st' !! 0%nat
  = low_pass_trace f32_0_1 f32_zero [f32_of_Z 100; f32_of_Z 100; f32_of_Z 100] !! 2%nat
  /\ window_buffer st' !! 2%nat = Some f32_zero.
Proof.
  intros s st'.
  pose proof (window_keeps_latest_outputs 2 initial_state [s; s; s] ltac:(lia))
    as (_ & Hring & Hrest).
  split.
  - exact (Hring 2%nat ltac:(cbn; lia) ltac:(cbn; lia)).
  - exact (Hrest 2%nat ltac:(right; lia) ltac:(unfold WINDOW_BUFFER_SIZE; lia)).
Defined.

Lemma normalize_window_output_witness :
  let s := {| voltage := f32_of_Z 100; current := f32_one;
              timestamp := 0; quality := 100 |} in
  preprocess_normalize_window true true
    (add_samples [s] (fst (preprocess_init 2 initial_state)))
  = (EDGEPLUG_ERROR_INVALID_PARAM, None) /\
  exists out,
    preprocess_normalize_window true true
      (add_samples [s; s] (fst (preprocess_init 2 initial_state)))
    = (EDGEPLUG_OK, Some out) /\
    Z.of_nat (length out) = 2 /\
    Forall (fun x => -128 <= x <= 127) out.
Proof.
  intros s. split.
  - exact (proj1 (normalize_window_output 2 initial_state [s] ltac:(lia))
             ltac:(cbn; lia)).
  - exact (proj2 (normalize_window_output 2 initial_state [s; s] ltac:(lia))
             ltac:(cbn; lia)).
Defined.

(** A window that has settled.  After 640 samples of 120.0 V in a window
    of 64 the cells differ in their last bits only, the variance computed
    in binary32 comes out negative, its square root is NaN, and every one
    of the 64 outputs is -128. *)
Example settled_window_normalizes_to_minus_128 :
  let s := {| voltage := f32_of_Z 120; current := f32_one;
              timestamp := 0; quality := 100 |} in
  preprocess_normalize_window true true
    (add_samples (replicate 640 s) (fst (preprocess_init 64 initial_state)))
  = (EDGEPLUG_OK, Some (replicate 64 (-128))).
Proof. vm_compute. reflexivity. Qed.

End PreprocessWindowExamples.

(** ** hotswap.c: updates, rollback and the slot metadata *)

Section HotswapEngine.
Import Hotswap.

Variable SLOT_MAGIC : Z.

(** Validation reads the CRC table and the two slots, nothing else. *)
Lemma validate_agent_slot_ext (w w' : world) (slot : Z) :
  crc32_table w' = crc32_table w -> slot_a w' = slot_a w -> slot_b w' = slot_b w ->
  validate_agent_slot SLOT_MAGIC w' slot = validate_agent_slot SLOT_MAGIC w slot.
Proof.
  intros Ht Ha Hb.
  unfold validate_agent_slot, read_slot_metadata, slot_of.
  now rewrite Ht, Ha, Hb.
Qed.

Lemma written_slot_validates (w : world) (slot : Z) (bytes : list Z)
    (mf : edgeplug_manifest_t) :
  slot = 0 \/ slot = 1 ->
  Z.of_nat (length bytes) <= MAX_PAYLOAD ->
  validate_agent_slot SLOT_MAGIC
    (fst (write_agent_to_slot SLOT_MAGIC w slot (Some bytes) (Some mf))) slot = true.
Proof.
  intros Hslot Hfit. rewrite write_agent_to_slot_result by exact Hslot.
  destruct (Z.ltb_spec MAX_PAYLOAD (Z.of_nat (length bytes))) as [|_]; [lia|].
  unfold validate_agent_slot, read_slot_metadata, read_payload, slot_of.
  destruct Hslot as [-> | ->]; cbn;
    rewrite Z.eqb_refl; cbn [negb];
    (destruct (Z.ltb_spec MAX_PAYLOAD (Z.of_nat (length bytes))); [lia|]);
    rewrite Nat2Z.id, read_back_written, Z.eqb_refl; reflexivity.
Qed.

Lemma inactive_slot_is_a_slot (w : world) :
  get_inactive_slot w = 0 \/ get_inactive_slot w = 1.
Proof. destruct (inactive_slot_cases w) as [[_ ->]|[_ ->]]; auto. Qed.

(** [hotswap_update_agent] with both pointers given and the flag clear, as
    one equation: the image is too large, or the inactive slot is written
    and activated. *)
Lemma hotswap_update_agent_result (w : world) (bytes : list Z)
    (mf : edgeplug_manifest_t) :
  update_in_progress (hotswap_state w) = 0 ->
  let s := hotswap_state w in
  let attempt := set_progress s 1 (time_counter w) (u32 (update_attempts s + 1)) in
  hotswap_update_agent SLOT_MAGIC w (Some bytes) (Some mf)
  = if MAX_PAYLOAD <? Z.of_nat (length bytes) then
      ({| hotswap_state := fail_update attempt;
          crc32_table := crc32_table w;
          time_counter := u32 (time_counter w + 1);
          slot_a := slot_a w; slot_b := slot_b w |},
       EDGEPLUG_ERROR_MEMORY)
    else
      let w3 := fst (write_agent_to_slot SLOT_MAGIC
                       {| hotswap_state := attempt; crc32_table := crc32_table w;
                          time_counter := u32 (time_counter w + 1);
                          slot_a := slot_a w; slot_b := slot_b w |}
                       (get_inactive_slot w) (Some bytes) (Some mf)) in
      ({| hotswap_state :=
            {| active_slot := get_inactive_slot w;
               update_in_progress := 0;
               update_start_time := time_counter w;
               update_attempts := u32 (update_attempts s + 1);
               successful_updates := u32 (successful_updates s + 1);
               failed_updates := failed_updates s;
               last_update_timestamp := u32 (u32 (time_counter w + 1) + 1) |};
          crc32_table := crc32_table w;
          time_counter := u32 (u32 (u32 (time_counter w + 1) + 1) + 1);
          slot_a := slot_a w3; slot_b := slot_b w3 |},
       EDGEPLUG_OK).
Proof.
  intros Hflag. cbv zeta. unfold hotswap_update_agent. rewrite Hflag.
  cbn [Z.eqb negb get_system_time_ms].
  set (w2 := with_state _ _).
  assert (Hslot : get_inactive_slot w2 = get_inactive_slot w) by reflexivity.
  rewrite Hslot.
  pose proof (written_slot_validates w2 (get_inactive_slot w) bytes mf
                (inactive_slot_is_a_slot w)) as Hvalid.
  change {| hotswap_state := set_progress (hotswap_state w) 1 (time_counter w)
                               (u32 (update_attempts (hotswap_state w) + 1));
            crc32_table := crc32_table w;
            time_counter := u32 (time_counter w + 1);
            slot_a := slot_a w; slot_b := slot_b w |} with w2.
  rewrite write_agent_to_slot_result in * by apply inactive_slot_is_a_slot.
  destruct (Z.ltb_spec MAX_PAYLOAD (Z.of_nat (length bytes))) as [Hbig|Hfit].
  - reflexivity.
  - cbn [status_eqb negb fst] in *. rewrite (Hvalid Hfit). reflexivity.
Qed.

(** X3.  [hotswap_update_agent], called with the flag clear, accepts an
    image exactly when it leaves room for the metadata block (at most 14220
    bytes).  A larger image is turned down with [EDGEPLUG_ERROR_MEMORY]
    before any flash is written: both slots and the active slot stay as
    they were, and the attempt is counted as a failed one. *)
Theorem update_accepts_exactly_fitting_images (w : world) (bytes : list Z)
    (mf : edgeplug_manifest_t) :
  update_in_progress (hotswap_state w) = 0 ->
  let w' := fst (hotswap_update_agent SLOT_MAGIC w (Some bytes) (Some mf)) in
  let status := snd (hotswap_update_agent SLOT_MAGIC w (Some bytes) (Some mf)) in
  (Z.of_nat (length bytes) <= MAX_PAYLOAD ->
     status = EDGEPLUG_OK /\
     hotswap_get_active_slot w' = get_inactive_slot w) /\
  (MAX_PAYLOAD < Z.of_nat (length bytes) ->
     status = EDGEPLUG_ERROR_MEMORY /\
     slot_a w' = slot_a w /\ slot_b w' = slot_b w /\
     hotswap_get_active_slot w' = hotswap_get_active_slot w /\
     hotswap_get_stats w'
     = (successful_updates (hotswap_state w),
        u32 (failed_updates (hotswap_state w) + 1),
        u32 (update_attempts (hotswap_state w) + 1),
        last_update_timestamp (hotswap_state w))).
Proof.
  intros Hflag. cbv zeta.
  rewrite (hotswap_update_agent_result w bytes mf Hflag). cbv zeta.
  destruct (Z.ltb_spec MAX_PAYLOAD (Z.of_nat (length bytes))) as [Hbig|Hfit];
    cbn [fst snd]; split; intros H; try lia.
  - repeat split; reflexivity.
  - split; reflexivity.
Qed.

(** X4.  An update writes the inactive slot only, so the image that was
    active before stays intact: a [hotswap_rollback] right after a
    successful update succeeds whenever that image was valid, and the
    accessor then hands out the same bytes as before the update. *)
Theorem update_then_rollback_restores (w : world) (bytes : list Z)
    (mf : edgeplug_manifest_t) :
  update_in_progress (hotswap_state w) = 0 ->
  active_slot (hotswap_state w) = 0 \/ active_slot (hotswap_state w) = 1 ->
  Z.of_nat (length bytes) <= MAX_PAYLOAD ->
  validate_agent_slot SLOT_MAGIC w (active_slot (hotswap_state w)) = true ->
  let w1 := fst (hotswap_update_agent SLOT_MAGIC w (Some bytes) (Some mf)) in
  snd (hotswap_rollback SLOT_MAGIC w1) = EDGEPLUG_OK /\
  hotswap_get_active_slot (fst (hotswap_rollback SLOT_MAGIC w1))
    = hotswap_get_active_slot w /\
  active_payload (fst (hotswap_rollback SLOT_MAGIC w1)) = active_payload w.
Proof.
  intros Hflag Hact Hfit Hvalid. cbv zeta.
  rewrite (hotswap_update_agent_result w bytes mf Hflag). cbv zeta.
  destruct (Z.ltb_spec MAX_PAYLOAD (Z.of_nat (length bytes))) as [|_]; [lia|].
  rewrite write_agent_to_slot_result by apply inactive_slot_is_a_slot.
  destruct (Z.ltb_spec MAX_PAYLOAD (Z.of_nat (length bytes))) as [|_]; [lia|].
  cbn [fst slot_a slot_b].
  unfold hotswap_rollback, hotswap_get_active_slot, active_payload,
    hotswap_get_active_agent.
  unfold validate_agent_slot, read_slot_metadata, slot_of in *.
  unfold get_inactive_slot in *.
  destruct Hact as [E|E]; rewrite E in *; cbn in *;
    rewrite Hvalid; cbn; repeat split; reflexivity.
Qed.

(** X5.  With valid images in both slots, [hotswap_rollback] is its own
    inverse: each call succeeds and switches to the other slot, and two
    calls in a row leave the engine exactly as it was. *)
Theorem rollback_twice_is_identity (w : world) :
  active_slot (hotswap_state w) = 0 \/ active_slot (hotswap_state w) = 1 ->
  validate_agent_slot SLOT_MAGIC w 0 = true ->
  validate_agent_slot SLOT_MAGIC w 1 = true ->
  let w1 := fst (hotswap_rollback SLOT_MAGIC w) in
  snd (hotswap_rollback SLOT_MAGIC w) = EDGEPLUG_OK /\
  hotswap_get_active_slot w1 = 1 - hotswap_get_active_slot w /\
  hotswap_rollback SLOT_MAGIC w1 = (w, EDGEPLUG_OK).
Proof.
  intros Hact Ha Hb. cbv zeta.
  destruct w as [[act flag start att succ failed last] table tc sa sb].
  cbn [hotswap_state active_slot] in Hact.
  unfold hotswap_rollback, get_inactive_slot, hotswap_get_active_slot.
  destruct Hact as [-> | ->]; cbn [hotswap_state active_slot Z.eqb].
  - rewrite Hb. cbn [negb fst snd with_state set_active hotswap_state active_slot
                     Z.eqb update_in_progress update_start_time update_attempts
                     successful_updates failed_updates last_update_timestamp
                     crc32_table time_counter slot_a slot_b].
    unfold validate_agent_slot in *. cbn in *. rewrite Ha.
    repeat split; reflexivity.
  - rewrite Ha. cbn [negb fst snd with_state set_active hotswap_state active_slot
                     Z.eqb update_in_progress update_start_time update_attempts
                     successful_updates failed_updates last_update_timestamp
                     crc32_table time_counter slot_a slot_b].
    unfold validate_agent_slot in *. cbn in *. rewrite Hb.
    repeat split; reflexivity.
Qed.

Lemma u32_succ_sum (a b : Z) : u32 (u32 (a + 1) + b) = u32 (u32 (a + b) + 1).
Proof.
  unfold u32. rewrite !Z.add_mod_idemp_l by lia. f_equal. lia.
Qed.

Lemma u32_sum_succ (a b : Z) : u32 (a + u32 (b + 1)) = u32 (u32 (a + b) + 1).
Proof.
  unfold u32. rewrite Z.add_mod_idemp_r, Z.add_mod_idemp_l by lia. f_equal. lia.
Qed.

Lemma step_keeps_counters_balance (w : world) (op : operation) :
  update_in_progress (hotswap_state w) = 0 ->
  counters_balance (hotswap_state w) ->
  counters_balance (hotswap_state (step SLOT_MAGIC w op)).
Proof.
  intros Hflag [Hsum Hact]. destruct op as [|d m| | |slot]; cbn [step].
  - unfold hotswap_init.
    repeat match goal with
           | |- context [if ?b then _ else _] => destruct b
           end; split; cbn; auto.
  - destruct d as [bytes|], m as [mf|]; try (split; assumption).
    rewrite (hotswap_update_agent_result w bytes mf Hflag). cbv zeta.
    destruct (MAX_PAYLOAD <? Z.of_nat (length bytes)); cbn [fst hotswap_state].
    + split; [|exact Hact].
      cbn [fail_update set_progress update_attempts successful_updates
           failed_updates].
      rewrite Hsum. symmetry. apply u32_sum_succ.
    + split; [|apply inactive_slot_is_a_slot].
      cbn [update_attempts successful_updates failed_updates].
      rewrite Hsum. symmetry. apply u32_succ_sum.
  - unfold hotswap_rollback.
    destruct (negb (validate_agent_slot SLOT_MAGIC w (get_inactive_slot w)));
      cbn [fst]; [split; assumption|].
    split; cbn; [exact Hsum | apply inactive_slot_is_a_slot].
  - unfold hotswap_watchdog_check. rewrite Hflag. cbn [Z.eqb negb].
    split; assumption.
  - unfold hotswap_clear_slot. destruct (1 <? slot); split; assumption.
Qed.

(** X6.  Bookkeeping invariant of the engine.  From program start, over any
    flash contents and any sequence of public calls, the statistics read by
    [hotswap_get_stats] balance: the attempts equal the successful plus the
    failed updates (modulo 2^32), and the active slot number is 0 or 1. *)
Theorem update_counters_balance (a b : slot_t) (ops : list operation) :
  let w := run SLOT_MAGIC (initial_world a b) ops in
  let '(successful, failed, attempts, _) := hotswap_get_stats w in
  attempts = u32 (successful + failed) /\
  (hotswap_get_active_slot w = 0 \/ hotswap_get_active_slot w = 1).
Proof.
  cbv zeta. unfold hotswap_get_stats, hotswap_get_active_slot.
  change (counters_balance (hotswap_state (run SLOT_MAGIC (initial_world a b) ops))).
  assert (H : update_in_progress
                (hotswap_state (run SLOT_MAGIC (initial_world a b) ops)) = 0 /\
              counters_balance
                (hotswap_state (run SLOT_MAGIC (initial_world a b) ops))).
  { unfold run. induction ops as [|op ops IH] using rev_ind.
    - split; [reflexivity|]. split; cbn; auto.
    - rewrite foldl_app. cbn [foldl]. destruct IH as [Hflag Hbal]. split.
      + now apply step_keeps_flag_clear.
      + now apply step_keeps_counters_balance. }
  exact (proj2 H).
Qed.

(** X7.  A slot becomes active only while it validates: whenever
    [hotswap_init], [hotswap_update_agent] or [hotswap_rollback] returns
    [EDGEPLUG_OK], the slot that is active afterwards passes
    [hotswap_is_slot_valid] in the state the call leaves. *)
Theorem activated_slot_is_valid (w : world) (d : option (list Z))
    (m : option edgeplug_manifest_t) :
  (snd (hotswap_init SLOT_MAGIC w) = EDGEPLUG_OK ->
   let w' := fst (hotswap_init SLOT_MAGIC w) in
   hotswap_is_slot_valid SLOT_MAGIC w' (hotswap_get_active_slot w') = true) /\
  (snd (hotswap_update_agent SLOT_MAGIC w d m) = EDGEPLUG_OK ->
   let w' := fst (hotswap_update_agent SLOT_MAGIC w d m) in
   hotswap_is_slot_valid SLOT_MAGIC w' (hotswap_get_active_slot w') = true) /\
  (snd (hotswap_rollback SLOT_MAGIC w) = EDGEPLUG_OK ->
   let w' := fst (hotswap_rollback SLOT_MAGIC w) in
   hotswap_is_slot_valid SLOT_MAGIC w' (hotswap_get_active_slot w') = true).
Proof.
  cbv zeta. unfold hotswap_is_slot_valid, hotswap_get_active_slot.
  split; [|split].
  - rewrite validate_after_init. unfold hotswap_init.
    set (w0 := {| hotswap_state := zero_state |}).
    destruct (validate_agent_slot SLOT_MAGIC w0 0) eqn:Ha;
      destruct (validate_agent_slot SLOT_MAGIC w0 1) eqn:Hb;
      cbn [andb fst snd with_state hotswap_state active_slot];
      try discriminate; intros _.
    + destruct (timestamp _ <? timestamp _); cbn [Z.ltb Z.compare]; assumption.
    + cbn [Z.ltb Z.compare]. exact Ha.
    + cbn [Z.ltb Z.compare]. exact Hb.
  - destruct d as [bytes|], m as [mf|]; try discriminate.
    destruct (Z.eq_dec (update_in_progress (hotswap_state w)) 0) as [Hflag|Hbusy].
    2:{ unfold hotswap_update_agent.
        destruct (Z.eqb_spec (update_in_progress (hotswap_state w)) 0);
          [contradiction | discriminate]. }
    rewrite (hotswap_update_agent_result w bytes mf Hflag). cbv zeta.
    destruct (Z.ltb_spec MAX_PAYLOAD (Z.of_nat (length bytes))) as [|Hfit];
      [discriminate|]. intros _. cbn [fst hotswap_state active_slot].
    set (w3 := fst (write_agent_to_slot _ _ _ _ _)).
    assert (Hslot : (1 <? get_inactive_slot w) = false)
      by (destruct (inactive_slot_is_a_slot w) as [-> | ->]; reflexivity).
    rewrite Hslot.
    rewrite (validate_agent_slot_ext w3).
    + apply written_slot_validates; [apply inactive_slot_is_a_slot | exact Hfit].
    + subst w3. rewrite write_agent_to_slot_result by apply inactive_slot_is_a_slot.
      destruct (MAX_PAYLOAD <? Z.of_nat (length bytes)); reflexivity.
    + reflexivity.
    + reflexivity.
  - unfold hotswap_rollback.
    destruct (validate_agent_slot SLOT_MAGIC w (get_inactive_slot w)) eqn:Hv;
      cbn [negb fst snd]; [intros _|discriminate].
    cbn [with_state hotswap_state set_active active_slot].
    destruct (inactive_slot_is_a_slot w) as [E|E]; rewrite E in *; cbn [Z.ltb Z.compare];
      exact Hv.
Qed.

(** X8.  [hotswap_clear_slot] on slot 0 or 1 leaves a slot that does not
    validate, whatever the slot magic is (the erased size field alone fails
    the size check), and leaves the other slot and the active slot number
    alone: clearing the ACTIVE slot does not deactivate it.  Once both
    slots are cleared, [hotswap_validate_slots] and a new [hotswap_init]
    both return [EDGEPLUG_ERROR_HOTSWAP]. *)
Theorem cleared_slot_is_invalid (w : world) (slot : Z) :
  slot = 0 \/ slot = 1 ->
  let w' := fst (hotswap_clear_slot w slot) in
  snd (hotswap_clear_slot w slot) = EDGEPLUG_OK /\
  hotswap_is_slot_valid SLOT_MAGIC w' slot = false /\
  slot_of w' (1 - slot) = slot_of w (1 - slot) /\
  hotswap_get_active_slot w' = hotswap_get_active_slot w /\
  let w'' := fst (hotswap_clear_slot w' (1 - slot)) in
  hotswap_validate_slots SLOT_MAGIC w'' = EDGEPLUG_ERROR_HOTSWAP /\
  snd (hotswap_init SLOT_MAGIC w'') = EDGEPLUG_ERROR_HOTSWAP.
Proof.
  intros Hslot. cbv zeta.
  assert (Herased : forall (w0 : world) (k : Z),
             k = 0 \/ k = 1 ->
             metadata (slot_of w0 k)
             = {| magic := 0xFFFFFFFF; version := 0xFFFFFFFF;
                  size := 0xFFFFFFFF; crc32 := 0xFFFFFFFF;
                  timestamp := 0xFFFFFFFF;
                  signature := replicate 64 0xFF;
                  reserved := replicate 32 0xFF |} ->
             validate_agent_slot SLOT_MAGIC w0 k = false).
  { intros w0 k Hk Hmd.
    unfold validate_agent_slot, read_slot_metadata.
    replace (1 <? k) with false by (destruct Hk as [-> | ->]; reflexivity).
    rewrite Hmd. cbn [magic size].
    destruct (negb (4294967295 =? SLOT_MAGIC)); reflexivity. }
  destruct Hslot as [-> | ->].
  - change (1 - 0) with 1.
    unfold hotswap_clear_slot, hotswap_is_slot_valid, hotswap_get_active_slot,
      hotswap_validate_slots, hotswap_init.
    change (1 <? 0) with false. change (1 <? 1) with false.
    cbn [fst snd with_slot Z.eqb hotswap_state crc32_table time_counter
         slot_a slot_b].
    split; [reflexivity|]. split; [now apply Herased; auto|].
    split; [reflexivity|]. split; [reflexivity|].
    rewrite !Herased by (auto; reflexivity). split; reflexivity.
  - change (1 - 1) with 0.
    unfold hotswap_clear_slot, hotswap_is_slot_valid, hotswap_get_active_slot,
      hotswap_validate_slots, hotswap_init.
    change (1 <? 0) with false. change (1 <? 1) with false.
    cbn [fst snd with_slot Z.eqb hotswap_state crc32_table time_counter
         slot_a slot_b].
    split; [reflexivity|]. split; [now apply Herased; auto|].
    split; [reflexivity|]. split; [reflexivity|].
    rewrite !Herased by (auto; reflexivity). split; reflexivity.
Qed.

(** X9.  Write and read back of the metadata block.  After an update that
    goes through, [hotswap_get_slot_info] on the new active slot returns
    the block the call assembled: the slot magic, the manifest's version,
    the image length, the CRC-32 of the image under the table in use, the
    clock value taken while writing, the first 64 bytes of the manifest's
    signature, and a zeroed reserved area. *)
Theorem slot_info_after_update (w : world) (bytes : list Z)
    (mf : edgeplug_manifest_t) :
  update_in_progress (hotswap_state w) = 0 ->
  Z.of_nat (length bytes) <= MAX_PAYLOAD ->
  let w' := fst (hotswap_update_agent SLOT_MAGIC w (Some bytes) (Some mf)) in
  hotswap_get_slot_info w' (hotswap_get_active_slot w') true
  = (EDGEPLUG_OK,
     Some {| magic := SLOT_MAGIC;
             version := Runtime.version mf;
             size := Z.of_nat (length bytes);
             crc32 := calculate_crc32 (crc32_table w) bytes;
             timestamp := u32 (time_counter w + 1);
             signature := copy_bytes 64 (Runtime.signature mf);
             reserved := replicate 32 0 |}).
Proof.
  intros Hflag Hfit. cbv zeta.
  rewrite (hotswap_update_agent_result w bytes mf Hflag). cbv zeta.
  destruct (Z.ltb_spec MAX_PAYLOAD (Z.of_nat (length bytes))) as [|_]; [lia|].
  rewrite write_agent_to_slot_result by apply inactive_slot_is_a_slot.
  destruct (Z.ltb_spec MAX_PAYLOAD (Z.of_nat (length bytes))) as [|_]; [lia|].
  unfold hotswap_get_slot_info, hotswap_get_active_slot, read_slot_metadata, slot_of.
  cbn [fst hotswap_state active_slot slot_a slot_b crc32_table time_counter].
  destruct (inactive_slot_is_a_slot w) as [-> | ->]; reflexivity.
Qed.

(** X10.  Which image boots.  [hotswap_init] rebuilds the CRC table,
    zeroes the statistics and validates both slots as found; it fails with
    [EDGEPLUG_ERROR_HOTSWAP] exactly when neither validates, and otherwise
    activates slot A exactly when A validates and B either does not
    validate or carries a strictly older timestamp.  The flash is never
    written. *)
Theorem init_selects_slot (w : world) :
  let w' := fst (hotswap_init SLOT_MAGIC w) in
  let a_valid := hotswap_is_slot_valid SLOT_MAGIC w' 0 in
  let b_valid := hotswap_is_slot_valid SLOT_MAGIC w' 1 in
  snd (hotswap_init SLOT_MAGIC w)
    = (if a_valid || b_valid then EDGEPLUG_OK else EDGEPLUG_ERROR_HOTSWAP) /\
  hotswap_get_active_slot w'
    = (if a_valid
          && (negb b_valid
              || (timestamp (metadata (slot_b w)) <? timestamp (metadata (slot_a w))))
       then 0 else if b_valid then 1 else 0) /\
  hotswap_get_stats w' = (0, 0, 0, 0) /\
  crc32_table w' = init_crc32_table /\
  slot_a w' = slot_a w /\ slot_b w' = slot_b w.
Proof.
  cbv zeta. unfold hotswap_is_slot_valid. cbn [Z.ltb Z.compare].
  rewrite !validate_after_init. unfold hotswap_init.
  set (w0 := {| hotswap_state := zero_state |}).
  destruct (validate_agent_slot SLOT_MAGIC w0 0);
    destruct (validate_agent_slot SLOT_MAGIC w0 1);
    cbn [andb orb negb fst snd]; repeat split; reflexivity.
Qed.

(** X11.  In sequential use the watchdog never has anything to do.  The
    update flag is clear after every public call, so in every state reached
    from program start [hotswap_watchdog_check] returns at once: it reads no
    clock, rolls nothing back and counts no failure. *)
Theorem watchdog_is_idle_between_calls (a b : slot_t) (ops : list operation) :
  let w := run SLOT_MAGIC (initial_world a b) ops in
  hotswap_watchdog_check SLOT_MAGIC w = w /\
  hotswap_get_stats (hotswap_watchdog_check SLOT_MAGIC w) = hotswap_get_stats w.
Proof.
  cbv zeta.
  assert (Hflag : update_in_progress
                    (hotswap_state (run SLOT_MAGIC (initial_world a b) ops)) = 0).
  { unfold run. induction ops as [|op ops IH] using rev_ind.
    - reflexivity.
    - rewrite foldl_app. cbn [foldl]. now apply step_keeps_flag_clear. }
  assert (Hidle : hotswap_watchdog_check SLOT_MAGIC
                    (run SLOT_MAGIC (initial_world a b) ops)
                  = run SLOT_MAGIC (initial_world a b) ops).
  { unfold hotswap_watchdog_check. now rewrite Hflag. }
  split; [exact Hidle | now rewrite Hidle].
Qed.

End HotswapEngine.

Section HotswapEngineExamples.
Import Hotswap.

Lemma update_accepts_exactly_fitting_images_witness :
  snd (hotswap_update_agent example_magic tie_world
         (Some image_v2) (Some AgentLoader.zero_manifest)) = EDGEPLUG_OK.
Proof.
  exact (proj1 (proj1 (update_accepts_exactly_fitting_images example_magic tie_world
                         image_v2 AgentLoader.zero_manifest ltac:(reflexivity))
                  ltac:(vm_compute; discriminate))).
Defined.

(** After [hotswap_init] on [tie_world] slot B is active; an update then
    writes slot A, and the rollback returns to slot B. *)
Lemma update_then_rollback_restores_witness :
  let w := fst (hotswap_init example_magic tie_world) in
  let w1 := fst (hotswap_update_agent example_magic w
                   (Some image_v1) (Some AgentLoader.zero_manifest)) in
  active_payload (fst (hotswap_rollback example_magic w1)) = active_payload w.
Proof.
  cbv zeta.
  exact (proj2 (proj2 (update_then_rollback_restores example_magic
                         (fst (hotswap_init example_magic tie_world))
                         image_v1 AgentLoader.zero_manifest
                         ltac:(reflexivity) ltac:(right; vm_compute; reflexivity)
                         ltac:(vm_compute; discriminate)
                         ltac:(vm_compute; reflexivity)))).
Defined.

Lemma rollback_twice_is_identity_witness :
  let w := fst (hotswap_init example_magic tie_world) in
  hotswap_rollback example_magic (fst (hotswap_rollback example_magic w))
  = (w, EDGEPLUG_OK).
Proof.
  cbv zeta.
  exact (proj2 (proj2 (rollback_twice_is_identity example_magic
                         (fst (hotswap_init example_magic tie_world))
                         ltac:(right; vm_compute; reflexivity)
                         ltac:(vm_compute; reflexivity)
                         ltac:(vm_compute; reflexivity)))).
Defined.

Lemma cleared_slot_is_invalid_witness :
  hotswap_is_slot_valid example_magic (fst (hotswap_clear_slot tie_world 1)) 1 = false.
Proof.
  exact (proj1 (proj2 (cleared_slot_is_invalid example_magic tie_world 1
                         ltac:(right; reflexivity)))).
Defined.

Lemma slot_info_after_update_witness :
  let w' := fst (hotswap_update_agent example_magic tie_world
                   (Some image_v2) (Some AgentLoader.zero_manifest)) in
  fst (hotswap_get_slot_info w' (hotswap_get_active_slot w') true) = EDGEPLUG_OK.
Proof.
  cbv zeta.
  rewrite (slot_info_after_update example_magic tie_world image_v2
             AgentLoader.zero_manifest ltac:(reflexivity)
             ltac:(vm_compute; discriminate)).
  reflexivity.
Defined.

End HotswapEngineExamples.

(** ** agent_loader.c: the header parser, the envelope and the digest *)

Section AgentLoaderParser.
Import AgentLoader.

Lemma byte_at_range (p : cbor_parser_t) (i : Z) : 0 <= byte_at p i < 256.
Proof. unfold byte_at, u8. apply Z.mod_pos_bound. lia. Qed.

Lemma land_ones_range (x k : Z) : 0 <= k -> 0 <= Z.land x (Z.ones k) < 2 ^ k.
Proof.
  intros Hk. rewrite Z.land_ones by exact Hk. apply Z.mod_pos_bound.
  apply Z.pow_pos_nonneg; lia.
Qed.

Lemma lor_below_pow2 (a b n : Z) :
  0 <= n -> 0 <= a < 2 ^ n -> 0 <= b < 2 ^ n -> 0 <= Z.lor a b < 2 ^ n.
Proof.
  intros Hn Ha Hb. split; [apply Z.lor_nonneg; lia|].
  destruct (Z.eq_dec a 0) as [->|Ha0]; [now rewrite Z.lor_0_l|].
  destruct (Z.eq_dec b 0) as [->|Hb0]; [now rewrite Z.lor_0_r|].
  apply Z.log2_lt_pow2.
  - assert (0 <= Z.lor a b) by (apply Z.lor_nonneg; lia).
    assert (Z.lor a b <> 0) by (rewrite Z.lor_eq_0_iff; lia). lia.
  - rewrite Z.log2_lor by lia.
    apply Z.max_lub_lt; apply Z.log2_lt_pow2; lia.
Qed.

Lemma shiftl_byte_below (b k : Z) :
  0 <= b < 256 -> 0 <= k <= 24 -> 0 <= Z.shiftl b k < 2 ^ 32.
Proof.
  intros Hb Hk. rewrite Z.shiftl_mul_pow2 by lia. split; [nia|].
  assert (2 ^ k <= 2 ^ 24) by (apply Z.pow_le_mono_r; lia).
  assert (0 < 2 ^ k) by (apply Z.pow_pos_nonneg; lia).
  change (2 ^ 32) with (256 * 2 ^ 24). nia.
Qed.

(** X12.  A successful [cbor_parse_header] consumes 1, 2, 3 or 5 bytes,
    never moves past the end of the buffer, and yields a major type in
    0..7 and a value below 2^32; the buffer itself is left alone. *)
Theorem cbor_header_stays_in_buffer (p p' : cbor_parser_t) (major_type v : Z) :
  0 <= offset p ->
  cbor_parse_header p = Some (p', major_type, v) ->
  (offset p' = offset p + 1 \/ offset p' = offset p + 2 \/
   offset p' = offset p + 3 \/ offset p' = offset p + 5) /\
  offset p' <= size p /\
  data p' = data p /\ size p' = size p /\
  0 <= major_type <= 7 /\
  0 <= v < 2 ^ 32.
Proof.
  intros Hoff. unfold cbor_parse_header, cbor_read_byte.
  destruct (Z.leb_spec (size p) (offset p)) as [|Hlt]; [discriminate|].
  cbn [advance offset size data].
  pose proof (byte_at_range p (offset p)) as Hb.
  assert (Hmajor : 0 <= Z.land (Z.shiftr (byte_at p (offset p)) 5) 7 <= 7).
  { pose proof (land_ones_range (Z.shiftr (byte_at p (offset p)) 5) 3 ltac:(lia)) as H.
    change (Z.ones 3) with 7 in H. change (2 ^ 3) with 8 in H. lia. }
  assert (Hinfo : 0 <= Z.land (byte_at p (offset p)) 31 < 32).
  { exact (land_ones_range (byte_at p (offset p)) 5 ltac:(lia)). }
  destruct (Z.leb_spec (Z.land (byte_at p (offset p)) 31) 23).
  { intros [= <- <- <-]. cbn [advance offset size data].
    repeat split; try reflexivity; lia. }
  destruct (Z.land (byte_at p (offset p)) 31 =? 24).
  { destruct (Z.leb_spec (size p) (offset p + 1)); [discriminate|].
    intros [= <- <- <-]. cbn [advance offset size data].
    match goal with
    | |- context [byte_at ?q ?i < _] => pose proof (byte_at_range q i)
    end.
    repeat split; try reflexivity; lia. }
  destruct (Z.land (byte_at p (offset p)) 31 =? 25).
  { destruct (Z.leb_spec (size p) (offset p + 1 + 1)); [discriminate|].
    intros [= <- <- <-]. cbn [advance offset size data].
    repeat split; try reflexivity; try lia.
    - apply Z.lor_nonneg. split; [apply Z.shiftl_nonneg|]; apply byte_at_range.
    - apply lor_below_pow2; [lia| |].
      + apply shiftl_byte_below; [apply byte_at_range | lia].
      + match goal with
        | |- _ <= byte_at ?q ?i < _ => pose proof (byte_at_range q i)
        end. lia. }
  destruct (Z.land (byte_at p (offset p)) 31 =? 26); [|discriminate].
  destruct (Z.leb_spec (size p) (offset p + 1 + 3)); [discriminate|].
  intros [= <- <- <-]. cbn [advance offset size data].
  match goal with
  | |- context [0 <= ?value < 2 ^ 32] => assert (Hv : 0 <= value < 2 ^ 32)
  end.
  { repeat (apply lor_below_pow2; [lia| |]);
      try (apply shiftl_byte_below; [apply byte_at_range | lia]).
    match goal with
    | |- _ <= byte_at ?q ?i < _ => pose proof (byte_at_range q i)
    end. lia. }
  repeat split; try reflexivity; lia.
Qed.

(** The value of a header is a length of at most 32 bits. *)
Lemma cbor_parse_header_value (p p' : cbor_parser_t) (major_type v : Z) :
  cbor_parse_header p = Some (p', major_type, v) -> 0 <= v < 2 ^ 32.
Proof.
  unfold cbor_parse_header, cbor_read_byte.
  destruct (size p <=? offset p); [discriminate|].
  cbn [advance offset size data].
  assert (Hinfo : 0 <= Z.land (byte_at p (offset p)) 31 < 32).
  { exact (land_ones_range (byte_at p (offset p)) 5 ltac:(lia)). }
  destruct (Z.leb_spec (Z.land (byte_at p (offset p)) 31) 23).
  { intros [= <- <- <-]. lia. }
  destruct (Z.land (byte_at p (offset p)) 31 =? 24).
  { destruct (size p <=? offset p + 1); [discriminate|].
    intros [= <- <- <-].
    match goal with
    | |- _ <= byte_at ?q ?i < _ => pose proof (byte_at_range q i)
    end. lia. }
  destruct (Z.land (byte_at p (offset p)) 31 =? 25).
  { destruct (size p <=? offset p + 1 + 1); [discriminate|].
    intros [= <- <- <-].
    apply lor_below_pow2; [lia| |].
    - apply shiftl_byte_below; [apply byte_at_range | lia].
    - match goal with
      | |- _ <= byte_at ?q ?i < _ => pose proof (byte_at_range q i)
      end. lia. }
  destruct (Z.land (byte_at p (offset p)) 31 =? 26); [|discriminate].
  destruct (size p <=? offset p + 1 + 3); [discriminate|].
  intros [= <- <- <-].
  repeat (apply lor_below_pow2; [lia| |]);
    try (apply shiftl_byte_below; [apply byte_at_range | lia]).
  match goal with
  | |- _ <= byte_at ?q ?i < _ => pose proof (byte_at_range q i)
  end. lia.
Qed.

Section AnySizeT.

Variable size_bits : Z.

(** A pass that continues has found the counter below the bound; it adds
    one to the counter and installs a parsed length as the new bound. *)
Lemma component_pass_next (s s' : loop_state) :
  component_pass size_bits s = inl s' ->
  loop_i s < loop_value s /\
  loop_i s' = u64 (loop_i s + 1) /\
  0 <= loop_value s' < 2 ^ 32.
Proof.
  unfold component_pass.
  destruct (Z.leb_spec (loop_value s) (loop_i s)) as [|Hlt]; [discriminate|].
  destruct (cbor_parse_header (loop_parser s)) as [[[p1 mt] klen]|]; [|discriminate].
  destruct (negb (mt =? 3)); [discriminate|].
  destruct (cbor_parse_header (skip size_bits p1 klen)) as [[[p2 mt2] vlen]|] eqn:H2;
    [|discriminate].
  intros [= <-]. cbn [loop_i loop_value].
  split; [exact Hlt|]. split; [reflexivity|].
  exact (cbor_parse_header_value _ _ _ _ H2).
Qed.

Lemma component_pass_ended (depth : nat) (s : loop_state) (r : loop_result) :
  component_pass size_bits s = inr r -> component_passes size_bits depth s = inr r.
Proof.
  intros H. induction depth as [|depth IH]; cbn [component_passes]; [exact H|].
  now rewrite IH.
Qed.

Lemma component_passes_ended (depth depth' : nat) (s : loop_state) (r : loop_result) :
  (depth <= depth')%nat ->
  component_passes size_bits depth s = inr r ->
  component_passes size_bits depth' s = inr r.
Proof.
  intros Hle H. induction Hle as [|depth' _ IH]; [exact H|].
  cbn [component_passes]. now rewrite IH.
Qed.

(** [2 ^ depth] passes that all continue have raised the counter by
    [2 ^ depth], and the counter has not passed 2^32. *)
Lemma component_passes_count (depth : nat) :
  forall s s' : loop_state,
    0 <= loop_i s -> loop_value s < 2 ^ 32 ->
    component_passes size_bits depth s = inl s' ->
    loop_i s' = loop_i s + 2 ^ Z.of_nat depth /\
    loop_i s' <= 2 ^ 32 /\
    loop_value s' < 2 ^ 32.
Proof.
  induction depth as [|depth IH]; intros s s' Hi Hv H.
  - cbn [component_passes] in H.
    apply component_pass_next in H as (Hlt & Hnext & Hbound).
    assert (Hu : u64 (loop_i s + 1) = loop_i s + 1).
    { unfold u64. apply Z.mod_small. lia. }
    rewrite Hu in Hnext. change (2 ^ Z.of_nat 0) with 1. lia.
  - cbn [component_passes] in H.
    destruct (component_passes size_bits depth s) as [s1|r] eqn:H1; [|discriminate].
    destruct (IH s s1 Hi Hv H1) as (Hi1 & _ & Hv1).
    assert (Hpos : 0 < 2 ^ Z.of_nat depth) by (apply Z.pow_pos_nonneg; lia).
    destruct (IH s1 s' ltac:(lia) Hv1 H) as (Hi2 & Hle & Hv2).
    rewrite Nat2Z.inj_succ, Z.pow_succ_r by lia. lia.
Qed.

(** The component loop ends by itself on every buffer. *)
Lemma parse_components_ends (p : cbor_parser_t) (v : Z) :
  v < 2 ^ 32 -> exists r, parse_components size_bits p v = inr r.
Proof.
  intros Hv. unfold parse_components.
  destruct (component_passes size_bits 33 _) as [s'|r] eqn:H; [|now exists r].
  apply component_passes_count in H as (Hi & Hle & _); cbn [loop_i loop_value];
    try lia.
  cbn [loop_i] in Hi. change (2 ^ Z.of_nat 33) with (2 * 2 ^ 32) in Hi. lia.
Qed.

(** A map header that announces no pair: the loop is left at its first
    test, with no flag set. *)
Lemma parse_components_empty (p : cbor_parser_t) (n : Z) :
  n <= 0 -> parse_components size_bits p n = inr (LoopDone false false false).
Proof.
  intros Hn. unfold parse_components. apply component_pass_ended.
  unfold component_pass.
  cbn [loop_value loop_i found_model found_preprocessing found_actuation].
  destruct (Z.leb_spec n 0); [reflexivity | lia].
Qed.

(** X13.  The verdict of the envelope section, whatever the width of
    [size_t].  On every buffer the component loop ends by itself: its
    counter rises by one per pass and is compared with a parsed length,
    which is below 2^32 (the offset may move backwards when a length wraps
    it, so the passes are not bounded by the length of the buffer).  The
    section ends with [EDGEPLUG_OK] or [EDGEPLUG_ERROR_AGENT_LOAD], and
    with [EDGEPLUG_OK] only behind a map header that announces at least
    one pair: an empty buffer, a buffer that does not start with a map,
    and an empty map are all refused. *)
Theorem parse_envelope_verdict (bytes : list Z) :
  (forall p major_type n,
     cbor_parse_header (cbor_parser_init bytes) = Some (p, major_type, n) ->
     exists r, parse_components size_bits p n = inr r) /\
  (parse_envelope_at size_bits bytes = EDGEPLUG_OK \/
   parse_envelope_at size_bits bytes = EDGEPLUG_ERROR_AGENT_LOAD) /\
  (parse_envelope_at size_bits bytes = EDGEPLUG_OK ->
   exists p n, cbor_parse_header (cbor_parser_init bytes) = Some (p, 5, n) /\ 1 <= n).
Proof.
  split.
  { intros p mt n H. apply parse_components_ends.
    apply cbor_parse_header_value in H. lia. }
  unfold parse_envelope_at.
  destruct (cbor_parse_header (cbor_parser_init bytes)) as [[[p mt] n]|] eqn:Hh.
  2:{ split; [now right | discriminate]. }
  destruct (Z.eqb_spec mt 5) as [->|Hmt]; cbn [negb].
  2:{ split; [now right | discriminate]. }
  destruct (Z_lt_le_dec n 1) as [Hsmall|Hpairs].
  { rewrite parse_components_empty by lia. cbn [negb orb].
    split; [now right | discriminate]. }
  destruct (parse_components size_bits p n) as [s'|[fm fp fa|]].
  1,3: split; [now right | discriminate].
  split.
  - destruct (negb fm || negb fp || negb fa); auto.
  - intros _. exists p, n. split; [reflexivity | exact Hpairs].
Qed.

End AnySizeT.

Lemma text_header_byte (n : nat) :
  (n < 24)%nat ->
  Z.land (u8 (0x60 + Z.of_nat n)) 31 = Z.of_nat n /\
  Z.land (Z.shiftr (u8 (0x60 + Z.of_nat n)) 5) 7 = 3.
Proof.
  intros Hn.
  do 24 (destruct n as [|n]; [vm_compute; split; reflexivity|]). lia.
Qed.

(** X14.  The envelope section never looks at a key.  A map of one pair
    whose key is ANY text of up to 23 bytes, followed by an empty byte
    string, passes the section: all three [found_*] flags are set by the
    single iteration, whatever the key bytes are. *)
Theorem envelope_accepts_any_single_key (key : list Z) :
  (length key < 24)%nat ->
  parse_envelope (0xA1 :: (0x60 + Z.of_nat (length key)) :: key ++ [0x40])
  = EDGEPLUG_OK.
Proof.
  intros Hlen.
  destruct (text_header_byte (length key) Hlen) as [Hinfo Hmajor].
  set (bytes := 0xA1 :: (0x60 + Z.of_nat (length key)) :: key ++ [0x40]).
  assert (Hsize : Z.of_nat (length bytes) = Z.of_nat (length key) + 3).
  { subst bytes. cbn [length]. rewrite length_app. cbn [length]. lia. }
  assert (Hlast : nth (S (S (length key))) bytes 0 = 0x40).
  { subst bytes. cbn [nth]. rewrite app_nth2 by lia.
    now rewrite Nat.sub_diag. }
  unfold parse_envelope, parse_envelope_at.
  assert (H0 : cbor_parse_header (cbor_parser_init bytes)
               = Some (advance (cbor_parser_init bytes) 1, 5, 1)).
  { unfold cbor_parse_header, cbor_read_byte, cbor_parser_init.
    cbn [size offset data]. rewrite Hsize.
    destruct (Z.leb_spec (Z.of_nat (length key) + 3) 0); [lia|].
    reflexivity. }
  rewrite H0. cbn [Z.eqb Pos.eqb negb].
  assert (H1 : cbor_parse_header (advance (cbor_parser_init bytes) 1)
               = Some (advance (advance (cbor_parser_init bytes) 1) 1, 3,
                       Z.of_nat (length key))).
  { unfold cbor_parse_header, cbor_read_byte, cbor_parser_init.
    cbn [advance size offset data]. rewrite Hsize.
    destruct (Z.leb_spec (Z.of_nat (length key) + 3) (0 + 1)); [lia|].
    unfold byte_at. cbn [advance data].
    change (nth (Z.to_nat (0 + 1)) bytes 0) with (0x60 + Z.of_nat (length key)).
    rewrite Hinfo, Hmajor.
    destruct (Z.leb_spec (Z.of_nat (length key)) 23); [reflexivity | lia]. }
  assert (Hskip : skip SIZE_BITS (advance (advance (cbor_parser_init bytes) 1) 1)
                       (Z.of_nat (length key))
                  = advance (advance (advance (cbor_parser_init bytes) 1) 1)
                            (Z.of_nat (length key))).
  { unfold skip, advance, SIZE_BITS. cbn [data size offset]. f_equal.
    apply Z.mod_small. cbn [cbor_parser_init offset]. lia. }
  assert (H2 : cbor_parse_header
                 (advance (advance (advance (cbor_parser_init bytes) 1) 1)
                          (Z.of_nat (length key)))
               = Some (advance
                         (advance (advance (advance (cbor_parser_init bytes) 1) 1)
                                  (Z.of_nat (length key))) 1, 2, 0)).
  { unfold cbor_parse_header, cbor_read_byte, cbor_parser_init.
    cbn [advance size offset data]. rewrite Hsize.
    destruct (Z.leb_spec (Z.of_nat (length key) + 3)
                         (0 + 1 + 1 + Z.of_nat (length key))); [lia|].
    unfold byte_at. cbn [advance data].
    replace (Z.to_nat (0 + 1 + 1 + Z.of_nat (length key)))
      with (S (S (length key))) by lia.
    rewrite Hlast. reflexivity. }
  set (s0 := {| loop_parser := advance (cbor_parser_init bytes) 1;
                loop_i := 0; loop_value := 1; found_model := false;
                found_preprocessing := false; found_actuation := false |}).
  assert (Hpass : component_pass SIZE_BITS s0
                  = inl {| loop_parser :=
                             skip SIZE_BITS (advance
                                     (advance (advance (advance (cbor_parser_init bytes) 1) 1)
                                              (Z.of_nat (length key))) 1) 0;
                           loop_i := u64 (0 + 1); loop_value := 0;
                           found_model := true; found_preprocessing := true;
                           found_actuation := true |}).
  { unfold component_pass, s0. cbn [loop_value loop_i loop_parser].
    change (1 <=? 0) with false. cbv iota.
    rewrite H1. cbn [Z.eqb Pos.eqb negb]. rewrite Hskip, H2. reflexivity. }
  unfold parse_components. fold s0.
  rewrite (component_passes_ended SIZE_BITS 1 33 s0 (LoopDone true true true));
    [reflexivity|lia|].
  cbn [component_passes]. rewrite Hpass.
  unfold component_pass. cbn [loop_value loop_i found_model found_preprocessing
                               found_actuation].
  change (0 <=? u64 (0 + 1)) with true. reflexivity.
Qed.

(** One pass on [envelope_wrap] with a [size_t] of 32 bits: the key header
    is read at offset 1 and leaves the parser at offset 6; skipping
    0xFFFFFFFB key bytes wraps the offset to 1, where the same header is
    read again as the value header; skipping its length wraps the offset
    to 1 once more. *)
Lemma wrap_pass (k : Z) :
  0 <= k <= 0xFFFFFFFB ->
  component_pass 32 (wrap_state k)
  = if k <? 0xFFFFFFFB then inl (wrap_state (k + 1))
    else inr (LoopDone true true true).
Proof.
  intros Hk. unfold component_pass, wrap_state.
  cbn [loop_value loop_i loop_parser found_model found_preprocessing found_actuation].
  destruct (Z.leb_spec 0xFFFFFFFB k) as [Hge|Hlt].
  - destruct (Z.ltb_spec k 0xFFFFFFFB); [lia | reflexivity].
  - destruct (Z.ltb_spec k 0xFFFFFFFB); [|lia].
    change (cbor_parse_header (advance (cbor_parser_init envelope_wrap) 1))
      with (Some ({| data := envelope_wrap; size := 6; offset := 6 |}, 3, 0xFFFFFFFB)).
    cbn [Z.eqb Pos.eqb negb].
    change (skip 32 {| data := envelope_wrap; size := 6; offset := 6 |} 0xFFFFFFFB)
      with (advance (cbor_parser_init envelope_wrap) 1).
    change (cbor_parse_header (advance (cbor_parser_init envelope_wrap) 1))
      with (Some ({| data := envelope_wrap; size := 6; offset := 6 |}, 3, 0xFFFFFFFB)).
    cbv iota beta.
    change (skip 32 {| data := envelope_wrap; size := 6; offset := 6 |} 0xFFFFFFFB)
      with (advance (cbor_parser_init envelope_wrap) 1).
    unfold u64. rewrite Z.mod_small by lia. reflexivity.
Qed.

Lemma wrap_passes (depth : nat) :
  forall k, 1 <= k <= 0xFFFFFFFB ->
    component_passes 32 depth (wrap_state k)
    = if k + 2 ^ Z.of_nat depth <=? 0xFFFFFFFB
      then inl (wrap_state (k + 2 ^ Z.of_nat depth))
      else inr (LoopDone true true true).
Proof.
  induction depth as [|depth IH]; intros k Hk.
  - cbn [component_passes]. rewrite wrap_pass by lia. change (2 ^ Z.of_nat 0) with 1.
    destruct (Z.ltb_spec k 0xFFFFFFFB), (Z.leb_spec (k + 1) 0xFFFFFFFB);
      try lia; reflexivity.
  - cbn [component_passes]. rewrite IH by exact Hk.
    assert (Hpos : 0 < 2 ^ Z.of_nat depth) by (apply Z.pow_pos_nonneg; lia).
    rewrite Nat2Z.inj_succ, Z.pow_succ_r by lia.
    destruct (Z.leb_spec (k + 2 ^ Z.of_nat depth) 0xFFFFFFFB).
    + rewrite IH by lia.
      replace (k + 2 ^ Z.of_nat depth + 2 ^ Z.of_nat depth)
        with (k + 2 * 2 ^ Z.of_nat depth) by lia.
      reflexivity.
    + destruct (Z.leb_spec (k + 2 * 2 ^ Z.of_nat depth) 0xFFFFFFFB); [lia | reflexivity].
Qed.

(** A length that wraps the offset.  With a [size_t] of 32 bits the loop
    never leaves the six bytes of [envelope_wrap]: it makes 0xFFFFFFFB
    passes over the same header and then falls through with all three
    flags set, so the section ends with [EDGEPLUG_OK] for a buffer that
    holds no key bytes and no value at all.  With a [size_t] of 64 bits
    the first skip leads past the end of the buffer and the section ends
    with [EDGEPLUG_ERROR_AGENT_LOAD]. *)
Lemma envelope_length_wraps_offset :
  parse_envelope envelope_wrap = EDGEPLUG_OK /\
  parse_envelope_at 64 envelope_wrap = EDGEPLUG_ERROR_AGENT_LOAD.
Proof.
  split; [|vm_compute; reflexivity].
  unfold parse_envelope, parse_envelope_at, SIZE_BITS.
  change (cbor_parse_header (cbor_parser_init envelope_wrap))
    with (Some (advance (cbor_parser_init envelope_wrap) 1, 5, 1)).
  cbn [Z.eqb Pos.eqb negb]. unfold parse_components.
  assert (H : forall depth : nat,
             component_passes 32 depth
               {| loop_parser := advance (cbor_parser_init envelope_wrap) 1;
                  loop_i := 0; loop_value := 1; found_model := false;
                  found_preprocessing := false; found_actuation := false |}
             = if 2 ^ Z.of_nat depth <=? 0xFFFFFFFB
               then inl (wrap_state (2 ^ Z.of_nat depth))
               else inr (LoopDone true true true)).
  { induction depth as [|depth IH].
    - vm_compute. reflexivity.
    - cbn [component_passes]. rewrite IH.
      assert (Hpos : 0 < 2 ^ Z.of_nat depth) by (apply Z.pow_pos_nonneg; lia).
      rewrite Nat2Z.inj_succ, Z.pow_succ_r by lia.
      destruct (Z.leb_spec (2 ^ Z.of_nat depth) 0xFFFFFFFB).
      + rewrite wrap_passes by lia.
        replace (2 ^ Z.of_nat depth + 2 ^ Z.of_nat depth)
          with (2 * 2 ^ Z.of_nat depth) by lia.
        reflexivity.
      + destruct (Z.leb_spec (2 * 2 ^ Z.of_nat depth) 0xFFFFFFFB); [lia | reflexivity]. }
  rewrite H. reflexivity.
Qed.

(** X15.  [agent_loader_load] hands [verify_signature] a NULL public key,
    so no image gets past the signature check: neither
    [agent_loader_load] nor [agent_loader_hotswap] ever returns
    [EDGEPLUG_OK], and neither changes the slots, the active slot or the
    manifest; the accessors answer after the call as they did before. *)
Theorem loader_accepts_no_image (st : state) (d : option (list Z))
    (m : option edgeplug_manifest_t) :
  let loaded := agent_loader_load st d m in
  let swapped := agent_loader_hotswap st d m in
  snd loaded <> EDGEPLUG_OK /\
  snd swapped <> EDGEPLUG_OK /\
  agent_loader_get_active_agent (fst loaded) = agent_loader_get_active_agent st /\
  agent_loader_get_active_agent (fst swapped) = agent_loader_get_active_agent st /\
  active_payload (fst swapped) = active_payload st /\
  agent_loader_get_manifest (fst swapped) = agent_loader_get_manifest st.
Proof.
  cbv zeta.
  destruct (agent_loader_load_rejects_all st d m) as [Hl Hlst].
  assert (Hswap : snd (agent_loader_hotswap st d m) <> EDGEPLUG_OK /\
                  fst (agent_loader_hotswap st d m) = st).
  { unfold agent_loader_hotswap.
    destruct (agent_loader_load st d m) as [st1 status]. cbn [fst snd] in *.
    destruct status; try contradiction; cbn; (split; [discriminate|exact Hlst]). }
  destruct Hswap as [Hs Hsst]. rewrite Hlst, Hsst.
  repeat split; assumption.
Qed.

(** X16.  The digest the loader compares, [calculate_hash], is always 64
    bytes long and depends on the first 64 bytes of the image only: two
    images that agree there have the same digest, however they differ
    afterwards. *)
Theorem calculate_hash_reads_64_bytes (a b : list Z) :
  take 64 a = take 64 b ->
  calculate_hash a = calculate_hash b /\ length (calculate_hash a) = 64%nat.
Proof.
  intros Hprefix. unfold calculate_hash. split.
  - apply map_ext_in. intros i Hi. apply in_seq in Hi.
    rewrite <- (lookup_take_lt a 64 i), <- (lookup_take_lt b 64 i) by lia.
    now rewrite Hprefix.
  - now rewrite length_map, length_seq.
Qed.

End AgentLoaderParser.

Section AgentLoaderParserExamples.
Import AgentLoader.

(** The two-byte length form: 0x59 0x01 0x00 announces a byte string of
    256 bytes and consumes three bytes. *)
Lemma cbor_header_stays_in_buffer_witness :
  let p := cbor_parser_init [0x59; 0x01; 0x00] in
  exists p', cbor_parse_header p = Some (p', 2, 256) /\ offset p' <= size p.
Proof.
  cbv zeta. eexists. split; [vm_compute; reflexivity|].
  exact (proj1 (proj2 (cbor_header_stays_in_buffer
                         (cbor_parser_init [0x59; 0x01; 0x00]) _ 2 256
                         ltac:(cbn; lia) ltac:(vm_compute; reflexivity)))).
Defined.

Lemma envelope_accepts_any_single_key_witness :
  parse_envelope [0xA1; 0x63; 0x66; 0x6F; 0x6F; 0x40] = EDGEPLUG_OK.
Proof.
  exact (envelope_accepts_any_single_key [0x66; 0x6F; 0x6F] ltac:(cbn; lia)).
Defined.

Lemma calculate_hash_reads_64_bytes_witness :
  calculate_hash (replicate 64 1 ++ [2]) = calculate_hash (replicate 64 1 ++ [3; 4]).
Proof.
  exact (proj1 (calculate_hash_reads_64_bytes (replicate 64 1 ++ [2])
                  (replicate 64 1 ++ [3; 4]) ltac:(reflexivity))).
Defined.

End AgentLoaderParserExamples.

(** ** actuator.c: the tables, the statistics and the dispatcher *)

Section ActuatorTables.
Import Actuator.

Variable timer : nat -> Z.

Lemma find_entry_Some (keys : list Z) (count key : Z) (i : nat) :
  find_entry keys count key = Some i ->
  (i < Z.to_nat count)%nat /\ keys !! i = Some key.
Proof.
  unfold find_entry. intros H.
  destruct (list_find _ _) as [[j x]|] eqn:Hfind; [|discriminate].
  cbn in H. injection H as ->.
  apply list_find_Some in Hfind as (Hlk & -> & _).
  apply lookup_take_Some in Hlk as [Hlk Hlt]. auto.
Qed.

Lemma find_entry_None (keys : list Z) (count key : Z) :
  find_entry keys count key = None -> key ∉ take (Z.to_nat count) keys.
Proof.
  unfold find_entry. intros H.
  destruct (list_find _ _) as [[j x]|] eqn:Hfind; [discriminate|].
  apply list_find_None in Hfind. intros Hin.
  rewrite Forall_forall in Hfind. now apply (Hfind key).
Qed.

Lemma find_entry_snoc (keys : list Z) (count key other : Z) :
  0 <= count -> (Z.to_nat count < length keys)%nat ->
  find_entry (<[Z.to_nat count := key]> keys) (count + 1) other
  = match find_entry keys count other with
    | Some i => Some i
    | None => if decide (key = other) then Some (Z.to_nat count) else None
    end.
Proof.
  intros Hc Hlt. unfold find_entry.
  replace (Z.to_nat (count + 1)) with (S (Z.to_nat count)) by lia.
  rewrite (take_S_r _ _ key) by now apply list_lookup_insert_eq.
  rewrite take_insert_ge by lia.
  destruct (list_find (fun k => k = other) (take (Z.to_nat count) keys))
    as [[j x]|] eqn:Hfind.
  - now erewrite list_find_app_l by exact Hfind.
  - rewrite list_find_app_r by exact Hfind. cbn [list_find].
    rewrite length_take_le by lia.
    destruct (decide (key = other)); cbn; reflexivity.
Qed.

(** The "find or add" block keeps a table in good order. *)
Lemma find_or_add_ok {A : Type} (keys : list Z) (vals : list A) (count limit key : Z)
    (val : A) :
  limit <= 255 ->
  table_ok keys vals count limit ->
  let '(keys', vals', count') := find_or_add keys vals count limit key val in
  table_ok keys' vals' count' limit.
Proof.
  intros Hlimit (Hcount & Hk & Hv & Hnodup). unfold find_or_add.
  destruct (find_entry keys count key) as [i|] eqn:Hfind.
  - repeat split; try lia; try assumption. now rewrite length_insert.
  - destruct (Z.ltb_spec count limit) as [Hroom|Hfull].
    + assert (Hu : u8 (count + 1) = count + 1)
        by (unfold u8; apply Z.mod_small; lia).
      rewrite Hu. repeat split; try lia; rewrite ?length_insert; try assumption.
      replace (Z.to_nat (count + 1)) with (S (Z.to_nat count)) by lia.
      rewrite (take_S_r _ _ key) by (apply list_lookup_insert_eq; lia).
      rewrite take_insert_ge by lia.
      apply NoDup_app. split; [exact Hnodup|]. split; [|apply NoDup_singleton].
      intros x Hx Hx'. apply list_elem_of_singleton in Hx'. subst x.
      now apply (find_entry_None keys count key).
    + repeat split; try lia; assumption.
Qed.

(** What the table answers after the block ran. *)
Lemma find_or_add_lookup {A : Type} (keys : list Z) (vals : list A)
    (count limit key : Z) (val : A) :
  limit <= 255 ->
  0 <= count <= limit ->
  length keys = Z.to_nat limit -> length vals = Z.to_nat limit ->
  let '(keys', vals', count') := find_or_add keys vals count limit key val in
  (table_lookup keys vals count key <> None \/ count < limit ->
   table_lookup keys' vals' count' key = Some val) /\
  (table_lookup keys vals count key = None -> limit <= count ->
   keys' = keys /\ vals' = vals /\ count' = count) /\
  (forall other, other <> key ->
   table_lookup keys' vals' count' other = table_lookup keys vals count other).
Proof.
  intros Hlimit Hcount Hk Hv. unfold find_or_add, table_lookup.
  destruct (find_entry keys count key) as [i|] eqn:Hfind.
  - destruct (find_entry_Some _ _ _ _ Hfind) as [Hi Hki].
    rewrite Hfind. split; [|split].
    + intros _. apply list_lookup_insert_eq. lia.
    + destruct (lookup_lt_is_Some_2 vals i ltac:(lia)) as [x Hx].
      rewrite Hx. discriminate.
    + intros other Hne.
      destruct (find_entry keys count other) as [j|] eqn:Hother; [|reflexivity].
      destruct (find_entry_Some _ _ _ _ Hother) as [Hj Hkj].
      apply list_lookup_insert_ne. intros ->. congruence.
  - destruct (Z.ltb_spec count limit) as [Hroom|Hfull].
    + assert (Hu : u8 (count + 1) = count + 1)
        by (unfold u8; apply Z.mod_small; lia).
      rewrite Hu. split; [|split].
      * intros _. rewrite find_entry_snoc, Hfind by lia.
        destruct (decide (key = key)); [|contradiction].
        apply list_lookup_insert_eq. lia.
      * intros _ Hge. lia.
      * intros other Hne. rewrite find_entry_snoc by lia.
        destruct (find_entry keys count other) as [j|] eqn:Hother.
        -- destruct (find_entry_Some _ _ _ _ Hother) as [Hj _].
           apply list_lookup_insert_ne. lia.
        -- destruct (decide (key = other)); [congruence | reflexivity].
    + rewrite Hfind. split; [|split]; auto.
      intros [H|H]; [contradiction | lia].
Qed.

Lemma tables_ok_configs (st st' : state) :
  opcua_config st' = opcua_config st ->
  modbus_config st' = modbus_config st ->
  gpio_config st' = gpio_config st ->
  tables_ok st -> tables_ok st'.
Proof. unfold tables_ok. now intros -> -> ->. Qed.

Lemma write_opcua_tables_ok (node_id : Z) (val : spec_float) (st : state) :
  tables_ok st -> tables_ok (fst (actuator_write_opcua timer node_id val st)).
Proof.
  intros Hok. unfold actuator_write_opcua.
  destruct (node_id =? 0); [exact Hok|].
  cbn [get_system_time_ms opcua_config].
  destruct Hok as (Hopc & Hrest).
  pose proof (find_or_add_ok _ _ _ MAX_OPCUA_NODES node_id val
                ltac:(unfold MAX_OPCUA_NODES; lia) Hopc) as Hadd.
  destruct (find_or_add _ _ _ _ _ _) as [[ids vals] count].
  match goal with
  | |- context [finish_timing timer ?s ?t] =>
      destruct (finish_timing_frame timer s t) as (_ & Ho & Hm & Hg);
      apply (tables_ok_configs s); [exact Ho | exact Hm | exact Hg |]
  end.
  split; [exact Hadd | exact Hrest].
Qed.

Lemma write_modbus_tables_ok (address val : Z) (st : state) :
  tables_ok st -> tables_ok (fst (actuator_write_modbus timer address val st)).
Proof.
  intros Hok. unfold actuator_write_modbus.
  destruct (address =? 0); [exact Hok|].
  cbn [get_system_time_ms modbus_config].
  destruct Hok as (Hopc & Hmod & Hrest).
  pose proof (find_or_add_ok _ _ _ MAX_MODBUS_REGS address val
                ltac:(unfold MAX_MODBUS_REGS; lia) Hmod) as Hadd.
  destruct (find_or_add _ _ _ _ _ _) as [[addrs vals] count].
  match goal with
  | |- context [finish_timing timer ?s ?t] =>
      destruct (finish_timing_frame timer s t) as (_ & Ho & Hm & Hg);
      apply (tables_ok_configs s); [exact Ho | exact Hm | exact Hg |]
  end.
  split; [exact Hopc|]. split; [exact Hadd | exact Hrest].
Qed.

Lemma write_gpio_tables_ok (pin pin_state : Z) (st : state) :
  tables_ok st -> tables_ok (fst (actuator_write_gpio timer pin pin_state st)).
Proof.
  intros Hok. unfold actuator_write_gpio.
  destruct ((MAX_GPIO_PINS <=? pin) || (1 <? pin_state)); [exact Hok|].
  destruct (negb (initialized (gpio_config st))); [exact Hok|].
  cbn [get_system_time_ms gpio_config].
  destruct Hok as (Hopc & Hmod & Hcount & Hpins & Hstates).
  destruct (find_or_add _ _ _ _ _ _) as [[pins states] count] eqn:Hadd.
  match goal with
  | |- context [finish_timing timer ?s ?t] =>
      destruct (finish_timing_frame timer s t) as (_ & Ho & Hm & Hg);
      apply (tables_ok_configs s); [exact Ho | exact Hm | exact Hg |]
  end.
  split; [exact Hopc|]. split; [exact Hmod|].
  cbn [gpio_config pin_count pin_numbers pin_states].
  unfold find_or_add in Hadd.
  destruct (find_entry _ _ _).
  - injection Hadd as <- <- <-. rewrite length_insert. auto.
  - destruct (Z.ltb_spec (pin_count (gpio_config st)) MAX_GPIO_PINS);
      injection Hadd as <- <- <-; rewrite ?length_insert; [|auto].
    unfold MAX_GPIO_PINS, u8 in *.
    rewrite (Z.mod_small (pin_count (gpio_config st) + 1)) by lia.
    repeat split; try assumption; lia.
Qed.

Lemma execute_command_tables_ok (cmd : option edgeplug_actuation_cmd_t) (st : state) :
  tables_ok st -> tables_ok (fst (actuator_execute_command timer cmd st)).
Proof.
  intros Hok. unfold actuator_execute_command.
  destruct cmd as [c|]; [|exact Hok].
  assert (H1 : tables_ok
                 (fst (if negb (opcua_node c =? 0)
                       then actuator_write_opcua timer (opcua_node c) (value c) st
                       else (st, EDGEPLUG_OK)))).
  { destruct (negb (opcua_node c =? 0)); [now apply write_opcua_tables_ok | exact Hok]. }
  destruct (if negb (opcua_node c =? 0) then _ else _) as [st1 status1].
  cbn [fst] in H1.
  destruct (negb (status_eqb status1 EDGEPLUG_OK)); [exact H1|].
  assert (H2 : tables_ok
                 (fst (if negb (modbus_addr c =? 0)
                       then actuator_write_modbus timer (modbus_addr c)
                              (f32_to_u16 (value c)) st1
                       else (st1, EDGEPLUG_OK)))).
  { destruct (negb (modbus_addr c =? 0)); [now apply write_modbus_tables_ok | exact H1]. }
  destruct (if negb (modbus_addr c =? 0) then _ else _) as [st2 status2].
  cbn [fst] in H2.
  destruct (negb (status_eqb status2 EDGEPLUG_OK)); [exact H2|].
  assert (H3 : tables_ok
                 (fst (if gpio_pin c <? MAX_GPIO_PINS
                       then actuator_write_gpio timer (gpio_pin c) (gpio_state c) st2
                       else (st2, EDGEPLUG_OK)))).
  { destruct (gpio_pin c <? MAX_GPIO_PINS); [now apply write_gpio_tables_ok | exact H2]. }
  destruct (if gpio_pin c <? MAX_GPIO_PINS then _ else _) as [st3 status3].
  cbn [fst] in H3.
  destruct (negb (status_eqb status3 EDGEPLUG_OK)); exact H3.
Qed.

Lemma foldl_insert_length {A : Type} (f : nat -> A) (l : list A) (idx : list nat) :
  length (foldl (fun acc i => <[i := f i]> acc) l idx) = length l.
Proof.
  revert l. induction idx as [|i idx IH]; intros l; cbn [foldl]; [reflexivity|].
  now rewrite IH, length_insert.
Qed.

Lemma step_tables_ok (st : state) (op : operation) :
  tables_ok st -> tables_ok (step timer st op).
Proof.
  intros Hok. destruct op; cbn [step].
  - unfold tables_ok, table_ok, MAX_OPCUA_NODES, MAX_MODBUS_REGS, MAX_GPIO_PINS.
    cbn. repeat split; try lia; apply NoDup_nil_2.
  - now apply write_opcua_tables_ok.
  - now apply write_modbus_tables_ok.
  - now apply write_gpio_tables_ok.
  - now apply execute_command_tables_ok.
  - exact Hok.
  - unfold actuator_config_modbus. destruct (slave =? 0); exact Hok.
  - unfold actuator_config_gpio. destruct pins as [ps|]; [|exact Hok].
    destruct (Z.eqb_spec (Z.of_nat count) 0) as [|Hc0]; [exact Hok|].
    destruct (Z.ltb_spec MAX_GPIO_PINS (Z.of_nat count)) as [|Hc8]; [exact Hok|].
    cbn [orb fst]. destruct Hok as (Hopc & Hmod & Hcount & Hpins & Hstates).
    split; [exact Hopc|]. split; [exact Hmod|].
    cbn [gpio_config pin_count pin_numbers pin_states].
    rewrite (foldl_insert_length (fun i => nth i ps 0)).
    rewrite (foldl_insert_length (fun _ => 0)).
    repeat split; try assumption; lia.
  - exact Hok.
Qed.

Lemma run_tables_ok (ops : list operation) :
  tables_ok (run timer initial_state ops).
Proof.
  unfold run. induction ops as [|op ops IH] using rev_ind.
  - unfold tables_ok, table_ok, MAX_OPCUA_NODES, MAX_MODBUS_REGS, MAX_GPIO_PINS.
    cbn. repeat split; try lia; apply NoDup_nil_2.
  - rewrite foldl_app. cbn [foldl]. now apply step_tables_ok.
Qed.

(** X17.  The three tables never overflow.  From program start, over any
    sequence of public calls, the entry counts stay within 16 nodes, 32
    registers and 8 lines, the arrays keep their declared lengths, and no
    node id and no register address is stored twice. *)
Theorem tables_stay_within_limits (ops : list operation) :
  let st := run timer initial_state ops in
  0 <= node_count (opcua_config st) <= 16 /\
  0 <= register_count (modbus_config st) <= 32 /\
  0 <= pin_count (gpio_config st) <= 8 /\
  NoDup (take (Z.to_nat (node_count (opcua_config st))) (node_ids (opcua_config st))) /\
  NoDup (take (Z.to_nat (register_count (modbus_config st)))
              (register_addresses (modbus_config st))) /\
  tables_ok st.
Proof.
  cbv zeta. pose proof (run_tables_ok ops) as Hok.
  split; [apply Hok|]. split; [apply Hok|]. split; [apply Hok|].
  split; [apply Hok|]. split; [apply Hok | exact Hok].
Qed.

(** X18.  Write, then look up.  In any state the runtime can reach, a
    non-zero node id written with [actuator_write_opcua] is afterwards
    found in the table with the value just written, provided the node was
    already there or fewer than 16 nodes are stored; the entries of all
    other nodes are untouched.  When 16 other nodes are stored, the table
    is left as it is: the request still goes out, but the value is not
    remembered. *)
Theorem write_opcua_then_lookup (ops : list operation) (node_id : Z)
    (val : spec_float) :
  node_id <> 0 ->
  let st := run timer initial_state ops in
  let st' := fst (actuator_write_opcua timer node_id val st) in
  (opcua_value st node_id <> None \/ node_count (opcua_config st) < 16 ->
   opcua_value st' node_id = Some val) /\
  (opcua_value st node_id = None -> 16 <= node_count (opcua_config st) ->
   opcua_value st' node_id = None /\
   sent st' = sent st ++ [OpcuaWrite (opcua_request node_id val)]) /\
  (forall other, other <> node_id -> opcua_value st' other = opcua_value st other).
Proof.
  intros Hnode. cbv zeta.
  pose proof (run_tables_ok ops) as ((Hcount & Hk & Hv & _) & _).
  set (st := run timer initial_state ops) in *.
  pose proof (write_opcua_transfers timer node_id val st Hnode) as (Hsent & _).
  unfold opcua_value, actuator_write_opcua in *.
  destruct (Z.eqb_spec node_id 0); [contradiction|].
  cbn [get_system_time_ms opcua_config] in *.
  pose proof (find_or_add_lookup (node_ids (opcua_config st))
                (values (opcua_config st)) (node_count (opcua_config st))
                MAX_OPCUA_NODES node_id val
                ltac:(unfold MAX_OPCUA_NODES; lia) Hcount Hk Hv) as Hlook.
  destruct (find_or_add _ _ _ _ _ _) as [[ids vals] count].
  destruct Hlook as (Hhit & Hfull & Hother).
  match goal with
  | |- context [finish_timing timer ?s ?t] =>
      destruct (finish_timing_frame timer s t) as (_ & Ho & _);
      rewrite Ho in *
  end.
  cbn [opcua_config node_ids values node_count] in *.
  split; [exact Hhit|]. split; [|exact Hother].
  intros Hnone Hge. destruct (Hfull Hnone Hge) as (-> & -> & ->).
  split; [exact Hnone | exact Hsent].
Qed.

Lemma finish_timing_counts (st : state) (start_time : Z) :
  let st' := fst (finish_timing timer st start_time) in
  sent st' = sent st /\
  actuation_count st' = u32 (actuation_count st + 1) /\
  timer_reads st' = S (timer_reads st).
Proof.
  cbv zeta. unfold finish_timing. cbn [get_system_time_ms].
  destruct (10 <? _); repeat split; reflexivity.
Qed.

Lemma transfers_counted_none (st : state) : transfers_counted st st [].
Proof.
  unfold transfers_counted. rewrite app_nil_r. cbn. repeat split. lia.
Qed.

Lemma transfers_counted_app (st st1 st2 : state) (new1 new2 : list transfer) :
  transfers_counted st st1 new1 -> transfers_counted st1 st2 new2 ->
  transfers_counted st st2 (new1 ++ new2).
Proof.
  intros (Hs1 & Hc1 & Ht1) (Hs2 & Hc2 & Ht2). unfold transfers_counted.
  rewrite Hs2, Hs1, Hc2, Hc1, Ht2, Ht1, length_app, <- app_assoc.
  split; [reflexivity|]. split; [|lia].
  rewrite Nat.add_comm. symmetry. apply Nat.iter_add.
Qed.

(** One writer call either turns its arguments down and changes nothing,
    or performs exactly one transfer. *)
Lemma write_opcua_counted (node_id : Z) (val : spec_float) (st : state) :
  exists new, (length new <= 1)%nat /\
    transfers_counted st (fst (actuator_write_opcua timer node_id val st)) new.
Proof.
  unfold actuator_write_opcua.
  destruct (node_id =? 0).
  { exists []. split; [cbn; lia | apply transfers_counted_none]. }
  cbn [get_system_time_ms opcua_config].
  destruct (find_or_add _ _ _ _ _ _) as [[ids vals] count].
  eexists [_]. split; [cbn; lia|]. unfold transfers_counted.
  match goal with
  | |- context [finish_timing timer ?s ?t] =>
      destruct (finish_timing_counts s t) as (-> & -> & ->)
  end.
  cbn. repeat split. lia.
Qed.

Lemma write_modbus_counted (address val : Z) (st : state) :
  exists new, (length new <= 1)%nat /\
    transfers_counted st (fst (actuator_write_modbus timer address val st)) new.
Proof.
  unfold actuator_write_modbus.
  destruct (address =? 0).
  { exists []. split; [cbn; lia | apply transfers_counted_none]. }
  cbn [get_system_time_ms modbus_config].
  destruct (find_or_add _ _ _ _ _ _) as [[addrs vals] count].
  eexists [_]. split; [cbn; lia|]. unfold transfers_counted.
  match goal with
  | |- context [finish_timing timer ?s ?t] =>
      destruct (finish_timing_counts s t) as (-> & -> & ->)
  end.
  cbn. repeat split. lia.
Qed.

Lemma write_gpio_counted (pin pin_state : Z) (st : state) :
  exists new, (length new <= 1)%nat /\
    transfers_counted st (fst (actuator_write_gpio timer pin pin_state st)) new.
Proof.
  unfold actuator_write_gpio.
  destruct ((MAX_GPIO_PINS <=? pin) || (1 <? pin_state)).
  { exists []. split; [cbn; lia | apply transfers_counted_none]. }
  destruct (negb (initialized (gpio_config st))).
  { exists []. split; [cbn; lia | apply transfers_counted_none]. }
  cbn [get_system_time_ms gpio_config].
  destruct (find_or_add _ _ _ _ _ _) as [[pins states] count].
  eexists [_]. split; [cbn; lia|]. unfold transfers_counted.
  match goal with
  | |- context [finish_timing timer ?s ?t] =>
      destruct (finish_timing_counts s t) as (-> & -> & ->)
  end.
  cbn. repeat split. lia.
Qed.

(** X19.  Every transfer is timed and counted, and nothing else is.  A
    call of [actuator_execute_command], whatever it returns, appends at
    most three transfers to what has been sent; [actuation_count] goes up
    by one (modulo 2^32) per appended transfer and the clock is read
    exactly twice per appended transfer. *)
Theorem every_transfer_is_counted (cmd : option edgeplug_actuation_cmd_t)
    (st : state) :
  exists new : list transfer,
    (length new <= 3)%nat /\
    transfers_counted st (fst (actuator_execute_command timer cmd st)) new.
Proof.
  unfold actuator_execute_command.
  destruct cmd as [c|].
  2:{ exists []. split; [cbn; lia | apply transfers_counted_none]. }
  assert (H1 : exists new, (length new <= 1)%nat /\
                 transfers_counted st
                   (fst (if negb (opcua_node c =? 0)
                         then actuator_write_opcua timer (opcua_node c) (value c) st
                         else (st, EDGEPLUG_OK))) new).
  { destruct (negb (opcua_node c =? 0)); [apply write_opcua_counted|].
    exists []. split; [cbn; lia | apply transfers_counted_none]. }
  destruct (if negb (opcua_node c =? 0) then _ else _) as [st1 status1].
  cbn [fst] in H1. destruct H1 as (new1 & Hn1 & H1).
  destruct (negb (status_eqb status1 EDGEPLUG_OK)).
  { exists new1. split; [lia | exact H1]. }
  assert (H2 : exists new, (length new <= 1)%nat /\
                 transfers_counted st1
                   (fst (if negb (modbus_addr c =? 0)
                         then actuator_write_modbus timer (modbus_addr c)
                                (f32_to_u16 (value c)) st1
                         else (st1, EDGEPLUG_OK))) new).
  { destruct (negb (modbus_addr c =? 0)); [apply write_modbus_counted|].
    exists []. split; [cbn; lia | apply transfers_counted_none]. }
  destruct (if negb (modbus_addr c =? 0) then _ else _) as [st2 status2].
  cbn [fst] in H2. destruct H2 as (new2 & Hn2 & H2).
  pose proof (transfers_counted_app _ _ _ _ _ H1 H2) as H12.
  destruct (negb (status_eqb status2 EDGEPLUG_OK)).
  { exists (new1 ++ new2). split; [rewrite length_app; lia | exact H12]. }
  assert (H3 : exists new, (length new <= 1)%nat /\
                 transfers_counted st2
                   (fst (if gpio_pin c <? MAX_GPIO_PINS
                         then actuator_write_gpio timer (gpio_pin c) (gpio_state c) st2
                         else (st2, EDGEPLUG_OK))) new).
  { destruct (gpio_pin c <? MAX_GPIO_PINS); [apply write_gpio_counted|].
    exists []. split; [cbn; lia | apply transfers_counted_none]. }
  destruct (if gpio_pin c <? MAX_GPIO_PINS then _ else _) as [st3 status3].
  cbn [fst] in H3. destruct H3 as (new3 & Hn3 & H3).
  pose proof (transfers_counted_app _ _ _ _ _ H12 H3) as H123.
  exists ((new1 ++ new2) ++ new3).
  split; [rewrite !length_app; lia|].
  destruct (negb (status_eqb status3 EDGEPLUG_OK)); exact H123.
Qed.

(** X20.  The dispatcher stops at the first writer that fails and undoes
    nothing.  When the network write of a command takes more than 10 ms,
    [actuator_execute_command] returns [EDGEPLUG_ERROR_ACTUATION] with the
    OPC-UA request sent and counted, and neither the register write nor
    the line write of the same command is attempted. *)
Theorem execute_stops_at_failed_network_write (cmd : edgeplug_actuation_cmd_t)
    (st : state) :
  opcua_node cmd <> 0 ->
  10 < u32 (u32 (timer (S (timer_reads st))) - u32 (timer (timer_reads st))) ->
  let st' := fst (actuator_execute_command timer (Some cmd) st) in
  snd (actuator_execute_command timer (Some cmd) st) = EDGEPLUG_ERROR_ACTUATION /\
  sent st' = sent st ++ [OpcuaWrite (opcua_request (opcua_node cmd) (value cmd))] /\
  modbus_config st' = modbus_config st /\
  gpio_config st' = gpio_config st /\
  actuation_count st' = u32 (actuation_count st + 1).
Proof.
  intros Hnode Hslow. cbv zeta. unfold actuator_execute_command.
  destruct (Z.eqb_spec (opcua_node cmd) 0) as [|_]; [contradiction|]. cbn [negb].
  assert (Hw : snd (actuator_write_opcua timer (opcua_node cmd) (value cmd) st)
               = EDGEPLUG_ERROR_ACTUATION /\
               actuation_count (fst (actuator_write_opcua timer (opcua_node cmd)
                                       (value cmd) st))
               = u32 (actuation_count st + 1)).
  { unfold actuator_write_opcua.
    destruct (Z.eqb_spec (opcua_node cmd) 0) as [|_]; [contradiction|].
    cbn [get_system_time_ms opcua_config].
    destruct (find_or_add _ _ _ _ _ _) as [[ids vals] count].
    unfold finish_timing. cbn [get_system_time_ms timer_reads].
    destruct (Z.ltb_spec 10 (u32 (u32 (timer (S (timer_reads st)))
                                  - u32 (timer (timer_reads st))))); [|lia].
    split; reflexivity. }
  destruct (write_opcua_transfers timer (opcua_node cmd) (value cmd) st Hnode)
    as (Hsent & Hmod & Hgpio).
  destruct (actuator_write_opcua timer (opcua_node cmd) (value cmd) st)
    as [st1 status1].
  cbn [fst snd] in *. destruct Hw as [-> Hcount].
  cbn [status_eqb negb fst snd]. auto.
Qed.

End ActuatorTables.

Section ActuatorTablesExamples.
Import Actuator.

Lemma write_opcua_then_lookup_witness :
  opcua_value (fst (actuator_write_opcua software_timer 1001 (f32_of_Z 3)
                      (run software_timer initial_state [OpInit])))
              1001
  = Some (f32_of_Z 3).
Proof.
  exact (proj1 (write_opcua_then_lookup software_timer [OpInit] 1001 (f32_of_Z 3)
                  ltac:(lia))
           ltac:(right; vm_compute; reflexivity)).
Defined.

(** A platform timer on which consecutive reads lie 20 ms apart. *)
Lemma execute_stops_at_failed_network_write_witness :
  sent (fst (actuator_execute_command (fun n => 20 * Z.of_nat n)
               (Some command_all) ready_state))
  = [OpcuaWrite (opcua_request 1001 (f32_of_Z 3))].
Proof.
  exact (proj1 (proj2 (execute_stops_at_failed_network_write
                         (fun n => 20 * Z.of_nat n) command_all ready_state
                         ltac:(vm_compute; discriminate)
                         ltac:(vm_compute; reflexivity)))).
Defined.

End ActuatorTablesExamples.

(** ** actuator.c: the CRC of a register-write frame *)

Section ModbusFrame.
Import Actuator.

Lemma lxor_below_pow2 (a b n : Z) :
  0 <= n -> 0 <= a < 2 ^ n -> 0 <= b < 2 ^ n -> 0 <= Z.lxor a b < 2 ^ n.
Proof.
  intros Hn Ha Hb. split; [apply Z.lxor_nonneg; lia|].
  destruct (Z.eq_dec (Z.lxor a b) 0) as [->|Hx]; [apply Z.pow_pos_nonneg; lia|].
  assert (0 <= Z.lxor a b) by (apply Z.lxor_nonneg; lia).
  apply Z.log2_lt_pow2; [lia|].
  pose proof (Z.log2_lxor a b ltac:(lia) ltac:(lia)) as Hlog.
  destruct (Z.eq_dec a 0) as [->|Ha0]; destruct (Z.eq_dec b 0) as [->|Hb0].
  - now rewrite Z.lxor_0_l in Hx.
  - rewrite Z.lxor_0_l. apply Z.log2_lt_pow2; lia.
  - rewrite Z.lxor_0_r. apply Z.log2_lt_pow2; lia.
  - assert (Z.log2 a < n) by (apply Z.log2_lt_pow2; lia).
    assert (Z.log2 b < n) by (apply Z.log2_lt_pow2; lia). lia.
Qed.

Lemma crc16_shift_range (crc : Z) :
  0 <= crc < 2 ^ 16 -> 0 <= crc16_shift crc < 2 ^ 16.
Proof.
  intros Hc. unfold crc16_shift.
  assert (Hs : 0 <= Z.shiftr crc 1 < 2 ^ 15).
  { rewrite Z.shiftr_div_pow2 by lia. change (2 ^ 1) with 2.
    change (2 ^ 16) with (2 * 2 ^ 15) in Hc. split.
    - apply Z.div_pos; lia.
    - apply Z.div_lt_upper_bound; lia. }
  destruct (Z.odd crc).
  - apply lxor_below_pow2; [lia| |vm_compute; split; [discriminate|reflexivity]].
    change (2 ^ 16) with (2 * 2 ^ 15). lia.
  - change (2 ^ 16) with (2 * 2 ^ 15). lia.
Qed.

Lemma crc16_step_range (crc b : Z) :
  0 <= crc < 2 ^ 16 -> 0 <= b < 2 ^ 8 ->
  0 <= Nat.iter 8 crc16_shift (Z.lxor crc b) < 2 ^ 16.
Proof.
  intros Hc Hb.
  assert (H0 : 0 <= Z.lxor crc b < 2 ^ 16).
  { apply lxor_below_pow2; [lia | exact Hc|].
    change (2 ^ 16) with (2 ^ 8 * 2 ^ 8). lia. }
  cbn [Nat.iter]. now repeat apply crc16_shift_range.
Qed.

Lemma crc16_range (bytes : list Z) :
  Forall (fun b => 0 <= b < 2 ^ 8) bytes -> 0 <= crc16 bytes < 2 ^ 16.
Proof.
  unfold crc16. intros Hbytes.
  assert (H : forall crc, 0 <= crc < 2 ^ 16 ->
            0 <= foldl (fun crc b => Nat.iter 8 crc16_shift (Z.lxor crc b)) crc bytes
            < 2 ^ 16).
  { induction Hbytes as [|b bytes Hb _ IH]; intros crc Hc; cbn [foldl].
    - exact Hc.
    - apply IH. now apply crc16_step_range. }
  apply H. vm_compute. split; [discriminate|reflexivity].
Qed.

(** Eight shifts of a register whose low byte is clear move the high byte
    down unchanged: checked for each of the 256 high bytes. *)
Lemma crc16_shifts_of_high_byte :
  forallb (fun n => Nat.iter 8 crc16_shift (Z.of_nat n * 256) =? Z.of_nat n)
          (seq 0 256) = true.
Proof. vm_compute. reflexivity. Qed.

Lemma clear_low_byte (crc : Z) :
  Z.lxor crc (Z.land crc 0xFF) = Z.shiftr crc 8 * 256.
Proof.
  change 256 with (2 ^ 8). rewrite <- Z.shiftl_mul_pow2 by lia.
  change 255 with (Z.ones 8).
  apply Z.bits_inj'. intros n Hn.
  rewrite Z.lxor_spec, Z.land_spec, Z.shiftl_spec by lia.
  destruct (Z.ltb_spec n 8) as [Hlow|Hhigh].
  - rewrite Z.ones_spec_low by lia.
    rewrite (Z.testbit_neg_r _ (n - 8)) by lia.
    now destruct (Z.testbit crc n).
  - rewrite Z.ones_spec_high by lia.
    rewrite Z.shiftr_spec by lia. replace (n - 8 + 8) with n by lia.
    now destruct (Z.testbit crc n).
Qed.

(** Feeding a CRC its own two bytes, low byte first, clears it. *)
Lemma crc16_residue (crc inner : Z) :
  inner = Nat.iter 8 crc16_shift (Z.lxor crc (Z.land crc 0xFF)) ->
  0 <= crc < 2 ^ 16 ->
  Nat.iter 8 crc16_shift (Z.lxor inner (Z.land (Z.shiftr crc 8) 0xFF)) = 0.
Proof.
  intros Hinner Hc. rewrite (clear_low_byte crc) in Hinner.
  assert (Hhi : 0 <= Z.shiftr crc 8 < 256).
  { rewrite Z.shiftr_div_pow2 by lia. change (2 ^ 8) with 256.
    change (2 ^ 16) with (256 * 256) in Hc. split.
    - apply Z.div_pos; lia.
    - apply Z.div_lt_upper_bound; lia. }
  set (hi := Z.shiftr crc 8) in *.
  assert (Hshift : Nat.iter 8 crc16_shift (hi * 256) = hi).
  { pose proof crc16_shifts_of_high_byte as Htable.
    rewrite forallb_forall in Htable.
    specialize (Htable (Z.to_nat hi)). rewrite Z2Nat.id in Htable by lia.
    apply (proj1 (Z.eqb_eq _ _)), Htable, in_seq. lia. }
  rewrite Hshift in Hinner. subst inner.
  assert (Hmask : Z.land hi 255 = hi).
  { change 255 with (Z.ones 8). rewrite Z.land_ones by lia.
    apply Z.mod_small. change (2 ^ 8) with 256. lia. }
  rewrite Hmask, Z.lxor_nilpotent. reflexivity.
Qed.

Lemma crc16_with_trailer (bytes : list Z) (lo hi : Z) :
  crc16 (bytes ++ [lo; hi])
  = Nat.iter 8 crc16_shift
      (Z.lxor (Nat.iter 8 crc16_shift (Z.lxor (crc16 bytes) lo)) hi).
Proof. unfold crc16. now rewrite foldl_app. Qed.

(** X21.  Every register-write frame the dispatcher builds checks out: it
    is 8 bytes long, and the Modbus CRC-16 computed over the whole frame,
    trailer included, is 0, which is the test a receiver applies. *)
Theorem modbus_frame_crc_checks (slave address val : Z) :
  0 <= slave < 256 ->
  length (modbus_frame slave address val) = 8%nat /\
  crc16 (modbus_frame slave address val) = 0.
Proof.
  intros Hslave. split; [reflexivity|].
  unfold modbus_frame.
  assert (Hbody : 0 <= crc16 [slave; 6; Z.land (Z.shiftr address 8) 255;
                              Z.land address 255; Z.land (Z.shiftr val 8) 255;
                              Z.land val 255] < 2 ^ 16).
  { apply crc16_range.
    assert (Hmask : forall x, 0 <= Z.land x 255 < 2 ^ 8).
    { intros x. change 255 with (Z.ones 8). rewrite Z.land_ones by lia.
      apply Z.mod_pos_bound. lia. }
    repeat constructor; try apply Hmask; change (2 ^ 8) with 256; lia. }
  rewrite crc16_with_trailer.
  now apply (crc16_residue _ _ eq_refl).
Qed.

End ModbusFrame.

Section ModbusFrameExamples.
Import Actuator.

Lemma modbus_frame_crc_checks_witness :
  crc16 (modbus_frame 1 1001 3) = 0.
Proof.
  exact (proj2 (modbus_frame_crc_checks 1 1001 3 ltac:(lia))).
Defined.

End ModbusFrameExamples.

(** ** infer.c: model loading, counting and value ranges *)

Section InferEngine.
Import Infer.

Variable timer : nat -> Z.

(** X22.  Load, then read back.  [infer_load_model] accepts 1 to 8192
    bytes; it then reports the model as loaded with that size, and the
    model buffer holds the bytes at its front.  The rest of the buffer is
    NOT cleared: behind a shorter model the tail of whatever was there
    before stays in place.  An empty or oversized image is refused and
    changes nothing. *)
Theorem load_model_then_read_back (bytes : list Z) (st : state) :
  length (model_buffer st) = Z.to_nat MAX_MODEL_SIZE ->
  let n := length bytes in
  let st' := fst (infer_load_model (Some bytes) st) in
  let status := snd (infer_load_model (Some bytes) st) in
  (1 <= Z.of_nat n <= MAX_MODEL_SIZE ->
     status = EDGEPLUG_OK /\
     infer_is_model_loaded st' = true /\
     infer_get_model_size st' = Z.of_nat n /\
     take n (model_buffer st') = bytes /\
     drop n (model_buffer st') = drop n (model_buffer st) /\
     length (model_buffer st') = Z.to_nat MAX_MODEL_SIZE) /\
  (n = 0%nat -> status = EDGEPLUG_ERROR_INVALID_PARAM /\ st' = st) /\
  (MAX_MODEL_SIZE < Z.of_nat n -> status = EDGEPLUG_ERROR_MEMORY /\ st' = st).
Proof.
  intros Hlen. cbv zeta. unfold infer_load_model, infer_is_model_loaded,
    infer_get_model_size, copy_front.
  destruct (Z.eqb_spec (Z.of_nat (length bytes)) 0) as [H0|H0];
    [|destruct (Z.ltb_spec MAX_MODEL_SIZE (Z.of_nat (length bytes))) as [Hbig|Hfit]];
    cbn [fst snd model_loaded model_size model_buffer].
  - split; [lia|]. split; [auto|]. unfold MAX_MODEL_SIZE. lia.
  - split; [lia|]. split; [lia|]. auto.
  - split; [|split; lia]. intros _.
    split; [reflexivity|]. split; [reflexivity|]. split; [reflexivity|].
    split; [now rewrite take_app_length|].
    split; [now rewrite drop_app_length|].
    rewrite length_app, length_drop, Hlen. lia.
Qed.

(** X23.  A call of [infer_int8] is counted exactly when it gets as far as
    measuring.  With all pointers given, a model loaded and an input of at
    most 1024 bytes, a call whose network evaluation stays inside the two
    static arrays reads the clock twice and increments [inference_count]
    whatever status it returns, and leaves the model image and the loaded
    flag as they were; any other call returns
    [EDGEPLUG_ERROR_INVALID_PARAM] or [EDGEPLUG_ERROR_MEMORY], stores no
    output and leaves every static as it was. *)
Theorem inference_counted_iff_measured (input_data : option (list Z))
    (output_data output_size : bool) (st : state) :
  let '(st', status, out) := infer_int8 timer input_data output_data output_size st in
  match input_data with
  | Some input =>
      if output_data && output_size && model_loaded st
         && (Z.of_nat (length input) <=? INFERENCE_BUFFER_SIZE)
      then
        is_Some (cmsis_nn_run (model_buffer st)
                   (copy_front input (inference_buffer st)) true
                   (Z.of_nat (length input))) ->
        inference_count st' = u32 (inference_count st + 1) /\
        timer_reads st' = S (S (timer_reads st)) /\
        model_buffer st' = model_buffer st /\ model_loaded st' = true
      else
        st' = st /\ out = None /\
        (status = EDGEPLUG_ERROR_INVALID_PARAM \/ status = EDGEPLUG_ERROR_MEMORY)
  | None => st' = st /\ out = None /\ status = EDGEPLUG_ERROR_INVALID_PARAM
  end.
Proof.
  unfold infer_int8.
  destruct input_data as [input|]; [|auto].
  destruct output_data, output_size; cbn [negb orb andb]; auto.
  destruct (model_loaded st) eqn:Hloaded; cbn [negb andb]; auto.
  rewrite Z.leb_antisym.
  destruct (INFERENCE_BUFFER_SIZE <? Z.of_nat (length input)); cbn [negb]; auto.
  cbn [get_system_time_ms model_buffer model_loaded inference_buffer].
  destruct (cmsis_nn_inference _ _ _ _) as [[buf' status] out].
  cbn [get_system_time_ms timer_reads].
  destruct (1 <? _); intros _; cbn; auto.
Qed.

Lemma clamp_i8_range (x : Z) : -128 <= clamp_i8 x <= 127.
Proof.
  unfold clamp_i8.
  destruct (Z.ltb_spec 127 x); [lia|].
  destruct (Z.ltb_spec x (-128)); lia.
Qed.



(** Dequantizing and quantizing again, checked for each of the 256 int8
    values. *)
Lemma requantize_table :
  forallb (fun n =>
             let x := Z.of_nat n - 128 in
             match infer_quantize_fp32 matched_quantization
                     (snd (infer_dequantize_int8 matched_quantization (Some [x]) true))
                     true with
             | (EDGEPLUG_OK, Some [y]) => y =? (if x <? 0 then x + 1 else x)
             | _ => false
             end)
          (seq 0 256) = true.
Proof. vm_compute. reflexivity. Qed.

(** X26.  Quantization.  [infer_quantize_fp32] refuses an empty input and
    otherwise stores one value per input, each within -128..127, whatever
    the scale and zero point are.  It rounds by adding 0.5 and truncating
    toward zero, which is rounding to nearest only for non-negative
    values: with matching scales (2^-6) and zero points 0, dequantizing an
    int8 value and quantizing the result gives the value back when it is
    non-negative, and the value plus one when it is negative. *)
Theorem quantize_range_and_round_trip :
  (forall q, infer_quantize_fp32 q (Some []) true = (EDGEPLUG_ERROR_INVALID_PARAM, None)) /\
  (forall q data, data <> [] ->
     exists out,
       infer_quantize_fp32 q (Some data) true = (EDGEPLUG_OK, Some out) /\
       length out = length data /\ Forall (fun y => -128 <= y <= 127) out) /\
  (forall x, -128 <= x <= 127 ->
     infer_quantize_fp32 matched_quantization
       (snd (infer_dequantize_int8 matched_quantization (Some [x]) true)) true
     = (EDGEPLUG_OK, Some [if x <? 0 then x + 1 else x])).
Proof.
  split; [reflexivity|]. split.
  - intros q data Hdata. unfold infer_quantize_fp32. cbn [negb orb].
    destruct (Z.eqb_spec (Z.of_nat (length data)) 0) as [Hzero|_].
    { destruct data; [contradiction | discriminate]. }
    eexists. split; [reflexivity|]. split; [now rewrite length_map|].
    apply List.Forall_map, List.Forall_forall. intros y _. apply clamp_i8_range.
  - intros x Hx. pose proof requantize_table as Htable.
    rewrite forallb_forall in Htable.
    specialize (Htable (Z.to_nat (x + 128))). cbv zeta in Htable.
    replace (Z.of_nat (Z.to_nat (x + 128)) - 128) with x in Htable by lia.
    assert (Hin : In (Z.to_nat (x + 128)) (seq 0 256)) by (apply in_seq; lia).
    specialize (Htable Hin).
    destruct (infer_quantize_fp32 matched_quantization _ true) as [status out].
    destruct status; try discriminate.
    destruct out as [[|y [|y' out]]|]; try discriminate.
    apply Z.eqb_eq in Htable. now subst y.
Qed.

End InferEngine.

Section InferEngineExamples.
Import Infer.

Lemma load_model_then_read_back_witness :
  take (length tiny_model)
       (model_buffer (fst (infer_load_model (Some tiny_model) initial_state)))
  = tiny_model.
Proof.
  exact (proj1 (proj2 (proj2 (proj2
           (proj1 (load_model_then_read_back tiny_model initial_state
                     ltac:(vm_compute; reflexivity))
              ltac:(vm_compute; split; discriminate)))))).
Defined.

Lemma inference_counted_iff_measured_witness :
  let '(st', status, out) :=
    infer_int8 software_timer (Some [100; -3]) true true loaded_state in
  inference_count st' = 1 /\ timer_reads st' = 2%nat.
Proof.
  pose proof (inference_counted_iff_measured software_timer (Some [100; -3]) true true
                loaded_state) as H.
  destruct (infer_int8 software_timer (Some [100; -3]) true true loaded_state)
    as [[st' status] out].
  change (model_loaded loaded_state) with true in H.
  change (Z.of_nat (length [100; -3]) <=? INFERENCE_BUFFER_SIZE) with true in H.
  cbn [andb] in H.
  destruct (H ltac:(vm_compute; eexists; reflexivity)) as (Hcount & Hreads & _).
  split; [exact Hcount | exact Hreads].
Defined.


End InferEngineExamples.

(** ** edgeplug_runtime.c: the entry points *)

Section FacadeFacts.
Import Facade.

Variable infer_timer : nat -> Z.
Variable actuator_timer : nat -> Z.

Lemma infer_int8_keeps_model (input : option (list Z)) (o1 o2 : bool)
    (st : Infer.state) :
  Infer.model_loaded (fst (fst (Infer.infer_int8 infer_timer input o1 o2 st)))
  = Infer.model_loaded st.
Proof.
  unfold Infer.infer_int8.
  destruct input as [bytes|]; [|reflexivity].
  destruct (negb o1 || negb o2 || negb (Infer.model_loaded st)); [reflexivity|].
  destruct (Infer.INFERENCE_BUFFER_SIZE <? Z.of_nat (length bytes)); [reflexivity|].
  cbn [Infer.get_system_time_ms Infer.model_buffer Infer.model_loaded
       Infer.inference_buffer].
  destruct (Infer.cmsis_nn_inference _ _ _ _) as [[buf' status] out].
  cbn [Infer.get_system_time_ms Infer.timer_reads].
  destruct (1 <? _); reflexivity.
Qed.

Lemma infer_int8_without_model (input : option (list Z)) (o1 o2 : bool)
    (st : Infer.state) :
  Infer.model_loaded st = false ->
  Infer.infer_int8 infer_timer input o1 o2 st = (st, EDGEPLUG_ERROR_INVALID_PARAM, None).
Proof.
  intros Hno. unfold Infer.infer_int8. rewrite Hno.
  destruct input; [|reflexivity].
  now rewrite !orb_true_r.
Qed.

(** [edgeplug_process_sensors] while no model is loaded: the sample is
    inserted and counted; the call answers with the zeroed command until
    the window is ready and with the inference module's refusal
    afterwards. *)
Lemma process_sensors_without_model (s : edgeplug_sensor_data_t) (sys : system) :
  initialized (runtime_state sys) = true ->
  Infer.model_loaded (infer sys) = false ->
  let p := fst (Preprocess.preprocess_add_sample (Some s) (preprocess sys)) in
  let r := runtime_state sys in
  let sys' := {| runtime_state :=
                   {| config := config r; initialized := true;
                      sensor_count := u32 (sensor_count r + 1);
                      inference_count := inference_count r;
                      safety_trips := safety_trips r |};
                 preprocess := p; infer := infer sys; actuator := actuator sys;
                 agent_loader := agent_loader sys |} in
  edgeplug_process_sensors infer_timer (Some s) true sys
  = if Preprocess.preprocess_is_window_ready p
    then (sys', EDGEPLUG_ERROR_INVALID_PARAM, None)
    else (sys', EDGEPLUG_OK, Some zero_command).
Proof.
  intros Hinit Hno. cbv zeta. unfold edgeplug_process_sensors.
  rewrite Hinit. cbn [negb orb Preprocess.preprocess_add_sample fst snd
                      status_eqb with_preprocess with_runtime_state
                      runtime_state preprocess infer actuator agent_loader].
  rewrite Hinit.
  unfold Preprocess.preprocess_is_window_ready, Preprocess.preprocess_normalize_window.
  cbn [negb orb].
  destruct (Preprocess.window_full _); cbn [negb]; [|reflexivity].
  cbn [status_eqb negb]. rewrite infer_int8_without_model by exact Hno.
  reflexivity.
Qed.

Lemma loader_call_keeps_state (l : AgentLoader.state) (d : option (list Z))
    (m : option edgeplug_manifest_t) :
  snd (AgentLoader.agent_loader_load l d m) <> EDGEPLUG_OK /\
  fst (AgentLoader.agent_loader_load l d m) = l /\
  snd (AgentLoader.agent_loader_hotswap l d m) <> EDGEPLUG_OK /\
  fst (AgentLoader.agent_loader_hotswap l d m) = l.
Proof.
  destruct (agent_loader_load_rejects_all l d m) as [Hs Hst].
  split; [exact Hs|]. split; [exact Hst|].
  unfold AgentLoader.agent_loader_hotswap.
  destruct (AgentLoader.agent_loader_load l d m) as [l1 status]. cbn [fst snd] in *.
  destruct status; try contradiction; cbn; (split; [discriminate | exact Hst]).
Qed.

(** No entry point loads a model or an agent. *)
Lemma step_keeps_model_unloaded (sys : system) (c : call) :
  Infer.model_loaded (infer sys) = false ->
  agent_loader sys = AgentLoader.initial_state ->
  Infer.model_loaded (infer (step infer_timer actuator_timer sys c)) = false /\
  agent_loader (step infer_timer actuator_timer sys c) = AgentLoader.initial_state.
Proof.
  intros Hno Hld. destruct c as [cfg|d m|s out|cmd|d m| |]; cbn [step].
  - unfold edgeplug_init. destruct cfg as [c|]; [|auto].
    destruct ((window_size c =? 0) || (sample_rate c =? 0)); [auto|].
    destruct (Preprocess.preprocess_init _ _) as [p status].
    destruct (negb (status_eqb status EDGEPLUG_OK)); cbn; auto.
  - unfold edgeplug_load_agent.
    destruct (negb (initialized (runtime_state sys))); [auto|].
    destruct d as [bytes|], m as [mf|]; auto.
    destruct (Z.of_nat (length bytes) =? 0); [auto|].
    destruct (loader_call_keeps_state (agent_loader sys) (Some bytes) (Some mf))
      as (_ & Hst & _).
    destruct (AgentLoader.agent_loader_load _ _ _) as [l status].
    cbn [fst] in *. subst l. cbn. auto.
  - unfold edgeplug_process_sensors. destruct s as [sd|]; [|auto].
    destruct (negb (initialized (runtime_state sys)) || negb out); [auto|].
    cbn [Preprocess.preprocess_add_sample fst snd status_eqb negb
         with_preprocess with_runtime_state runtime_state preprocess infer
         actuator agent_loader].
    destruct (negb (Preprocess.preprocess_is_window_ready _)); [auto|].
    destruct (Preprocess.preprocess_normalize_window _ _ _) as [status normalized].
    destruct (negb (status_eqb status EDGEPLUG_OK)); [auto|].
    rewrite infer_int8_without_model by exact Hno. cbn. auto.
  - unfold edgeplug_execute_actuation. destruct cmd as [c|]; [|auto].
    destruct (negb (initialized (runtime_state sys))); [auto|].
    destruct (Actuator.actuator_execute_command _ _ _) as [a status]. cbn. auto.
  - unfold edgeplug_hotswap_agent.
    destruct (negb (initialized (runtime_state sys))); [auto|].
    destruct (negb (enable_hotswap (config (runtime_state sys)))); [auto|].
    destruct d as [bytes|], m as [mf|]; auto.
    destruct (Z.of_nat (length bytes) =? 0); [auto|].
    destruct (loader_call_keeps_state (agent_loader sys) (Some bytes) (Some mf))
      as (_ & _ & _ & Hst).
    destruct (AgentLoader.agent_loader_hotswap _ _ _) as [l status].
    cbn [fst] in *. subst l. cbn. auto.
  - unfold edgeplug_deinit.
    destruct (negb (initialized (runtime_state sys))); cbn; auto.
  - unfold edgeplug_reset_stats.
    destruct (negb (initialized (runtime_state sys))); cbn; auto.
Qed.

Lemma run_keeps_model_unloaded (calls : list call) :
  Infer.model_loaded (infer (run infer_timer actuator_timer initial_system calls))
    = false /\
  agent_loader (run infer_timer actuator_timer initial_system calls)
    = AgentLoader.initial_state.
Proof.
  unfold run. induction calls as [|c calls IH] using rev_ind.
  - split; reflexivity.
  - rewrite foldl_app. cbn [foldl]. destruct IH as [Hno Hld].
    now apply step_keeps_model_unloaded.
Qed.

(** X27.  Through the entry points of edgeplug_runtime.c alone, no model
    and no agent is ever put in place: none of them calls
    [infer_load_model], and the loader behind [edgeplug_load_agent] and
    [edgeplug_hotswap_agent] refuses every image.  So, after any sequence
    of calls from program start, neither of those two returns
    [EDGEPLUG_OK], and [edgeplug_process_sensors] returns [EDGEPLUG_OK]
    only together with the zeroed command ("no actuation"); no command
    derived from an inference output is ever produced. *)
Theorem facade_produces_no_inferred_command (calls : list call)
    (s : option edgeplug_sensor_data_t) (out : bool)
    (d : option (list Z)) (m : option edgeplug_manifest_t) :
  let sys := run infer_timer actuator_timer initial_system calls in
  Infer.infer_is_model_loaded (infer sys) = false /\
  snd (edgeplug_load_agent d m sys) <> EDGEPLUG_OK /\
  snd (edgeplug_hotswap_agent d m sys) <> EDGEPLUG_OK /\
  let '(_, status, cmd) := edgeplug_process_sensors infer_timer s out sys in
  status = EDGEPLUG_OK -> cmd = Some zero_command.
Proof.
  cbv zeta. destruct (run_keeps_model_unloaded calls) as [Hno _].
  set (sys := run infer_timer actuator_timer initial_system calls) in *.
  split; [exact Hno|]. split; [|split].
  - unfold edgeplug_load_agent.
    destruct (negb (initialized (runtime_state sys))); [discriminate|].
    destruct d as [bytes|], m as [mf|]; try discriminate.
    destruct (Z.of_nat (length bytes) =? 0); [discriminate|].
    destruct (loader_call_keeps_state (agent_loader sys) (Some bytes) (Some mf))
      as (Hs & _).
    destruct (AgentLoader.agent_loader_load _ _ _) as [l status]. exact Hs.
  - unfold edgeplug_hotswap_agent.
    destruct (negb (initialized (runtime_state sys))); [discriminate|].
    destruct (negb (enable_hotswap (config (runtime_state sys)))); [discriminate|].
    destruct d as [bytes|], m as [mf|]; try discriminate.
    destruct (Z.of_nat (length bytes) =? 0); [discriminate|].
    destruct (loader_call_keeps_state (agent_loader sys) (Some bytes) (Some mf))
      as (_ & _ & Hs & _).
    destruct (AgentLoader.agent_loader_hotswap _ _ _) as [l status]. exact Hs.
  - destruct s as [sd|]; [|discriminate].
    destruct out; [|unfold edgeplug_process_sensors;
                    rewrite orb_true_r; discriminate].
    destruct (initialized (runtime_state sys)) eqn:Hinit;
      [|unfold edgeplug_process_sensors; rewrite Hinit; discriminate].
    rewrite (process_sensors_without_model sd sys Hinit Hno). cbv zeta.
    destruct (Preprocess.preprocess_is_window_ready _); [discriminate | reflexivity].
Qed.

Lemma process_samples_state (samples : list edgeplug_sensor_data_t) (sys : system) :
  initialized (runtime_state sys) = true ->
  Infer.model_loaded (infer sys) = false ->
  let sys' := process_samples infer_timer samples sys in
  initialized (runtime_state sys') = true /\
  Infer.model_loaded (infer sys') = false /\
  preprocess sys' = Preprocess.add_samples samples (preprocess sys) /\
  sensor_count (runtime_state sys')
  = Nat.iter (length samples) (fun c => u32 (c + 1)) (sensor_count (runtime_state sys)).
Proof.
  intros Hinit Hno. cbv zeta. unfold process_samples, Preprocess.add_samples.
  induction samples as [|s samples IH] using rev_ind.
  - repeat split; assumption.
  - rewrite !foldl_app. cbn [foldl]. destruct IH as (Hi & Hn & Hp & Hc).
    rewrite (process_sensors_without_model s _ Hi Hn). cbv zeta.
    rewrite length_app, Nat.add_comm. cbn [length Nat.add Nat.iter].
    destruct (Preprocess.preprocess_is_window_ready _);
      cbn [fst runtime_state initialized infer preprocess sensor_count];
      rewrite Hp, Hc; repeat split; assumption.
Qed.

(** X28.  The schedule of a freshly initialized runtime.  After
    [edgeplug_init] with a window of W samples (1 <= W <= 256), the first
    W-1 calls of [edgeplug_process_sensors] each return [EDGEPLUG_OK] with
    the zeroed command.  From the W-th call on the window is ready and the
    call goes on to inference, where [infer_int8] finds no model loaded:
    the call returns [EDGEPLUG_ERROR_INVALID_PARAM] and stores no command.
    Every one of these calls is counted in [sensor_count]. *)
Theorem process_sensors_schedule (cfg : edgeplug_config_t) (sys : system)
    (samples : list edgeplug_sensor_data_t) (s : edgeplug_sensor_data_t) :
  1 <= window_size cfg <= 256 ->
  sample_rate cfg <> 0 ->
  let sys0 := fst (edgeplug_init (Some cfg) sys) in
  let sysk := process_samples infer_timer samples sys0 in
  snd (edgeplug_init (Some cfg) sys) = EDGEPLUG_OK /\
  edgeplug_get_sensor_count sysk
  = Nat.iter (length samples) (fun c => u32 (c + 1)) 0 /\
  let '(_, status, cmd) := edgeplug_process_sensors infer_timer (Some s) true sysk in
  if Z.of_nat (length samples) + 1 <? window_size cfg
  then status = EDGEPLUG_OK /\ cmd = Some zero_command
  else status = EDGEPLUG_ERROR_INVALID_PARAM /\ cmd = None.
Proof.
  intros HW Hrate. cbv zeta.
  assert (Hinit : edgeplug_init (Some cfg) sys
                  = ({| runtime_state :=
                          {| config := cfg; initialized := true; sensor_count := 0;
                             inference_count := 0; safety_trips := 0 |};
                        preprocess :=
                          fst (Preprocess.preprocess_init (window_size cfg)
                                 (preprocess sys));
                        infer := fst (Infer.infer_init (infer sys));
                        actuator := fst (Actuator.actuator_init (actuator sys));
                        agent_loader := agent_loader sys |}, EDGEPLUG_OK)).
  { unfold edgeplug_init.
    destruct (Z.eqb_spec (window_size cfg) 0); [lia|].
    destruct (Z.eqb_spec (sample_rate cfg) 0); [contradiction|].
    cbn [orb with_runtime_state preprocess].
    unfold Preprocess.preprocess_init, Preprocess.MAX_WINDOW_SIZE.
    destruct (Z.eqb_spec (window_size cfg) 0); [lia|].
    destruct (Z.ltb_spec 256 (window_size cfg)); [lia|]. reflexivity. }
  rewrite Hinit. cbn [fst snd]. split; [reflexivity|].
  set (sys0 := {| runtime_state := _ |}).
  destruct (process_samples_state samples sys0 eq_refl eq_refl)
    as (Hi & Hn & Hp & Hc).
  split; [exact Hc|].
  rewrite (process_sensors_without_model s _ Hi Hn). cbv zeta.
  rewrite Hp.
  change (fst (Preprocess.preprocess_add_sample (Some s)
                 (Preprocess.add_samples samples (preprocess sys0))))
    with (foldl (fun acc x => fst (Preprocess.preprocess_add_sample (Some x) acc))
                (Preprocess.add_samples samples (preprocess sys0)) [s]).
  unfold Preprocess.add_samples. rewrite <- foldl_app.
  fold (Preprocess.add_samples (samples ++ [s]) (preprocess sys0)).
  change (preprocess sys0)
    with (fst (Preprocess.preprocess_init (window_size cfg) (preprocess sys))).
  rewrite (window_ready_from_init (window_size cfg) (preprocess sys)
             (samples ++ [s]) HW).
  rewrite length_app, Nat2Z.inj_add. cbn [length]. change (Z.of_nat 1) with 1.
  rewrite Z.leb_antisym.
  destruct (Z.of_nat (length samples) + 1 <? window_size cfg);
    cbn [negb]; cbv beta iota; split; reflexivity.
Qed.

(** X29.  [edgeplug_init] marks the runtime initialized before it
    initializes the modules.  With a window size above 256 (and a non-zero
    sample rate) the call fails with [EDGEPLUG_ERROR_INVALID_PARAM] in
    [preprocess_init], yet afterwards [edgeplug_is_initialized] answers
    true and [edgeplug_get_config] hands out the rejected configuration;
    the pre-processing, inference and actuator modules are left as they
    were, uninitialized by this call. *)
Theorem failed_init_leaves_runtime_initialized (cfg : edgeplug_config_t)
    (sys : system) :
  256 < window_size cfg ->
  sample_rate cfg <> 0 ->
  let sys' := fst (edgeplug_init (Some cfg) sys) in
  snd (edgeplug_init (Some cfg) sys) = EDGEPLUG_ERROR_INVALID_PARAM /\
  edgeplug_is_initialized sys' = true /\
  edgeplug_get_config sys' = Some cfg /\
  edgeplug_get_sensor_count sys' = 0 /\
  preprocess sys' = preprocess sys /\
  infer sys' = infer sys /\
  actuator sys' = actuator sys.
Proof.
  intros HW Hrate. cbv zeta. unfold edgeplug_init.
  destruct (Z.eqb_spec (window_size cfg) 0); [lia|].
  destruct (Z.eqb_spec (sample_rate cfg) 0); [contradiction|].
  cbn [orb with_runtime_state preprocess].
  unfold Preprocess.preprocess_init, Preprocess.MAX_WINDOW_SIZE.
  destruct (Z.eqb_spec (window_size cfg) 0); [lia|].
  destruct (Z.ltb_spec 256 (window_size cfg)); [|lia].
  cbn. repeat split; reflexivity.
Qed.

End FacadeFacts.

Section FacadeExamples.
Import Facade.

Lemma process_sensors_schedule_witness :
  let cfg := {| window_size := 2; sample_rate := 100; inference_interval := 1;
                enable_safety_guard := false; enable_hotswap := true |} in
  let s := {| voltage := f32_of_Z 100; current := f32_one;
              timestamp := 0; quality := 100 |} in
  let sys0 := fst (edgeplug_init (Some cfg) initial_system) in
  snd (fst (edgeplug_process_sensors Infer.software_timer (Some s) true sys0))
    = EDGEPLUG_OK /\
  snd (fst (edgeplug_process_sensors Infer.software_timer (Some s) true
              (process_samples Infer.software_timer [s] sys0)))
    = EDGEPLUG_ERROR_INVALID_PARAM.
Proof.
  intros cfg s sys0.
  pose proof (process_sensors_schedule Infer.software_timer cfg initial_system [] s
                ltac:(cbn; lia) ltac:(cbn; lia)) as (_ & _ & H0).
  pose proof (process_sensors_schedule Infer.software_timer cfg initial_system [s] s
                ltac:(cbn; lia) ltac:(cbn; lia)) as (_ & _ & H1).
  fold sys0 in H0, H1. cbn [process_samples foldl] in H0.
  destruct (edgeplug_process_sensors Infer.software_timer (Some s) true sys0)
    as [[sys1 status1] cmd1].
  destruct (edgeplug_process_sensors Infer.software_timer (Some s) true
              (process_samples Infer.software_timer [s] sys0))
    as [[sys2 status2] cmd2].
  split; [exact (proj1 H0) | exact (proj1 H1)].
Defined.

Lemma failed_init_leaves_runtime_initialized_witness :
  let cfg := {| window_size := 300; sample_rate := 100; inference_interval := 1;
                enable_safety_guard := false; enable_hotswap := true |} in
  snd (edgeplug_init (Some cfg) initial_system) = EDGEPLUG_ERROR_INVALID_PARAM /\
  edgeplug_is_initialized (fst (edgeplug_init (Some cfg) initial_system)) = true.
Proof.
  intros cfg.
  pose proof (failed_init_leaves_runtime_initialized cfg initial_system
                ltac:(cbn; lia) ltac:(cbn; lia)) as (Hs & Hi & _).
  split; [exact Hs | exact Hi].
Defined.

End FacadeExamples.
